(** * Evert Kwok cartoon scraper: a shallow embedding of src/scraper.js

    The class [EvertKwokScraper] is embedded method by method, under the
    names the source uses.

    - JavaScript strings are embedded as [string]: sequences of code
      units, written with the 256 characters of [ascii]; white space is
      the part of [\s] among them.
    - [toLowerCase] and [toUpperCase] follow the case tables of the
      engine, which are not part of the repository: they are the two
      operations of the class [Engine], and nothing is assumed of them
      unless a statement says so.
    - A [Date] is its time value in milliseconds, read in local time: the
      zone offset of the runner is taken to be constant, so that local
      time and time value differ by a constant and [b.date - a.date] is the
      difference of the embedded values.  The calendar follows the
      ECMAScript definitions (Day, DayFromYear, YearFromTime, MonthFromTime,
      DateFromTime, MakeDay, MakeDate).
    - Exceptions are explicit: a computation that can throw returns an
      [outcome]; [try]/[catch] is [try_catch].
    - The environment of a run (network, HTML parser, URL parser, clock,
      random generator) is a record [Env] of oracles.
    - [log] and [delay] only write to the console and wait; they are left
      out, except for what the arguments of [log] evaluate. *)

From Stdlib Require Import ZArith List String Ascii Bool Lia.
From Stdlib Require Import Sorted Permutation DecimalString.
Import ListNotations.

Open Scope string_scope.
Open Scope Z_scope.

(** ** Exceptions *)

Inductive exn : Type :=
| TypeError (msg : string)
| NetworkError (msg : string).

Inductive outcome (A : Type) : Type :=
| Returned (a : A)
| Thrown (e : exn).

Arguments Returned {A} a.
Arguments Thrown {A} e.

Definition bind {A B : Type} (m : outcome A) (k : A -> outcome B) : outcome B :=
  match m with
  | Returned a => k a
  | Thrown e => Thrown e
  end.

Notation "x <- m ;; k" := (bind m (fun x => k))
  (at level 61, m at next level, right associativity).

Definition try_catch {A : Type} (body : outcome A) (handler : exn -> outcome A) : outcome A :=
  match body with
  | Returned a => Returned a
  | Thrown e => handler e
  end.

Fixpoint mapM {A B : Type} (f : A -> outcome B) (l : list A) : outcome (list B) :=
  match l with
  | [] => Returned []
  | a :: l' => b <- f a ;; bs <- mapM f l' ;; Returned (b :: bs)
  end.

(** ** JavaScript string primitives *)

Module JS.

Definition code (c : ascii) : nat := nat_of_ascii c.

Definition isDigit (c : ascii) : bool :=
  (48 <=? code c)%nat && (code c <=? 57)%nat.

Definition isUpper (c : ascii) : bool :=
  (65 <=? code c)%nat && (code c <=? 90)%nat.

Definition isLower (c : ascii) : bool :=
  (97 <=? code c)%nat && (code c <=? 122)%nat.

(** [\w] is [A-Za-z0-9_]. *)
Definition isWord (c : ascii) : bool :=
  isDigit c || isUpper c || isLower c || (code c =? 95)%nat.

(** [\s], and what [trim] removes: TAB, LF, VT, FF, CR, SP, NBSP. *)
Definition isSpace (c : ascii) : bool :=
  ((9 <=? code c)%nat && (code c <=? 13)%nat) || (code c =? 32)%nat || (code c =? 160)%nat.

(** The characters of ASCII, and the case of the letters among them:
    [toLowerChar] and [toUpperChar] move the letters A to Z and a to z
    and keep every other character. *)
Definition isAscii (c : ascii) : bool := (code c <? 128)%nat.

Definition toLowerChar (c : ascii) : ascii :=
  if isUpper c then ascii_of_nat (code c + 32) else c.

Definition toUpperChar (c : ascii) : ascii :=
  if isLower c then ascii_of_nat (code c - 32) else c.

Fixpoint map (f : ascii -> ascii) (s : string) : string :=
  match s with
  | EmptyString => EmptyString
  | String a s' => String (f a) (map f s')
  end.

Fixpoint filter (p : ascii -> bool) (s : string) : string :=
  match s with
  | EmptyString => EmptyString
  | String a s' => if p a then String a (filter p s') else filter p s'
  end.

Fixpoint existsb (p : ascii -> bool) (s : string) : bool :=
  match s with
  | EmptyString => false
  | String a s' => p a || existsb p s'
  end.

Fixpoint forallb (p : ascii -> bool) (s : string) : bool :=
  match s with
  | EmptyString => true
  | String a s' => p a && forallb p s'
  end.

(** [s.startsWith(p)] *)
Definition startsWith (p s : string) : bool := prefix p s.

(** [s.includes(p)] *)
Fixpoint includes (p s : string) : bool :=
  prefix p s ||
  match s with
  | EmptyString => false
  | String _ s' => includes p s'
  end.

(** [s.substring(0, n)] *)
Definition substring0 (n : nat) (s : string) : string := substring 0 n s.

(** [s.substring(i, j)] for [i <= j] *)
Definition substring (i j : nat) (s : string) : string := String.substring i (j - i) s.

Fixpoint trimStart (s : string) : string :=
  match s with
  | EmptyString => EmptyString
  | String a s' => if isSpace a then trimStart s' else s
  end.

Fixpoint trimEnd (s : string) : string :=
  match s with
  | EmptyString => EmptyString
  | String a s' =>
      let t := trimEnd s' in
      if isSpace a && (t =? "")%string then EmptyString else String a t
  end.

Definition trim (s : string) : string := trimEnd (trimStart s).

(** [s.replace(/c/g, r)] for a single character [c] *)
Fixpoint replaceAll (c : ascii) (r : string) (s : string) : string :=
  match s with
  | EmptyString => EmptyString
  | String a s' =>
      if Ascii.eqb a c then r ++ replaceAll c r s' else String a (replaceAll c r s')
  end.

(** [s.replace(/\s+/g, ' ')]: [inRun] says that the previous character
    belonged to the run of white space being replaced. *)
Fixpoint collapseSpaces (inRun : bool) (s : string) : string :=
  match s with
  | EmptyString => EmptyString
  | String a s' =>
      if isSpace a
      then (if inRun then collapseSpaces true s' else String " " (collapseSpaces true s'))
      else String a (collapseSpaces false s')
  end.

(** [s.split(c)] for a single character [c] *)
Fixpoint split (c : ascii) (s : string) : list string :=
  match s with
  | EmptyString => [EmptyString]
  | String a s' =>
      let r := split c s' in
      if Ascii.eqb a c then EmptyString :: r
      else match r with
           | h :: t => String a h :: t
           | [] => [String a EmptyString]
           end
  end.

(** [parseInt(s)] on a string of decimal digits *)
Fixpoint parseDigits (acc : Z) (s : string) : Z :=
  match s with
  | EmptyString => acc
  | String a s' => parseDigits (10 * acc + Z.of_nat (code a - 48)) s'
  end.

Definition parseInt (s : string) : Z := parseDigits 0 s.

(** [String(n)] for an integer [n] *)
Definition ofNumber (n : Z) : string := NilZero.string_of_int (Z.to_int n).

(** [s.padStart(2, '0')] *)
Definition padStart2 (s : string) : string :=
  match length s with
  | O => "00"
  | S O => "0" ++ s
  | _ => s
  end.

End JS.

(** ** The case mapping of the engine

    [s.toLowerCase()] and [s.toUpperCase()] map a string by the Unicode
    case tables the engine was built with.  A result may differ from its
    argument in length. *)

Class Engine : Type := {
  toLowerCase : string -> string;
  toUpperCase : string -> string
}.

(** ** Values that reach [escapeXml] and [response.data] *)

Inductive value : Type :=
| VUndefined
| VNull
| VStr (s : string).

(** [!v] *)
Definition falsy (v : value) : bool :=
  match v with
  | VUndefined | VNull => true
  | VStr s => (s =? "")%string
  end.

(** [v.toString()]: a property access on [null] or [undefined] throws. *)
Definition toString (v : value) : outcome string :=
  match v with
  | VStr s => Returned s
  | VNull => Thrown (TypeError "Cannot read properties of null")
  | VUndefined => Thrown (TypeError "Cannot read properties of undefined")
  end.

(** [v.length]: a property access on [null] or [undefined] throws. *)
Definition lengthOf (v : value) : outcome nat :=
  match v with
  | VStr s => Returned (length s)
  | VNull => Thrown (TypeError "Cannot read properties of null (reading 'length')")
  | VUndefined => Thrown (TypeError "Cannot read properties of undefined (reading 'length')")
  end.

Definition quot : ascii := ascii_of_nat 34.

Definition escapeXmlString (s : string) : string :=
  JS.replaceAll "'" "&apos;"
    (JS.replaceAll quot "&quot;"
      (JS.replaceAll ">" "&gt;"
        (JS.replaceAll "<" "&lt;"
          (JS.replaceAll "&" "&amp;" s)))).

Definition escapeXml (str : value) : outcome string :=
  if falsy str then Returned ""
  else s <- toString str ;; Returned (escapeXmlString s).

(** ** The calendar of ECMAScript (Date objects, in local time) *)

Module Cal.

Definition msPerDay : Z := 86400000.

Definition Day (t : Z) : Z := t / msPerDay.

Definition TimeWithinDay (t : Z) : Z := t mod msPerDay.

Definition isLeap (y : Z) : bool :=
  ((y mod 4 =? 0) && negb (y mod 100 =? 0)) || (y mod 400 =? 0).

Definition DaysInYear (y : Z) : Z := if isLeap y then 366 else 365.

Definition DayFromYear (y : Z) : Z :=
  365 * (y - 1970) + (y - 1969) / 4 - (y - 1901) / 100 + (y - 1601) / 400.

(** The largest [y] with [DayFromYear y <= d]: an estimate from the mean
    length of a year, corrected by at most one. *)
Definition YearFromDay (d : Z) : Z :=
  let y0 := 1970 + (400 * d) / 146097 in
  if d <? DayFromYear y0 then y0 - 1
  else if DayFromYear (y0 + 1) <=? d then y0 + 1
  else y0.

Definition YearFromTime (t : Z) : Z := YearFromDay (Day t).

Definition DayWithinYear (t : Z) : Z := Day t - DayFromYear (YearFromTime t).

Definition InLeapYear (t : Z) : Z := if isLeap (YearFromTime t) then 1 else 0.

Definition MonthFromTime (t : Z) : Z :=
  let d := DayWithinYear t in
  let l := InLeapYear t in
  if d <? 31 then 0
  else if d <? 59 + l then 1
  else if d <? 90 + l then 2
  else if d <? 120 + l then 3
  else if d <? 151 + l then 4
  else if d <? 181 + l then 5
  else if d <? 212 + l then 6
  else if d <? 243 + l then 7
  else if d <? 273 + l then 8
  else if d <? 304 + l then 9
  else if d <? 334 + l then 10
  else 11.

(** Days of the year before the first of month [m] (0 is January). *)
Definition daysBeforeMonth (l m : Z) : Z :=
  if m =? 0 then 0
  else if m =? 1 then 31
  else if m =? 2 then 59 + l
  else if m =? 3 then 90 + l
  else if m =? 4 then 120 + l
  else if m =? 5 then 151 + l
  else if m =? 6 then 181 + l
  else if m =? 7 then 212 + l
  else if m =? 8 then 243 + l
  else if m =? 9 then 273 + l
  else if m =? 10 then 304 + l
  else 334 + l.

Definition DateFromTime (t : Z) : Z :=
  DayWithinYear t - daysBeforeMonth (InLeapYear t) (MonthFromTime t) + 1.

Definition MakeDay (year month date : Z) : Z :=
  let ym := year + month / 12 in
  let mn := month mod 12 in
  DayFromYear ym + daysBeforeMonth (if isLeap ym then 1 else 0) mn + date - 1.

Definition MakeDate (day time : Z) : Z := day * msPerDay + time.

End Cal.

(** A [Date] object is its local time value. *)
Definition Date : Type := Z.

(** [new Date(year, month, day)]; a year from 0 to 99 is read as 19xx. *)
Definition newDate (year month day : Z) : Date :=
  let yr := if (0 <=? year) && (year <=? 99) then 1900 + year else year in
  Cal.MakeDate (Cal.MakeDay yr month day) 0.

Definition getFullYear (d : Date) : Z := Cal.YearFromTime d.
Definition getMonth (d : Date) : Z := Cal.MonthFromTime d.
Definition getDate (d : Date) : Z := Cal.DateFromTime d.

(** [d.setMonth(m)] keeps the day of the month and the time of day. *)
Definition setMonth (d : Date) (m : Z) : Date :=
  Cal.MakeDate (Cal.MakeDay (Cal.YearFromTime d) m (Cal.DateFromTime d)) (Cal.TimeWithinDay d).

(** [d.setDate(n)] keeps the month and the time of day. *)
Definition setDate (d : Date) (n : Z) : Date :=
  Cal.MakeDate (Cal.MakeDay (Cal.YearFromTime d) (Cal.MonthFromTime d) n) (Cal.TimeWithinDay d).

(** ** [Array.prototype.sort(compare)]

    The sort of ECMAScript is stable; it is embedded as the stable
    insertion sort: [a] is placed before [b] unless [compare a b > 0]. *)

Section Sort.
Context {A : Type} (compare : A -> A -> Z).

Fixpoint insert (x : A) (l : list A) : list A :=
  match l with
  | [] => [x]
  | y :: l' => if compare x y <=? 0 then x :: l else y :: insert x l'
  end.

Fixpoint sort (l : list A) : list A :=
  match l with
  | [] => []
  | x :: l' => insert x (sort l')
  end.

End Sort.

(** ** The regular expressions of [extractDateFromUrl] *)

Module Re.

(** The pieces the seven date patterns are made of. *)
Inductive piece : Type :=
| Lit (c : ascii)        (* a literal character *)
| Digits (n : nat)       (* the capturing group (\d{n}) *)
| OptSep                 (* (?:_|\-|\.)? *)
| NotDigit.              (* (?![\d]) *)

Definition isSep (c : ascii) : bool :=
  Ascii.eqb c "_" || Ascii.eqb c "-" || Ascii.eqb c ".".

(** [takeDigits n s]: the [n] digits [s] starts with, and what follows. *)
Fixpoint takeDigits (n : nat) (s : string) : option (string * string) :=
  match n with
  | O => Some (EmptyString, s)
  | S n' =>
      match s with
      | String a s' =>
          if JS.isDigit a
          then match takeDigits n' s' with
               | Some (ds, rest) => Some (String a ds, rest)
               | None => None
               end
          else None
      | EmptyString => None
      end
  end.

(** Match the pieces at the start of [s]; the result is the list of the
    captured groups. *)
Fixpoint matchHere (ps : list piece) (s : string) : option (list string) :=
  match ps with
  | [] => Some []
  | Lit c :: ps' =>
      match s with
      | String a s' => if Ascii.eqb a c then matchHere ps' s' else None
      | EmptyString => None
      end
  | Digits n :: ps' =>
      match takeDigits n s with
      | Some (ds, rest) =>
          match matchHere ps' rest with
          | Some gs => Some (ds :: gs)
          | None => None
          end
      | None => None
      end
  | OptSep :: ps' =>
      match s with
      | String a s' =>
          if isSep a
          then match matchHere ps' s' with
               | Some gs => Some gs
               | None => matchHere ps' s
               end
          else matchHere ps' s
      | EmptyString => matchHere ps' s
      end
  | NotDigit :: ps' =>
      match s with
      | String a _ => if JS.isDigit a then None else matchHere ps' s
      | EmptyString => matchHere ps' s
      end
  end.

(** [s.match(regex)] without the [g] flag: the leftmost match. *)
Fixpoint search (ps : list piece) (s : string) : option (list string) :=
  match matchHere ps s with
  | Some gs => Some gs
  | None =>
      match s with
      | String _ s' => search ps s'
      | EmptyString => None
      end
  end.

End Re.

Inductive format : Type := ymd | ym | y | yyyymmdd.

Record pattern : Type := {
  regex : list Re.piece;
  fmt : format;
  specificity : Z
}.

Definition patterns : list pattern :=
  [ {| regex := [Re.Lit "/"; Re.Digits 4; Re.Lit "/"; Re.Digits 2; Re.Lit "/"; Re.Digits 2; Re.Lit "/"];
       fmt := ymd; specificity := 3 |};
    {| regex := [Re.Lit "/"; Re.Digits 4; Re.Lit "/"; Re.Digits 2; Re.Lit "/"];
       fmt := ym; specificity := 2 |};
    {| regex := [Re.Lit "/"; Re.Digits 4; Re.Digits 2; Re.Digits 2; Re.OptSep];
       fmt := ymd; specificity := 3 |};
    {| regex := [Re.Digits 4; Re.Lit "-"; Re.Digits 2; Re.Lit "-"; Re.Digits 2];
       fmt := ymd; specificity := 3 |};
    {| regex := [Re.Digits 4; Re.Lit "_"; Re.Digits 2; Re.Lit "_"; Re.Digits 2];
       fmt := ymd; specificity := 3 |};
    {| regex := [Re.Digits 8; Re.NotDigit];
       fmt := yyyymmdd; specificity := 3 |};
    {| regex := [Re.Lit "/"; Re.Digits 4; Re.Lit "/"];
       fmt := y; specificity := 1 |} ].

(** [patterns.sort((a, b) => b.specificity - a.specificity)] *)
Definition sortedPatterns : list pattern :=
  sort (fun a b => specificity b - specificity a) patterns.

(** [match[i]]; the groups are numbered from 1. *)
Definition group (gs : list string) (i : nat) : string := nth (i - 1) gs EmptyString.

(** The [switch] on the format: the arguments given to [new Date]. *)
Definition parseMatch (f : format) (gs : list string) : Z * Z * Z :=
  match f with
  | ymd => (JS.parseInt (group gs 1), JS.parseInt (group gs 2) - 1, JS.parseInt (group gs 3))
  | ym => (JS.parseInt (group gs 1), JS.parseInt (group gs 2) - 1, 1)
  | y => (JS.parseInt (group gs 1), 0, 1)
  | yyyymmdd =>
      let dateStr := group gs 1 in
      (JS.parseInt (JS.substring 0 4 dateStr),
       JS.parseInt (JS.substring 4 6 dateStr) - 1,
       JS.parseInt (JS.substring 6 8 dateStr))
  end.

(** The test "date is reasonable" of the loop body. *)
Definition reasonable (now : Date) (year month : Z) (date : Date) : bool :=
  (getFullYear date =? year) && (getMonth date =? month) &&
  (2000 <=? getFullYear date) && (getFullYear date <=? getFullYear now + 1).

(** The body of the loop for one pattern: the date it returns, if any. *)
Definition tryPattern (now : Date) (url : string) (p : pattern) : option Date :=
  match Re.search (regex p) url with
  | Some gs =>
      let '(year, month, day) := parseMatch (fmt p) gs in
      let date := newDate year month day in
      if reasonable now year month date then Some date else None
  | None => None
  end.

Fixpoint tryPatterns (now : Date) (url : string) (ps : list pattern) : option Date :=
  match ps with
  | [] => None
  | p :: ps' =>
      match tryPattern now url p with
      | Some date => Some date
      | None => tryPatterns now url ps'
      end
  end.

(** [now] is what [new Date()] gives during the call. *)
Definition extractDateFromUrl (now : Date) (url : string) : Date :=
  match tryPatterns now url sortedPatterns with
  | Some date => date
  | None => now
  end.

(** ** Image elements

    What the scraper reads of an [img] element through cheerio: three
    attributes ([attr] gives [undefined] for a missing one) and the text
    of the nodes around it, before [trim]. *)

Record element : Type := {
  attr_src : option string;                 (* $(element).attr('src') *)
  attr_alt : option string;                 (* $(element).attr('alt') *)
  attr_title : option string;               (* $(element).attr('title') *)
  siblings_figcaption : string;             (* .siblings('figcaption').text() *)
  parent_siblings_caption : string;         (* .parent().siblings('.wp-caption-text').text() *)
  figure_figcaption : string;               (* .closest('figure').find('figcaption').text() *)
  block_figcaption : string;                (* .closest('.wp-block-image').find('figcaption').text() *)
  caption_text : string;                    (* .closest('.wp-caption').find('.wp-caption-text').text() *)
  heading_text : string;                    (* .closest('article, .post').find('h1, h2, h3').first().text() *)
  paragraph_text : string                   (* .closest('article, .post').find('p').first().text() *)
}.

(** [candidates.filter(Boolean)]: [undefined] and the empty string go. *)
Fixpoint filterBoolean (l : list (option string)) : list string :=
  match l with
  | [] => []
  | Some s :: l' => if (s =? "")%string then filterBoolean l' else s :: filterBoolean l'
  | None :: l' => filterBoolean l'
  end.

(** [.replace(/^\d+/, '')] *)
Fixpoint dropLeadingDigits (s : string) : string :=
  match s with
  | String a s' => if JS.isDigit a then dropLeadingDigits s' else s
  | EmptyString => EmptyString
  end.

(** [.replace(/[_-]/g, ' ')], for one character *)
Definition separatorToSpace (c : ascii) : ascii :=
  if Ascii.eqb c "_" || Ascii.eqb c "-" then " "%char else c.

(** [.replace(/([a-z])([A-Z])/g, '$1 $2')] *)
Fixpoint spaceCamel (s : string) : string :=
  match s with
  | EmptyString => EmptyString
  | String a s' =>
      match s' with
      | String b r =>
          if JS.isLower a && JS.isUpper b
          then String a (String " " (String b (spaceCamel r)))
          else String a (spaceCamel s')
      | EmptyString => s
      end
  end.

(** [.replace(/^./, char => char.toUpperCase())]; the dot does not match
    a line terminator. *)
Definition capitalizeFirst {Eng : Engine} (s : string) : string :=
  match s with
  | EmptyString => EmptyString
  | String a s' =>
      if Ascii.eqb a (ascii_of_nat 10) || Ascii.eqb a (ascii_of_nat 13) then s
      else toUpperCase (String a EmptyString) ++ s'
  end.

Definition generateTitleFromUrl {Eng : Engine} (url : option string) : string :=
  match url with
  | None => "Cartoon"
  | Some url =>
      if (url =? "")%string then "Cartoon"
      else
        let filename := hd EmptyString (JS.split "." (last (JS.split "/" url) EmptyString)) in
        let t :=
          JS.substring0 50
            (capitalizeFirst
              (JS.trim
                (JS.collapseSpaces false
                  (spaceCamel
                    (JS.map separatorToSpace (dropLeadingDigits filename)))))) in
        if (t =? "")%string then "Educational Cartoon" else t
  end.

(** The characters [cleanTitle] keeps: [\w], [\s] and [- . , ! ?]. *)
Definition keptInTitle (c : ascii) : bool :=
  JS.isWord c || JS.isSpace c || Ascii.eqb c "-" || Ascii.eqb c "." ||
  Ascii.eqb c "," || Ascii.eqb c "!" || Ascii.eqb c "?".

Definition cleanTitle (title : string) : string :=
  JS.substring0 80 (JS.trim (JS.filter keptInTitle (JS.collapseSpaces false title))).

Definition titleCandidates (el : element) : list string :=
  filterBoolean
    [ attr_alt el;
      attr_title el;
      Some (JS.trim (siblings_figcaption el));
      Some (JS.trim (parent_siblings_caption el));
      Some (JS.trim (figure_figcaption el));
      Some (JS.trim (block_figcaption el));
      Some (JS.trim (caption_text el));
      Some (JS.trim (heading_text el)) ].

(** [candidate.match(/^\d+$/)] *)
Definition allDigits (s : string) : bool :=
  negb (s =? "")%string && JS.forallb JS.isDigit s.

Definition titleAccepted {Eng : Engine} (candidate : string) : bool :=
  (3 <? length candidate)%nat &&
  (length candidate <? 100)%nat &&
  negb (toLowerCase candidate =? "cartoon")%string &&
  negb (allDigits candidate) &&
  negb (JS.includes "wp-content" candidate).

Definition extractTitle {Eng : Engine} (el : element) : string :=
  match find titleAccepted (titleCandidates el) with
  | Some candidate => cleanTitle candidate
  | None => generateTitleFromUrl (attr_src el)
  end.

Definition descriptionCandidates (el : element) : list string :=
  filterBoolean
    [ Some (JS.trim (siblings_figcaption el));
      Some (JS.trim (figure_figcaption el));
      Some (JS.trim (block_figcaption el));
      attr_title el;
      Some (JS.trim (parent_siblings_caption el));
      Some (JS.trim (caption_text el));
      Some (JS.trim (paragraph_text el)) ].

Definition descriptionAccepted {Eng : Engine} (candidate : string) : bool :=
  (10 <? length candidate)%nat &&
  (length candidate <? 500)%nat &&
  negb (JS.includes "image" (toLowerCase candidate)) &&
  negb (JS.includes "wp-content" candidate).

Definition extractDescription {Eng : Engine} (el : element) : string :=
  match find descriptionAccepted (descriptionCandidates el) with
  | Some candidate =>
      JS.substring0 200 candidate ++ (if (200 <? length candidate)%nat then "..." else "")
  | None =>
      let title := extractTitle el in
      "Educational cartoon by Evert Kwok featuring " ++ toLowerCase title ++
      ". Making complex scientific and mathematical concepts accessible through visual humor and clever illustrations."
  end.

Definition excludePatterns : list string :=
  [ "thumbnail"; "thumb"; "avatar"; "logo"; "icon"; "banner"; "header"; "footer";
    "sidebar"; "-150x150"; "-300x300"; "wp-content/themes"; "wp-content/plugins" ].

Definition isValidCartoonUrl {Eng : Engine} (url : string) : bool :=
  let urlLower := toLowerCase url in
  negb (List.existsb (fun pattern => JS.includes pattern urlLower) excludePatterns).

(** ** Cartoons *)

Record cartoon : Type := {
  url : string;
  title : string;
  date : Date;
  description : string;
  filename : string
}.

(** A [Set] of strings, used through [has] and [add] only. *)
Definition has (seen : list string) (u : string) : bool :=
  List.existsb (String.eqb u) seen.

Fixpoint removeDuplicatesFrom (seen : list string) (cartoons : list cartoon) : list cartoon :=
  match cartoons with
  | [] => []
  | c :: rest =>
      if has seen (url c) then removeDuplicatesFrom seen rest
      else c :: removeDuplicatesFrom (url c :: seen) rest
  end.

Definition removeDuplicates (cartoons : list cartoon) : list cartoon :=
  removeDuplicatesFrom [] cartoons.

(** The comparison [(a, b) => b.date - a.date]. *)
Definition byDateDesc (a b : cartoon) : Z := date b - date a.

(** [path.basename(url)]: the last segment that is not empty. *)
Definition basename (u : string) : string :=
  last (List.filter (fun s => negb (s =? "")%string) (JS.split "/" u)) EmptyString.

(** ** The environment of a run *)

(** The response of axios, as far as it is read: [response.data], which
    is a string for a page and may be missing. *)
Record response : Type := { data : value }.

Record Env : Type := {
  (** [axios.get(baseUrl, ...)] at the given attempt *)
  axios_get : nat -> outcome response;
  (** [cheerio.load(content)(selector)]: the elements matched, in document order *)
  cheerio_load : value -> string -> list element;
  (** [new URL(src, baseUrl).href]; throws on an invalid URL *)
  resolveUrl : string -> outcome string;
  (** [new Date()] while the n-th visited element is processed *)
  clock : nat -> Date;
  (** [new Date()] for the n-th demo entry *)
  demoClock : nat -> Date;
  (** [Math.floor(Math.random() * 28)] for the n-th demo entry *)
  roll : nat -> Z
}.

Definition maxRetries : nat := 3.

(** The body of the [try] block of [fetchWithRetry]: the request, then
    the line for the log, which reads [response.data.length]. *)
Definition attemptOnce (env : Env) (attempt : nat) : outcome response :=
  response <- axios_get env attempt ;;
  _ <- lengthOf (data response) ;;
  Returned response.

(** [fetchWithRetry(url, attempt)]; the recursion is on the number of
    attempts left. *)
Fixpoint fetchWithRetryFrom (left : nat) (env : Env) (attempt : nat) : outcome response :=
  try_catch (attemptOnce env attempt)
    (fun error =>
       if (attempt <? maxRetries)%nat
       then match left with
            | S left' => fetchWithRetryFrom left' env (S attempt)
            | O => Thrown error
            end
       else Thrown error).

Definition fetchWithRetry (env : Env) (attempt : nat) : outcome response :=
  fetchWithRetryFrom (maxRetries - attempt) env attempt.

(** ** The fallback generator *)

Record demo : Type := {
  demo_title : string;
  demo_description : string;
  demo_filename : string;
  monthsAgo : Z
}.

Definition demos : list demo :=
  [ {| demo_title := "Quantum Mechanics Made Simple";
       demo_description := "A humorous exploration of quantum physics concepts, including superposition and wave-particle duality, explained through clever visual metaphors.";
       demo_filename := "quantum-mechanics-humor.jpg"; monthsAgo := 2 |};
    {| demo_title := "Calculus and Derivatives Explained";
       demo_description := "Understanding the fundamental concepts of calculus through entertaining illustrations that make complex mathematical ideas accessible.";
       demo_filename := "calculus-derivatives.jpg"; monthsAgo := 5 |};
    {| demo_title := "Chemical Reactions Adventure";
       demo_description := "Exploring the fascinating world of chemistry and molecular interactions through engaging cartoon storytelling.";
       demo_filename := "chemistry-reactions.jpg"; monthsAgo := 8 |};
    {| demo_title := "Einstein's Theory of Relativity";
       demo_description := "Breaking down Einstein's groundbreaking theories of special and general relativity using visual humor and analogies.";
       demo_filename := "einstein-relativity.jpg"; monthsAgo := 12 |};
    {| demo_title := "Pythagoras Theorem Discovery";
       demo_description := "The classic story of Pythagoras and his famous theorem, illustrated with mathematical precision and comedic timing.";
       demo_filename := "538piethagoras.jpg"; monthsAgo := 48 |};
    {| demo_title := "DNA Structure and Genetics";
       demo_description := "Unraveling the mysteries of DNA, genetic inheritance, and molecular biology through entertaining visual narratives.";
       demo_filename := "dna-genetics.jpg"; monthsAgo := 15 |};
    {| demo_title := "Physics of Light and Optics";
       demo_description := "Illuminating the principles of light, reflection, refraction, and optical phenomena through clever cartoon illustrations.";
       demo_filename := "physics-light-optics.jpg"; monthsAgo := 7 |};
    {| demo_title := "Statistics and Probability Fun";
       demo_description := "Making statistics and probability theory engaging through humorous examples and visual representations of mathematical concepts.";
       demo_filename := "statistics-probability.jpg"; monthsAgo := 3 |} ].

(** The date of a demo entry: [new Date()], then [setMonth], then [setDate]. *)
Definition demoDate (now : Date) (months : Z) (r : Z) : Date :=
  let date := setMonth now (getMonth now - months) in
  setDate date (r + 1).

Definition demoItem (env : Env) (index : nat) (d : demo) : cartoon :=
  let date := demoDate (demoClock env index) (monthsAgo d) (roll env index) in
  {| url := "https://www.evertkwok.nl/wp-content/uploads/" ++ JS.ofNumber (getFullYear date)
            ++ "/" ++ JS.padStart2 (JS.ofNumber (getMonth date + 1)) ++ "/" ++ demo_filename d;
     title := demo_title d;
     date := date;
     description := demo_description d;
     filename := demo_filename d |}.

(** [array.map((x, index) => f(x, index))] *)
Fixpoint mapIndexed {A B : Type} (f : nat -> A -> B) (index : nat) (l : list A) : list B :=
  match l with
  | [] => []
  | a :: l' => f index a :: mapIndexed f (S index) l'
  end.

Definition getDemoData (env : Env) : list cartoon :=
  sort byDateDesc (mapIndexed (demoItem env) 0%nat demos).

(** ** The scraping stage *)

Definition selectors : list string :=
  [ "img[src*=" ++ String quot "wp-content/uploads" ++ String quot "]";
    ".wp-block-image img";
    ".entry-content img";
    ".post-content img";
    "article img";
    ".content img";
    ".cartoon-image img";
    "figure img";
    ".gallery img";
    ".wp-caption img" ].

(** The state of the two nested loops: the number of elements visited so
    far, the set [foundUrls] and the array [cartoons]. *)
Record loopState : Type := {
  visited : nat;
  foundUrls : list string;
  cartoons : list cartoon
}.

Definition fullUrlOf (env : Env) (imgSrc : string) : outcome string :=
  if JS.startsWith "http" imgSrc then Returned imgSrc else resolveUrl env imgSrc.

Definition newCartoon {Eng : Engine} (env : Env) (n : nat) (el : element) (fullUrl : string) : cartoon :=
  {| url := fullUrl;
     title := extractTitle el;
     date := extractDateFromUrl (clock env n) fullUrl;
     description := extractDescription el;
     filename := basename fullUrl |}.

(** The callback given to [each].  Its line for the log reads
    [cartoon.date.toISOString()], which throws on an invalid date only: the
    date is [new Date()] or one the checks of [tryPattern] accepted. *)
Definition visit {Eng : Engine} (env : Env) (st : loopState) (el : element) : outcome loopState :=
  let skip := {| visited := S (visited st); foundUrls := foundUrls st; cartoons := cartoons st |} in
  match attr_src el with
  | Some imgSrc =>
      if negb (imgSrc =? "")%string && JS.includes "wp-content/uploads" imgSrc
         && negb (has (foundUrls st) imgSrc)
      then
        fullUrl <- fullUrlOf env imgSrc ;;
        if negb (isValidCartoonUrl fullUrl) then Returned skip
        else Returned {| visited := S (visited st);
                         foundUrls := fullUrl :: foundUrls st;
                         cartoons := cartoons st ++ [newCartoon env (visited st) el fullUrl] |}
      else Returned skip
  | None => Returned skip
  end.

Fixpoint foldM {S A : Type} (f : S -> A -> outcome S) (st : S) (l : list A) : outcome S :=
  match l with
  | [] => Returned st
  | a :: l' => st' <- f st a ;; foldM f st' l'
  end.

(** The loops over the selectors and over the elements each one matches. *)
Definition collect {Eng : Engine} (env : Env) (html : value) : outcome loopState :=
  foldM (fun st selector => foldM (visit env) st (cheerio_load env html selector))
    {| visited := 0%nat; foundUrls := []; cartoons := [] |} selectors.

(** The body of the [try] block of [scrapeCartoons]. *)
Definition scrapeLive {Eng : Engine} (env : Env) : outcome (list cartoon) :=
  response <- fetchWithRetry env 1 ;;
  st <- collect env (data response) ;;
  let uniqueCartoons := removeDuplicates (cartoons st) in
  Returned (sort byDateDesc uniqueCartoons).

Definition scrapeCartoons {Eng : Engine} (env : Env) : outcome (list cartoon) :=
  try_catch (scrapeLive env) (fun error => Returned (getDemoData env)).

(** ** The feed renderer: the text interpolated into one [<item>]

    [generateRSS] reads the title, the address and the description of a
    cartoon only as arguments of [escapeXml]; these are its fourteen
    calls, in the order of the template. *)

Record item : Type := {
  item_title : value;
  item_url : value;
  item_description : value
}.

Definition itemTexts (c : item) : list value :=
  [ item_title c; item_url c; item_description c;
    item_url c; item_title c;
    item_title c; item_url c; item_title c; item_description c;
    item_url c; item_url c; item_url c; item_title c; item_description c ].

Definition renderItemTexts (c : item) : outcome (list string) :=
  mapM escapeXml (itemTexts c).

(** ** [fetchWithRetry] with its requests and waits

    The same function, returning also what it does on the way: the
    requests it sends and the delays it passes to [delay], in order. *)

Definition retryDelay : Z := 2000.

Inductive event : Type :=
| Request (attempt : nat)
| Wait (ms : Z).

Fixpoint fetchWithRetryTrace (left : nat) (env : Env) (attempt : nat)
  : outcome response * list event :=
  match attemptOnce env attempt with
  | Returned response => (Returned response, [Request attempt])
  | Thrown error =>
      if (attempt <? maxRetries)%nat
      then match left with
           | S left' =>
               let '(result, events) := fetchWithRetryTrace left' env (S attempt) in
               (result, Request attempt :: Wait (retryDelay * Z.of_nat attempt) :: events)
           | O => (Thrown error, [Request attempt])
           end
      else (Thrown error, [Request attempt])
  end.

(** ** The command line and the constructor *)

(** The object [options] the arguments are parsed into. *)
Record options : Type := {
  opt_verbose : bool;                 (* options.verbose, absent is false *)
  opt_outputFile : option string      (* options.outputFile *)
}.

(** What the loop over the arguments ends in: [process.exit] or the
    options given to the constructor. *)
Inductive cli : Type :=
| Exits (code : Z)
| Runs (o : options).

Fixpoint parseArgs (o : options) (args : list string) : cli :=
  match args with
  | [] => Runs o
  | arg :: rest =>
      if (arg =? "--verbose")%string || (arg =? "-v")%string
      then parseArgs {| opt_verbose := true; opt_outputFile := opt_outputFile o |} rest
      else if JS.startsWith "--output=" arg
      then parseArgs {| opt_verbose := opt_verbose o;
                        opt_outputFile := nth_error (JS.split "=" arg) 1 |} rest
      else if (arg =? "--help")%string || (arg =? "-h")%string
      then Exits 0
      else parseArgs o rest
  end.

Definition noOptions : options := {| opt_verbose := false; opt_outputFile := None |}.

(** The fields the constructor sets from the options. *)
Record settings : Type := {
  outputFile : string;
  verbose : bool
}.

(** [options.outputFile || 'docs/feed.xml'] and [options.verbose || false] *)
Definition constructor (o : options) : settings :=
  {| outputFile :=
       match opt_outputFile o with
       | Some f => if (f =? "")%string then "docs/feed.xml" else f
       | None => "docs/feed.xml"
       end;
     verbose := opt_verbose o |}.

(** ** The channel of the feed: what [generateRSS] computes before the template *)

(** [cartoons.length > 0 ? cartoons[0].date : now], the date written as
    the [pubDate] of the channel. *)
Definition lastBuildDate (now : Date) (cartoons : list cartoon) : Date :=
  match cartoons with
  | c :: _ => date c
  | [] => now
  end.

(** [s.replace(pattern, replacement)] with a string for pattern: the first
    occurrence is replaced. *)
Fixpoint dropChars (n : nat) (s : string) : string :=
  match n, s with
  | S n', String _ s' => dropChars n' s'
  | _, _ => s
  end.

Fixpoint replaceFirst (pat rep s : string) : string :=
  if prefix pat s then rep ++ dropChars (length pat) s
  else match s with
       | EmptyString => EmptyString
       | String a s' => String a (replaceFirst pat rep s')
       end.

(** [s.replace(/\/([^\/]+)$/, '/$1')]: the match is the last slash with
    the text after it, when that text is not empty; it is replaced by a
    slash and the text of the group. *)
Fixpoint replaceLastSegment (s : string) : string :=
  match s with
  | EmptyString => EmptyString
  | String a s' =>
      if Ascii.eqb a "/" && negb (s' =? "")%string && negb (JS.existsb (Ascii.eqb "/") s')
      then "/" ++ s'
      else String a (replaceLastSegment s')
  end.

(** An environment variable: [undefined] and the empty string are falsy. *)
Definition truthy (v : option string) : option string :=
  match v with
  | Some s => if (s =? "")%string then None else Some s
  | None => None
  end.

Definition repoUrl (GITHUB_REPOSITORY : option string) : string :=
  match truthy GITHUB_REPOSITORY with
  | Some repository => "https://github.com/" ++ repository
  | None => "https://github.com/yourusername/evert-kwok-rss"
  end.

Definition pagesUrl (GITHUB_PAGES_URL GITHUB_REPOSITORY : option string) : string :=
  match truthy GITHUB_PAGES_URL with
  | Some u => u
  | None =>
      replaceLastSegment (replaceFirst "github.com" "github.io" (repoUrl GITHUB_REPOSITORY))
  end.

(** ** Notions used in the statements *)

(** What every engine does on ASCII text: the letters A to Z and a to z
    change case, every other character is kept. *)
Definition asciiCase (Eng : Engine) : Prop :=
  forall s, JS.forallb JS.isAscii s = true ->
    toLowerCase s = JS.map JS.toLowerChar s /\ toUpperCase s = JS.map JS.toUpperChar s.

(** An engine to run the examples with.  Its case mapping is that of the
    ASCII letters, which is all the examples need: their text is ASCII. *)
#[global] Instance asciiEngine : Engine :=
  {| toLowerCase := JS.map JS.toLowerChar;
     toUpperCase := JS.map JS.toUpperChar |}.

(** The entity of one character. *)
Definition entity (c : ascii) : string :=
  if Ascii.eqb c "&" then "&amp;"
  else if Ascii.eqb c "<" then "&lt;"
  else if Ascii.eqb c ">" then "&gt;"
  else if Ascii.eqb c quot then "&quot;"
  else if Ascii.eqb c "'" then "&apos;"
  else String c EmptyString.

(** Every character replaced by its entity, in one pass. *)
Fixpoint entities (s : string) : string :=
  match s with
  | EmptyString => EmptyString
  | String a s' => entity a ++ entities s'
  end.

(** An element with a [src] attribute and nothing else around it. *)
Definition bare (src : string) : element :=
  {| attr_src := Some src; attr_alt := None; attr_title := None;
     siblings_figcaption := ""; parent_siblings_caption := "";
     figure_figcaption := ""; block_figcaption := ""; caption_text := "";
     heading_text := ""; paragraph_text := "" |}.

Definition withAlt (alt : string) (el : element) : element :=
  {| attr_src := attr_src el; attr_alt := Some alt; attr_title := attr_title el;
     siblings_figcaption := siblings_figcaption el;
     parent_siblings_caption := parent_siblings_caption el;
     figure_figcaption := figure_figcaption el; block_figcaption := block_figcaption el;
     caption_text := caption_text el; heading_text := heading_text el;
     paragraph_text := paragraph_text el |}.

(** The same element inside a [figure] whose [figcaption] holds [text]. *)
Definition withCaption (text : string) (el : element) : element :=
  {| attr_src := attr_src el; attr_alt := attr_alt el; attr_title := attr_title el;
     siblings_figcaption := text;
     parent_siblings_caption := parent_siblings_caption el;
     figure_figcaption := text; block_figcaption := block_figcaption el;
     caption_text := caption_text el; heading_text := heading_text el;
     paragraph_text := paragraph_text el |}.

Fixpoint replicate (n : nat) (c : ascii) : string :=
  match n with
  | O => EmptyString
  | S n' => String c (replicate n' c)
  end.

(** An attribute that is missing or empty. *)
Definition blank (a : option string) : Prop := a = None \/ a = Some EmptyString.

(** No text at all around the element: no [alt], no [title], no caption
    and no heading, or empty ones. *)
Definition noTitleMetadata (el : element) : Prop :=
  blank (attr_alt el) /\ blank (attr_title el) /\
  JS.trim (siblings_figcaption el) = "" /\
  JS.trim (parent_siblings_caption el) = "" /\
  JS.trim (figure_figcaption el) = "" /\
  JS.trim (block_figcaption el) = "" /\
  JS.trim (caption_text el) = "" /\
  JS.trim (heading_text el) = "".

(** The words of a file name, as the spec has them.  A word ends at
    white space, at an underscore, at a hyphen, and between a lower-case
    letter and an upper-case letter that follows it. *)
Definition wordBreak (c : ascii) : bool :=
  JS.isSpace c || Ascii.eqb c "_" || Ascii.eqb c "-".

Fixpoint wordsBy (break : ascii -> bool) (s : string) : list string :=
  match s with
  | EmptyString => []
  | String a s' =>
      if break a then wordsBy break s'
      else match s' with
           | EmptyString => [String a EmptyString]
           | String b _ =>
               if break b || (JS.isLower a && JS.isUpper b)
               then String a EmptyString :: wordsBy break s'
               else match wordsBy break s' with
                    | w :: ws => String a w :: ws
                    | [] => [String a EmptyString]
                    end
           end
  end.

Definition words (name : string) : list string := wordsBy wordBreak name.

(** The words with one space between them. *)
Fixpoint joinWords (ws : list string) : string :=
  match ws with
  | [] => EmptyString
  | [w] => w
  | w :: ws' => w ++ String " " (joinWords ws')
  end.

(** The title the spec derives from a file name: the words of the name
    after its leading digits, joined by single spaces, the first
    character in upper case, cut to 50 characters; the generic label
    when nothing is left. *)
Definition titleOfName {Eng : Engine} (name : string) : string :=
  match joinWords (words (dropLeadingDigits name)) with
  | EmptyString => "Educational Cartoon"
  | String a rest =>
      let t := JS.substring0 50 (toUpperCase (String a EmptyString) ++ rest) in
      if (t =? "")%string then "Educational Cartoon" else t
  end.

(** The last character of the string is white space. *)
Fixpoint endsWithSpace (s : string) : bool :=
  match s with
  | EmptyString => false
  | String a EmptyString => JS.isSpace a
  | String _ s' => endsWithSpace s'
  end.

(** The words joined, with a space after them when the text they were
    taken from ends with white space. *)
Definition joinedWith (ws : list string) (trailing : bool) : string :=
  match ws with
  | [] => EmptyString
  | _ => joinWords ws ++ (if trailing then " " else "")
  end.

(** The number of days of a month (0 is January). *)
Definition daysInMonth (year month : Z) : Z :=
  if month =? 1 then (if Cal.isLeap year then 29 else 28)
  else if month =? 3 then 30
  else if month =? 5 then 30
  else if month =? 8 then 30
  else if month =? 10 then 30
  else 31.

(** A year, a month (0 is January) and a day that make a date of the
    calendar which [extractDateFromUrl] takes: the year from 2000 to the
    year after the current one, the day one that the month has. *)
Definition validDate (now : Date) (year month day : Z) : Prop :=
  2000 <= year <= getFullYear now + 1 /\ 0 <= month <= 11 /\
  1 <= day <= daysInMonth year month.

(** The first pattern of the source: the full date in the path. *)
Definition fullDatePattern : pattern :=
  {| regex := [Re.Lit "/"; Re.Digits 4; Re.Lit "/"; Re.Digits 2; Re.Lit "/"; Re.Digits 2; Re.Lit "/"];
     fmt := ymd; specificity := 3 |}.

(** A processing time: noon of 2 November 2026. *)
Definition november2026 : Date := newDate 2026 10 2 + 12 * 3600000.

(** The items of a list with a given key, in the order of the list. *)
Definition withKey {A : Type} (key : A -> Z) (k : Z) (l : list A) : list A :=
  List.filter (fun a => key a =? k) l.

(** Another processing time: noon of 31 December 2026. *)
Definition lastOfDecember2026 : Date := newDate 2026 11 31 + 12 * 3600000.

(** A run on 31 December 2026 in which every request fails. *)
Definition offlineEnv : Env :=
  {| axios_get := fun _ => Thrown (NetworkError "timeout of 15000ms exceeded");
     cheerio_load := fun _ _ => [];
     resolveUrl := fun _ => Thrown (TypeError "Invalid URL");
     clock := fun _ => lastOfDecember2026;
     demoClock := fun _ => lastOfDecember2026;
     roll := fun _ => 14 |}.

(** The elements the two loops visit, in the order they visit them. *)
Definition pooled (env : Env) (html : value) : list element :=
  flat_map (cheerio_load env html) selectors.

(** The cartoon the [n]-th visited element stands for, when its address
    holds the uploads marker, resolves, and is not excluded; whether the
    address was met before plays no part. *)
Definition candidate {Eng : Engine} (env : Env) (n : nat) (el : element) : option cartoon :=
  match attr_src el with
  | Some imgSrc =>
      if negb (imgSrc =? "")%string && JS.includes "wp-content/uploads" imgSrc
      then match fullUrlOf env imgSrc with
           | Returned fullUrl =>
               if isValidCartoonUrl fullUrl then Some (newCartoon env n el fullUrl) else None
           | Thrown _ => None
           end
      else None
  | None => None
  end.

Fixpoint discoveredFrom {Eng : Engine} (env : Env) (n : nat) (els : list element) : list cartoon :=
  match els with
  | [] => []
  | el :: els' =>
      match candidate env n el with
      | Some c => c :: discoveredFrom env (S n) els'
      | None => discoveredFrom env (S n) els'
      end
  end.

(** All the candidates of a page, in the order of discovery. *)
Definition discovered {Eng : Engine} (env : Env) (html : value) : list cartoon :=
  discoveredFrom env 0%nat (pooled env html).

(** The full address of an [src], as the scraper takes it: the [src]
    itself when it starts with http, what [new URL] makes of it
    otherwise. *)
Definition fullAddress (env : Env) (src full : string) : Prop :=
  (JS.startsWith "http" src = true /\ full = src) \/
  (JS.startsWith "http" src = false /\ resolveUrl env src = Returned full).

(** Resolving is idempotent: an address that [new URL] has written
    resolves to itself. *)
Definition resolveIdempotent (env : Env) : Prop :=
  forall s f, resolveUrl env s = Returned f -> resolveUrl env f = Returned f.

(** A run in which the second request succeeds.  The page holds the same
    picture under a relative and under an absolute address, the relative
    one twice, and two more pictures; the selector for figures finds two
    of the elements again. *)
Definition samplePage : list element :=
  [ withAlt "Schrodinger's cat" (bare "/wp-content/uploads/2021/03/cat.jpg");
    withAlt "The same cat" (bare "https://www.evertkwok.nl/wp-content/uploads/2021/03/cat.jpg");
    bare "/wp-content/uploads/2021/03/dog.jpg";
    bare "/wp-content/uploads/2022/05/pi.jpg";
    withAlt "The cat again" (bare "/wp-content/uploads/2021/03/cat.jpg") ].

Definition sampleEnv : Env :=
  {| axios_get := fun attempt =>
       if (attempt =? 2)%nat then Returned {| data := VStr "<html>" |}
       else Thrown (NetworkError "timeout of 15000ms exceeded");
     cheerio_load := fun _ selector =>
       if (selector =? "figure img")%string
       then [ withAlt "Schrodinger's cat" (bare "/wp-content/uploads/2021/03/cat.jpg");
              bare "/wp-content/uploads/2022/05/pi.jpg" ]
       else if prefix "img[src" selector then samplePage
       else [];
     resolveUrl := fun src =>
       if prefix "https://" src then Returned src
       else Returned ("https://www.evertkwok.nl" ++ src);
     clock := fun n => november2026 + Z.of_nat n;
     demoClock := fun n => november2026 + Z.of_nat n;
     roll := fun n => Z.of_nat n |}.

(** A run in which the page is fetched and an address on it is refused
    by [new URL]. *)
Definition brokenPageEnv : Env :=
  {| axios_get := fun _ => Returned {| data := VStr "<html>" |};
     cheerio_load := fun _ _ => [ bare "//bad host/wp-content/uploads/2021/03/cat.jpg" ];
     resolveUrl := fun _ => Thrown (TypeError "Invalid URL");
     clock := fun _ => november2026;
     demoClock := fun _ => november2026;
     roll := fun _ => 0 |}.

(** A run whose page holds one picture twice: under a relative address,
    and under an absolute address that names the default port.  [new URL]
    gives the same address for both. *)
Definition portEnv : Env :=
  {| axios_get := fun _ => Returned {| data := VStr "<html>" |};
     cheerio_load := fun _ selector =>
       if prefix "img[src" selector
       then [ bare "/wp-content/uploads/2021/03/cat.jpg";
              bare "https://www.evertkwok.nl:443/wp-content/uploads/2021/03/cat.jpg" ]
       else [];
     resolveUrl := fun src =>
       if prefix "https://www.evertkwok.nl:443/" src
       then Returned ("https://www.evertkwok.nl/" ++ dropChars 29 src)
       else if prefix "https://" src then Returned src
       else if prefix "/" src then Returned ("https://www.evertkwok.nl" ++ src)
       else Returned ("https://www.evertkwok.nl/cartoon/" ++ src);
     clock := fun _ => november2026;
     demoClock := fun _ => november2026;
     roll := fun _ => 0 |}.

(** A run in which the first request is answered without a body and the
    second one with the page. *)
Definition noBodyEnv : Env :=
  {| axios_get := fun attempt =>
       if (attempt =? 1)%nat then Returned {| data := VNull |}
       else Returned {| data := VStr "<html>" |};
     cheerio_load := fun _ _ => [ bare "/wp-content/uploads/2021/03/cat.jpg" ];
     resolveUrl := fun src => Returned ("https://www.evertkwok.nl" ++ src);
     clock := fun _ => november2026;
     demoClock := fun _ => november2026;
     roll := fun _ => 0 |}.

(** What a computation returned, or a default if it threw. *)
Definition returnedOr {A : Type} (d : A) (m : outcome A) : A :=
  match m with
  | Returned a => a
  | Thrown _ => d
  end.

Definition initialState : loopState :=
  {| visited := 0%nat; foundUrls := []; cartoons := [] |}.

(** What holds of [foundUrls] throughout the loops: its members are
    addresses of collected cartoons, and they resolve to themselves. *)
Definition loopInvariant (env : Env) (st : loopState) : Prop :=
  forall u, has (foundUrls st) u = true ->
    In u (map url (cartoons st)) /\ fullUrlOf env u = Returned u.

(** A run whose page holds two pictures without a date in their
    address; the clock advances by a millisecond between them. *)
Definition undatedEnv : Env :=
  {| axios_get := fun _ => Returned {| data := VStr "<html>" |};
     cheerio_load := fun _ selector =>
       if prefix "img[src" selector
       then [ bare "/wp-content/uploads/first.jpg"; bare "/wp-content/uploads/second.jpg" ]
       else [];
     resolveUrl := fun src => Returned ("https://www.evertkwok.nl" ++ src);
     clock := fun n => november2026 + Z.of_nat n;
     demoClock := fun _ => november2026;
     roll := fun _ => 0 |}.

(** The five characters that [escapeXml] replaces. *)
Definition special (c : ascii) : bool :=
  Ascii.eqb c "&" || Ascii.eqb c "<" || Ascii.eqb c ">" || Ascii.eqb c quot || Ascii.eqb c "'".

(** The string starts with one of the five entities. *)
Definition entityAt (s : string) : bool :=
  prefix "&amp;" s || prefix "&lt;" s || prefix "&gt;" s || prefix "&quot;" s ||
  prefix "&apos;" s.

(** Every ampersand of the string starts an entity. *)
Fixpoint onlyEntities (s : string) : bool :=
  match s with
  | EmptyString => true
  | String a s' => (if Ascii.eqb a "&" then entityAt s else true) && onlyEntities s'
  end.

(** The characters a cleaned title is made of: letters, digits, the
    underscore, the space and the five punctuation marks. *)
Definition titleChar (c : ascii) : bool :=
  JS.isWord c || Ascii.eqb c " " || Ascii.eqb c "-" || Ascii.eqb c "." ||
  Ascii.eqb c "," || Ascii.eqb c "!" || Ascii.eqb c "?".

(** A run whose page holds one picture from outside the uploads folder. *)
Definition plainPageEnv : Env :=
  {| axios_get := fun _ => Returned {| data := VStr "<html>" |};
     cheerio_load := fun _ _ => [ bare "/assets/portrait.jpg" ];
     resolveUrl := fun src => Returned src;
     clock := fun _ => november2026;
     demoClock := fun _ => november2026;
     roll := fun _ => 0 |}.

(** Neither an underscore nor a hyphen. *)
Definition notSeparator (c : ascii) : bool := negb (Ascii.eqb c "_" || Ascii.eqb c "-").

(** A digit replaced by the digit 0, any other character kept. *)
Definition zeroDigits (c : ascii) : ascii := if JS.isDigit c then "0"%char else c.

(** The literal characters of the pieces are not digits. *)
Definition literalsNotDigits (ps : list Re.piece) : Prop :=
  Forall (fun p => match p with Re.Lit c => JS.isDigit c = false | _ => True end) ps.

(** No match of the pieces starts within [pre] in the string [pre ++ s]. *)
Fixpoint noMatchWithin (ps : list Re.piece) (pre s : string) : Prop :=
  match pre with
  | EmptyString => True
  | String a pre' => Re.matchHere ps (pre ++ s) = None /\ noMatchWithin ps pre' s
  end.

(** The result of the command line when the scraper is run, or the
    options without any argument when the process exits. *)
Definition optionsOf (c : cli) : options :=
  match c with
  | Runs o => o
  | Exits _ => noOptions
  end.

(** The folder of the uploads, and the address of a file in the folder
    of a year and a month. *)
Definition uploadsFolder : string := "https://www.evertkwok.nl/wp-content/uploads".

Definition uploadUrl (year month file : string) : string :=
  uploadsFolder ++ String "/" (year ++ String "/" (month ++ String "/" file)).

(** The five patterns of specificity 3, in the order they are tried. *)
Definition dayPatterns : list pattern := firstn 5 sortedPatterns.

(** The pattern for a year and a month in the path. *)
Definition monthPattern : pattern := nth 1 patterns fullDatePattern.

(** The number of digits of a string, and the number of digits a match
    of the pieces must hold. *)
Fixpoint digitCount (s : string) : nat :=
  match s with
  | EmptyString => 0
  | String a s' => (if JS.isDigit a then 1 else 0) + digitCount s'
  end.

Fixpoint digitsNeeded (ps : list Re.piece) : nat :=
  match ps with
  | [] => 0
  | Re.Digits n :: ps' => n + digitsNeeded ps'
  | _ :: ps' => digitsNeeded ps'
  end.

(** A demo entry to fall back on where a list needs a default. *)
Definition noDemo : demo :=
  {| demo_title := ""; demo_description := ""; demo_filename := ""; monthsAgo := 0 |}.

(** * Properties *)

(** ** Strings *)

Lemma length_app (s t : string) : length (s ++ t) = (length s + length t)%nat.
Proof.
  induction s as [|a s IH]; simpl; [reflexivity | now rewrite IH].
Qed.

Lemma includes_cons (p : string) (a : ascii) (s : string) :
  JS.includes p (String a s) = prefix p (String a s) || JS.includes p s.
Proof. reflexivity. Qed.

Lemma includes_char (c : ascii) (s : string) :
  JS.includes (String c EmptyString) s = JS.existsb (Ascii.eqb c) s.
Proof.
  induction s as [|a s IH].
  - reflexivity.
  - rewrite includes_cons, IH. simpl.
    destruct (ascii_dec c a) as [->|Hne].
    + rewrite Ascii.eqb_refl. now destruct s.
    + apply Ascii.eqb_neq in Hne. now rewrite Hne.
Qed.

Lemma existsb_app (p : ascii -> bool) (s t : string) :
  JS.existsb p (s ++ t) = JS.existsb p s || JS.existsb p t.
Proof.
  induction s as [|a s IH]; simpl; [reflexivity|].
  now rewrite IH, orb_assoc.
Qed.

(** ** escapeXml *)

Lemma escapeXmlString_cons (a : ascii) (s : string) :
  escapeXmlString (String a s) = entity a ++ escapeXmlString s.
Proof.
  unfold escapeXmlString.
  destruct a as [[] [] [] [] [] [] [] []]; reflexivity.
Qed.

Lemma escapeXmlString_entities (s : string) : escapeXmlString s = entities s.
Proof.
  induction s as [|a s IH]; [reflexivity|].
  rewrite escapeXmlString_cons, IH. reflexivity.
Qed.

Lemma entity_length (a : ascii) : (1 <= length (entity a))%nat.
Proof.
  unfold entity.
  repeat match goal with |- context [if ?b then _ else _] => destruct b end; simpl; lia.
Qed.

Lemma entities_length (s : string) : (length s <= length (entities s))%nat.
Proof.
  induction s as [|a s IH]; simpl; [lia|].
  rewrite length_app. pose proof (entity_length a). lia.
Qed.

Lemma entities_amp_longer (s : string) :
  JS.existsb (Ascii.eqb "&") s = true -> (length s < length (entities s))%nat.
Proof.
  induction s as [|a s IH]; cbn [JS.existsb entities length]; [discriminate|].
  intros H. rewrite length_app.
  pose proof (entities_length s) as Hle.
  destruct (Ascii.eqb "&" a) eqn:Ea.
  - apply Ascii.eqb_eq in Ea. subst a. cbn. lia.
  - cbn [orb] in H. specialize (IH H). pose proof (entity_length a). lia.
Qed.

Lemma entities_amp_kept (s : string) :
  JS.existsb (Ascii.eqb "&") s = true -> JS.existsb (Ascii.eqb "&") (entities s) = true.
Proof.
  induction s as [|a s IH]; cbn [JS.existsb entities]; [discriminate|].
  intros H. rewrite existsb_app.
  destruct (Ascii.eqb "&" a) eqn:Ea.
  - apply Ascii.eqb_eq in Ea. subst a. reflexivity.
  - cbn [orb] in H. rewrite (IH H). apply orb_true_r.
Qed.

Lemma escapeXml_string (s : string) : escapeXml (VStr s) = Returned (entities s).
Proof.
  unfold escapeXml. simpl.
  destruct (String.eqb_spec s "") as [->|Hne]; [reflexivity|].
  simpl. now rewrite escapeXmlString_entities.
Qed.

(** C9. Escaping is not idempotent: on every string that contains ['&'],
    escaping the escaped string gives something else than escaping once;
    escaping ["&"] gives ["&amp;"] and escaping that gives ["&amp;amp;"].
    One application replaces each of the five special characters
    (ampersand, less-than, greater-than, double quote, apostrophe) by its
    entity and keeps every other character. *)
Theorem escapeXml_not_idempotent :
  (forall s, JS.includes "&" s = true ->
     exists t t', escapeXml (VStr s) = Returned t /\
                  escapeXml (VStr t) = Returned t' /\ t' <> t) /\
  escapeXml (VStr "&") = Returned "&amp;" /\
  (t <- escapeXml (VStr "&") ;; escapeXml (VStr t)) = Returned "&amp;amp;" /\
  (forall s, escapeXml (VStr s) = Returned (entities s)) /\
  entity "&" = "&amp;" /\ entity "<" = "&lt;" /\ entity ">" = "&gt;" /\
  entity quot = "&quot;" /\ entity "'" = "&apos;" /\
  (forall c, JS.existsb (Ascii.eqb c) (String "&" (String "<" (String ">" (String quot "'")))) = false ->
     entity c = String c EmptyString).
Proof.
  repeat split; try reflexivity.
  - intros s Hs. rewrite includes_char in Hs.
    exists (entities s), (entities (entities s)).
    rewrite !escapeXml_string. repeat split.
    intros Heq. apply entities_amp_kept in Hs.
    apply entities_amp_longer in Hs. rewrite Heq in Hs. lia.
  - apply escapeXml_string.
  - intros c Hc. cbn [JS.existsb] in Hc. unfold entity.
    repeat (apply orb_false_elim in Hc; destruct Hc as [E Hc]; rewrite E; clear E).
    reflexivity.
Qed.

(** The hypothesis of C9 at the string ["a&b"]. *)
Lemma escapeXml_not_idempotent_witness :
  exists t t', escapeXml (VStr "a&b") = Returned t /\
               escapeXml (VStr t) = Returned t' /\ t' <> t.
Proof.
  apply (proj1 escapeXml_not_idempotent "a&b"). reflexivity.
Defined.

Lemma mapM_total {A B : Type} (f : A -> outcome B) (l : list A) :
  (forall a, In a l -> exists b, f a = Returned b) -> exists bs, mapM f l = Returned bs.
Proof.
  induction l as [|a l IH]; intros H; simpl.
  - now exists [].
  - destruct (H a (or_introl eq_refl)) as [b ->].
    destruct IH as [bs ->]; [intros; apply H; now right|].
    now exists (b :: bs).
Qed.

(** C10. [escapeXml] returns the empty string on [null], on [undefined]
    and on the empty string, and it never throws; so the texts of an
    item are rendered whatever is missing among its title, its address
    and its description. *)
Theorem escapeXml_total_on_missing :
  escapeXml VNull = Returned "" /\
  escapeXml VUndefined = Returned "" /\
  escapeXml (VStr "") = Returned "" /\
  (forall v, exists s, escapeXml v = Returned s) /\
  (forall c, exists texts, renderItemTexts c = Returned texts /\ List.length texts = 14%nat) /\
  renderItemTexts {| item_title := VUndefined; item_url := VNull; item_description := VStr "" |}
    = Returned (repeat "" 14).
Proof.
  assert (Htot : forall v, exists s, escapeXml v = Returned s).
  { intros [| |s]; [now exists "" | now exists "" |].
    exists (entities s). apply escapeXml_string. }
  repeat split; try reflexivity; [exact Htot|].
  intros c. unfold renderItemTexts, itemTexts. simpl.
  destruct (Htot (item_title c)) as [t ->].
  destruct (Htot (item_url c)) as [u ->].
  destruct (Htot (item_description c)) as [d ->].
  simpl. eexists. split; reflexivity.
Qed.

(** ** Lengths *)

Lemma substring0_length_le (n : nat) (s : string) :
  (length (JS.substring0 n s) <= n)%nat /\ (length (JS.substring0 n s) <= length s)%nat.
Proof.
  unfold JS.substring0. revert s.
  induction n as [|n IH]; intros [|a s]; simpl; try lia.
  destruct (IH s). lia.
Qed.

Lemma substring0_all (n : nat) (s : string) :
  (length s <= n)%nat -> JS.substring0 n s = s.
Proof.
  unfold JS.substring0. revert s.
  induction n as [|n IH]; intros [|a s]; simpl; intros H; try reflexivity; try lia.
  f_equal. apply IH. lia.
Qed.

Lemma substring0_length_eq (n : nat) (s : string) :
  (n <= length s)%nat -> length (JS.substring0 n s) = n.
Proof.
  unfold JS.substring0. revert s.
  induction n as [|n IH]; intros [|a s]; simpl; intros H; try reflexivity; try lia.
  f_equal. apply IH. lia.
Qed.

Lemma map_length (f : ascii -> ascii) (s : string) : length (JS.map f s) = length s.
Proof. induction s as [|a s IH]; simpl; congruence. Qed.

Lemma filter_length (p : ascii -> bool) (s : string) :
  (length (JS.filter p s) <= length s)%nat.
Proof. induction s as [|a s IH]; simpl; [lia|]. destruct (p a); simpl; lia. Qed.

Lemma collapseSpaces_length (b : bool) (s : string) :
  (length (JS.collapseSpaces b s) <= length s)%nat.
Proof.
  revert b. induction s as [|a s IH]; intros b; simpl; [lia|].
  destruct (JS.isSpace a); [destruct b|]; simpl;
    try (specialize (IH true); lia); specialize (IH false); lia.
Qed.

Lemma trimStart_length (s : string) : (length (JS.trimStart s) <= length s)%nat.
Proof. induction s as [|a s IH]; simpl; [lia|]. destruct (JS.isSpace a); simpl; lia. Qed.

Lemma trimEnd_length (s : string) : (length (JS.trimEnd s) <= length s)%nat.
Proof.
  induction s as [|a s IH]; simpl; [lia|].
  destruct (JS.isSpace a && (JS.trimEnd s =? "")%string); simpl; lia.
Qed.

Lemma trim_length (s : string) : (length (JS.trim s) <= length s)%nat.
Proof.
  unfold JS.trim. pose proof (trimEnd_length (JS.trimStart s)).
  pose proof (trimStart_length s). lia.
Qed.

Lemma cleanTitle_length (t : string) :
  (length (cleanTitle t) <= 80)%nat /\ (length (cleanTitle t) <= length t)%nat.
Proof.
  unfold cleanTitle.
  destruct (substring0_length_le 80
              (JS.trim (JS.filter keptInTitle (JS.collapseSpaces false t)))) as [H1 H2].
  split; [exact H1|].
  pose proof (trim_length (JS.filter keptInTitle (JS.collapseSpaces false t))).
  pose proof (filter_length keptInTitle (JS.collapseSpaces false t)).
  pose proof (collapseSpaces_length false t). lia.
Qed.

Lemma nonempty_length (s : string) : s <> "" -> (1 <= length s)%nat.
Proof. destruct s; [congruence | simpl; lia]. Qed.

Lemma generateTitleFromUrl_length {Eng : Engine} (u : option string) :
  (1 <= length (generateTitleFromUrl u) <= 50)%nat.
Proof.
  unfold generateTitleFromUrl.
  destruct u as [u|]; [|simpl; lia].
  destruct (u =? "")%string; [simpl; lia|].
  match goal with |- context [JS.substring0 50 ?x] => set (t := JS.substring0 50 x) end.
  destruct (String.eqb_spec t "") as [Et|Et]; [simpl; lia|].
  split; [now apply nonempty_length | apply substring0_length_le].
Qed.

Lemma titleAccepted_length {Eng : Engine} (c : string) :
  titleAccepted c = true -> (4 <= length c <= 99)%nat.
Proof.
  unfold titleAccepted. intros H.
  do 3 (apply andb_prop in H; destruct H as [H _]).
  apply andb_prop in H. destruct H as [H1 H2].
  apply Nat.ltb_lt in H1. apply Nat.ltb_lt in H2. lia.
Qed.

Lemma extractTitle_length_bound {Eng : Engine} (el : element) :
  (length (extractTitle el) <= 80)%nat /\
  (find titleAccepted (titleCandidates el) = None ->
     (1 <= length (extractTitle el) <= 50)%nat).
Proof.
  unfold extractTitle.
  destruct (find titleAccepted (titleCandidates el)) as [c|].
  - split; [apply cleanTitle_length | discriminate].
  - pose proof (generateTitleFromUrl_length (attr_src el)).
    split; [lia | intros _; lia].
Qed.

(** C6 (amended). A title has at most 80 characters.  A title taken from
    the page comes from a candidate of 4 to 99 characters; cleaning can
    only make it shorter, and a candidate that cleaning leaves as it is
    gives a title of 4 characters or more.  A title made from the file
    name has 1 to 50 characters. *)
Theorem extractTitle_length {Eng : Engine} (el : element) :
  (length (extractTitle el) <= 80)%nat /\
  (forall c, find titleAccepted (titleCandidates el) = Some c ->
     (4 <= length c <= 99)%nat /\ extractTitle el = cleanTitle c /\
     (length (cleanTitle c) <= length c)%nat /\
     (cleanTitle c = c -> (4 <= length (extractTitle el))%nat)) /\
  (find titleAccepted (titleCandidates el) = None ->
     (1 <= length (extractTitle el) <= 50)%nat).
Proof.
  unfold extractTitle.
  destruct (find titleAccepted (titleCandidates el)) as [c|] eqn:Hf.
  - split; [apply cleanTitle_length|]. split; [|discriminate].
    intros c' [= <-]. apply find_some in Hf. destruct Hf as [_ Hacc].
    apply titleAccepted_length in Hacc.
    split; [exact Hacc|]. split; [reflexivity|]. split; [apply cleanTitle_length|].
    intros ->. lia.
  - pose proof (generateTitleFromUrl_length (attr_src el)).
    split; [lia|]. split; [discriminate | intros _; lia].
Qed.

(** The hypotheses of C6 at an element with an [alt] text, and at one
    with nothing but its address. *)
Lemma extractTitle_length_witness :
  ((4 <= length "Pi and tau" <= 99)%nat /\
   extractTitle (withAlt "Pi and tau" (bare "/wp-content/uploads/2019/07/cat.jpg"))
     = cleanTitle "Pi and tau" /\
   (length (cleanTitle "Pi and tau") <= length "Pi and tau")%nat /\
   (cleanTitle "Pi and tau" = "Pi and tau" ->
    (4 <= length (extractTitle (withAlt "Pi and tau"
                                  (bare "/wp-content/uploads/2019/07/cat.jpg"))))%nat)) /\
  (1 <= length (extractTitle (bare "/wp-content/uploads/2019/07/cat.jpg")) <= 50)%nat.
Proof.
  split.
  - apply (proj1 (proj2 (extractTitle_length
             (withAlt "Pi and tau" (bare "/wp-content/uploads/2019/07/cat.jpg"))))).
    reflexivity.
  - apply (proj2 (proj2 (extractTitle_length (bare "/wp-content/uploads/2019/07/cat.jpg")))).
    reflexivity.
Defined.

(** C6 as stated fails: the title made from the file name cat.jpg has
    three characters. *)
Lemma extractTitle_short_name :
  find titleAccepted (titleCandidates (bare "/wp-content/uploads/2019/07/cat.jpg")) = None /\
  extractTitle (bare "/wp-content/uploads/2019/07/cat.jpg") = "Cat" /\
  ~ (4 <= length (extractTitle (bare "/wp-content/uploads/2019/07/cat.jpg")) <= 80)%nat.
Proof.
  split; [reflexivity|]. split; [reflexivity|]. vm_compute. lia.
Qed.

(** ** The characters of a string *)

Lemma forallb_impl (p q : ascii -> bool) (s : string) :
  (forall c, p c = true -> q c = true) -> JS.forallb p s = true -> JS.forallb q s = true.
Proof.
  intros Hpq. induction s as [|a s IH]; [reflexivity|].
  cbn [JS.forallb]. intros H. apply andb_prop in H. destruct H as [Ha Hs].
  now rewrite (Hpq a Ha), (IH Hs).
Qed.

Lemma forallb_app (p : ascii -> bool) (s t : string) :
  JS.forallb p (s ++ t) = JS.forallb p s && JS.forallb p t.
Proof.
  induction s as [|a s IH]; [reflexivity|].
  cbn [append JS.forallb]. now rewrite IH, andb_assoc.
Qed.

Lemma forallb_filter_keeps (p q : ascii -> bool) (s : string) :
  JS.forallb q s = true -> JS.forallb (fun c => p c && q c) (JS.filter p s) = true.
Proof.
  induction s as [|a s IH]; [reflexivity|].
  cbn [JS.forallb JS.filter]. intros H. apply andb_prop in H. destruct H as [Ha Hs].
  destruct (p a) eqn:Hp; [|now apply IH].
  cbn [JS.forallb]. now rewrite Hp, Ha, (IH Hs).
Qed.

Lemma forallb_trimStart (p : ascii -> bool) (s : string) :
  JS.forallb p s = true -> JS.forallb p (JS.trimStart s) = true.
Proof.
  induction s as [|a s IH]; [reflexivity|].
  intros H. cbn [JS.trimStart]. destruct (JS.isSpace a); [|exact H].
  cbn [JS.forallb] in H. apply andb_prop in H. now apply IH.
Qed.

Lemma forallb_trimEnd (p : ascii -> bool) (s : string) :
  JS.forallb p s = true -> JS.forallb p (JS.trimEnd s) = true.
Proof.
  induction s as [|a s IH]; [reflexivity|].
  cbn [JS.forallb JS.trimEnd]. intros H. apply andb_prop in H. destruct H as [Ha Hs].
  destruct (JS.isSpace a && (JS.trimEnd s =? "")%string); [reflexivity|].
  cbn [JS.forallb]. now rewrite Ha, (IH Hs).
Qed.

Lemma forallb_substring0 (p : ascii -> bool) (n : nat) (s : string) :
  JS.forallb p s = true -> JS.forallb p (JS.substring0 n s) = true.
Proof.
  unfold JS.substring0. revert s.
  induction n as [|n IH]; intros [|a s]; cbn [substring JS.forallb]; try reflexivity.
  intros H. apply andb_prop in H. destruct H as [Ha Hs]. now rewrite Ha, (IH s Hs).
Qed.

Lemma collapseSpaces_spaces (b : bool) (s : string) :
  JS.forallb (fun c => negb (JS.isSpace c) || Ascii.eqb c " ") (JS.collapseSpaces b s) = true.
Proof.
  revert b. induction s as [|a s IH]; intros b; [reflexivity|].
  cbn [JS.collapseSpaces]. destruct (JS.isSpace a) eqn:Ha.
  - destruct b; [apply IH|]. cbn [JS.forallb]. rewrite IH. reflexivity.
  - cbn [JS.forallb]. rewrite Ha, IH. reflexivity.
Qed.

Lemma kept_is_titleChar (c : ascii) :
  keptInTitle c && (negb (JS.isSpace c) || Ascii.eqb c " ") = true -> titleChar c = true.
Proof.
  unfold keptInTitle, titleChar.
  destruct (JS.isWord c); [reflexivity|].
  destruct (Ascii.eqb c " "); [reflexivity|].
  destruct (JS.isSpace c); [discriminate|].
  cbn [orb andb negb]. now rewrite andb_true_r.
Qed.

Lemma titleChar_not_special (c : ascii) : titleChar c = true -> special c = false.
Proof.
  destruct c as [[] [] [] [] [] [] [] []]; vm_compute; intros H;
    first [reflexivity | discriminate H].
Qed.

Lemma titleChar_ascii (c : ascii) : titleChar c = true -> JS.isAscii c = true.
Proof.
  destruct c as [[] [] [] [] [] [] [] []]; vm_compute; intros H;
    first [reflexivity | discriminate H].
Qed.

Lemma forallb_not_exists (p q : ascii -> bool) (s : string) :
  (forall c, p c = true -> q c = false) -> JS.forallb p s = true -> JS.existsb q s = false.
Proof.
  intros Hpq. induction s as [|a s IH]; [reflexivity|].
  cbn [JS.forallb JS.existsb]. intros H. apply andb_prop in H. destruct H as [Ha Hs].
  now rewrite (Hpq a Ha), (IH Hs).
Qed.

Lemma cleanTitle_chars (t : string) : JS.forallb titleChar (cleanTitle t) = true.
Proof.
  unfold cleanTitle, JS.trim.
  apply forallb_substring0, forallb_trimEnd, forallb_trimStart.
  apply (forallb_impl _ _ _ kept_is_titleChar).
  apply forallb_filter_keeps, collapseSpaces_spaces.
Qed.

(** A cleaned title is ASCII text. *)
Lemma cleanTitle_ascii (t : string) : JS.forallb JS.isAscii (cleanTitle t) = true.
Proof. apply (forallb_impl _ _ _ titleChar_ascii), cleanTitle_chars. Qed.

Lemma trimStart_head (s : string) (a : ascii) (r : string) :
  JS.trimStart s = String a r -> JS.isSpace a = false.
Proof.
  induction s as [|b s IH]; [discriminate|].
  cbn [JS.trimStart]. destruct (JS.isSpace b) eqn:Hb; [exact IH|].
  now intros [= <- _].
Qed.

Lemma trimEnd_head (s : string) (a : ascii) (r : string) :
  JS.trimEnd s = String a r -> exists r', s = String a r'.
Proof.
  destruct s as [|b s]; [discriminate|].
  cbn [JS.trimEnd]. destruct (JS.isSpace b && (JS.trimEnd s =? "")%string); [discriminate|].
  intros [= <- _]. now exists s.
Qed.

Lemma substring0_head (n : nat) (s : string) (a : ascii) (r : string) :
  JS.substring0 n s = String a r -> exists r', s = String a r'.
Proof.
  unfold JS.substring0. destruct n as [|n], s as [|b s]; cbn [substring]; try discriminate.
  intros [= <- _]. now exists s.
Qed.

(** On ASCII text the engine keeps the length of what it maps. *)
Lemma toLowerCase_ascii_length {Eng : Engine} (s : string) :
  asciiCase Eng -> JS.forallb JS.isAscii s = true -> length (toLowerCase s) = length s.
Proof.
  intros Hcase Hs. destruct (Hcase s Hs) as [-> _]. apply map_length.
Qed.

(** ** extractDescription *)

Lemma descriptionAccepted_length {Eng : Engine} (c : string) :
  descriptionAccepted c = true -> (11 <= length c <= 499)%nat.
Proof.
  unfold descriptionAccepted. intros H.
  do 2 (apply andb_prop in H; destruct H as [H _]).
  apply andb_prop in H. destruct H as [H1 H2].
  apply Nat.ltb_lt in H1. apply Nat.ltb_lt in H2. lia.
Qed.

Lemma template_length (t : string) :
  length ("Educational cartoon by Evert Kwok featuring " ++ t ++
          ". Making complex scientific and mathematical concepts accessible through visual humor and clever illustrations.")
  = (155 + length t)%nat.
Proof.
  rewrite !length_app.
  change (length "Educational cartoon by Evert Kwok featuring ") with 44%nat.
  change (length ". Making complex scientific and mathematical concepts accessible through visual humor and clever illustrations.")
    with 111%nat.
  lia.
Qed.

Lemma extractDescription_accepted {Eng : Engine} (el : element) (c : string) :
  find descriptionAccepted (descriptionCandidates el) = Some c ->
  (11 <= length c <= 499)%nat /\
  (11 <= length (extractDescription el) <= 203)%nat /\
  ((length c <= 200)%nat -> extractDescription el = c) /\
  ((200 < length c)%nat ->
     extractDescription el = JS.substring0 200 c ++ "..." /\
     length (extractDescription el) = 203%nat).
Proof.
  intros Hf. unfold extractDescription. rewrite Hf.
  apply find_some in Hf. destruct Hf as [_ Hacc].
  apply descriptionAccepted_length in Hacc.
  destruct (200 <? length c)%nat eqn:Hlong.
  - apply Nat.ltb_lt in Hlong.
    assert (Hlen : length (JS.substring0 200 c ++ "...") = 203%nat).
    { rewrite length_app, substring0_length_eq by lia. reflexivity. }
    split; [exact Hacc|]. split; [lia|]. split; [lia|]. intros _. now split.
  - apply Nat.ltb_ge in Hlong.
    assert (Heq : JS.substring0 200 c ++ "" = c).
    { rewrite substring0_all by lia. clear. induction c; simpl; congruence. }
    rewrite Heq. split; [exact Hacc|]. split; [lia|]. split; [reflexivity | lia].
Qed.

Lemma extractDescription_template {Eng : Engine} (el : element) :
  find descriptionAccepted (descriptionCandidates el) = None ->
  extractDescription el =
    "Educational cartoon by Evert Kwok featuring " ++ toLowerCase (extractTitle el) ++
    ". Making complex scientific and mathematical concepts accessible through visual humor and clever illustrations." /\
  length (extractDescription el) = (155 + length (toLowerCase (extractTitle el)))%nat.
Proof.
  intros Hf. unfold extractDescription. rewrite Hf.
  split; [reflexivity | apply template_length].
Qed.

(** C5 (amended). A description has at least 11 characters.  Text
    accepted from the page has 11 to 499 characters: up to 200 it is kept
    whole, beyond 200 it is cut to its first 200 characters and the three
    characters of the ellipsis are put after them, 203 in all.  Without
    accepted text the description is the fixed sentence, 155 characters,
    around the title in lower case.  That makes at most 235 characters
    when the title is ASCII, and a title taken from the page is; the
    engine alone decides how long another title is in lower case. *)
Theorem extractDescription_length {Eng : Engine} (el : element) :
  (11 <= length (extractDescription el))%nat /\
  (forall c, find descriptionAccepted (descriptionCandidates el) = Some c ->
     (11 <= length c <= 499)%nat /\
     (length (extractDescription el) <= 203)%nat /\
     ((length c <= 200)%nat -> extractDescription el = c) /\
     ((200 < length c)%nat ->
        extractDescription el = JS.substring0 200 c ++ "..." /\
        length (extractDescription el) = 203%nat)) /\
  (find descriptionAccepted (descriptionCandidates el) = None ->
     extractDescription el =
       "Educational cartoon by Evert Kwok featuring " ++ toLowerCase (extractTitle el) ++
       ". Making complex scientific and mathematical concepts accessible through visual humor and clever illustrations." /\
     length (extractDescription el) = (155 + length (toLowerCase (extractTitle el)))%nat /\
     (asciiCase Eng ->
      (JS.forallb JS.isAscii (extractTitle el) = true ->
       length (extractDescription el) = (155 + length (extractTitle el))%nat /\
       (length (extractDescription el) <= 235)%nat) /\
      (forall t, find titleAccepted (titleCandidates el) = Some t ->
       (length (extractDescription el) <= 235)%nat))).
Proof.
  destruct (find descriptionAccepted (descriptionCandidates el)) as [c|] eqn:Hf.
  - destruct (extractDescription_accepted el c Hf) as (Hc & Hd & Hshort & Hlong).
    split; [lia|]. split; [|discriminate].
    intros c' [= <-]. split; [exact Hc|]. split; [lia|]. now split.
  - destruct (extractDescription_template el Hf) as [Hd Hlen].
    split; [lia|]. split; [discriminate|]. intros _.
    split; [exact Hd|]. split; [exact Hlen|]. intros Hcase.
    assert (Hascii : JS.forallb JS.isAscii (extractTitle el) = true ->
                     length (extractDescription el) = (155 + length (extractTitle el))%nat /\
                     (length (extractDescription el) <= 235)%nat).
    { intros Ha. rewrite Hlen, (toLowerCase_ascii_length _ Hcase Ha).
      pose proof (proj1 (extractTitle_length_bound el)). lia. }
    split; [exact Hascii|].
    intros t Ht. apply Hascii. unfold extractTitle. rewrite Ht. apply cleanTitle_ascii.
Qed.

Lemma asciiEngine_case : asciiCase asciiEngine.
Proof. intros s _. split; reflexivity. Qed.

(** The hypotheses of C5 at a short caption, at a caption of 201
    characters and at an element without any text. *)
Lemma extractDescription_length_witness :
  extractDescription
    (withCaption "A cat in two states at once" (bare "/wp-content/uploads/2019/07/cat.jpg"))
    = "A cat in two states at once" /\
  length (extractDescription
            (withCaption (replicate 201 "a") (bare "/wp-content/uploads/2019/07/cat.jpg")))
    = 203%nat /\
  (length (extractDescription (bare "/wp-content/uploads/2019/07/cat.jpg"))
     = (155 + length (extractTitle (bare "/wp-content/uploads/2019/07/cat.jpg")))%nat /\
   (length (extractDescription (bare "/wp-content/uploads/2019/07/cat.jpg")) <= 235)%nat) /\
  (length (extractDescription
             (withAlt "Pi and tau" (bare "/wp-content/uploads/2019/07/cat.jpg"))) <= 235)%nat.
Proof.
  split; [|split; [|split]].
  - apply (proj1 (proj2 (proj2 (proj1 (proj2 (extractDescription_length (Eng := asciiEngine)
             (withCaption "A cat in two states at once"
                (bare "/wp-content/uploads/2019/07/cat.jpg"))))
             "A cat in two states at once" eq_refl)))).
    vm_compute. lia.
  - apply (proj2 (proj2 (proj2 (proj1 (proj2 (extractDescription_length (Eng := asciiEngine)
             (withCaption (replicate 201 "a")
                (bare "/wp-content/uploads/2019/07/cat.jpg"))))
             (replicate 201 "a") eq_refl)))).
    vm_compute. lia.
  - apply (proj1 (proj2 (proj2 (proj2 (proj2 (extractDescription_length (Eng := asciiEngine)
             (bare "/wp-content/uploads/2019/07/cat.jpg"))) eq_refl)) asciiEngine_case)).
    reflexivity.
  - apply (proj2 (proj2 (proj2 (proj2 (proj2 (extractDescription_length (Eng := asciiEngine)
             (withAlt "Pi and tau" (bare "/wp-content/uploads/2019/07/cat.jpg")))) eq_refl))
             asciiEngine_case) "Pi and tau").
    reflexivity.
Defined.

(** C5 as stated fails: a caption of 201 characters gives a description
    of 203 characters. *)
Lemma extractDescription_above_200 :
  ~ (11 <= length (extractDescription
                     (withCaption (replicate 201 "a")
                        (bare "/wp-content/uploads/2019/07/cat.jpg"))) <= 200)%nat.
Proof.
  vm_compute. lia.
Qed.

(** ** A title from the file name *)

Lemma split_nonempty (c : ascii) (s : string) : JS.split c s <> [].
Proof.
  induction s as [|a s IH]; simpl; [discriminate|].
  destruct (Ascii.eqb a c); [discriminate|].
  destruct (JS.split c s); [contradiction | discriminate].
Qed.

Lemma split_app_sep (c : ascii) (s t : string) :
  JS.split c (s ++ String c t) = (JS.split c s ++ JS.split c t)%list.
Proof.
  induction s as [|a s IH].
  - simpl. now rewrite Ascii.eqb_refl.
  - cbn [append JS.split]. rewrite IH.
    destruct (Ascii.eqb a c); [reflexivity|].
    pose proof (split_nonempty c s).
    destruct (JS.split c s); [contradiction | reflexivity].
Qed.

Lemma split_absent (c : ascii) (s : string) :
  JS.existsb (Ascii.eqb c) s = false -> JS.split c s = [s].
Proof.
  induction s as [|a s IH]; cbn [JS.existsb JS.split]; [reflexivity|].
  intros H. apply orb_false_elim in H. destruct H as [Ha Hs].
  rewrite Ascii.eqb_sym, Ha, (IH Hs). reflexivity.
Qed.

Lemma last_app_nonempty {A : Type} (l1 l2 : list A) (d : A) :
  l2 <> [] -> last (l1 ++ l2) d = last l2 d.
Proof.
  intros H. induction l1 as [|a l1 IH]; [reflexivity|].
  cbn [app last]. rewrite IH.
  destruct (l1 ++ l2)%list eqn:El; [|reflexivity].
  apply app_eq_nil in El. destruct El. contradiction.
Qed.

Lemma noTitleMetadata_candidates (el : element) :
  noTitleMetadata el -> titleCandidates el = [].
Proof.
  intros (Ha & Ht & H1 & H2 & H3 & H4 & H5 & H6).
  unfold titleCandidates. rewrite H1, H2, H3, H4, H5, H6.
  destruct Ha as [-> | ->], Ht as [-> | ->]; reflexivity.
Qed.

(** The file name the title is made from: the last segment of the
    address, up to its first dot. *)
Lemma generateTitleFromUrl_filename {Eng : Engine} (dir name ext : string) :
  JS.existsb (Ascii.eqb "/") name = false ->
  JS.existsb (Ascii.eqb ".") name = false ->
  JS.existsb (Ascii.eqb "/") ext = false ->
  generateTitleFromUrl (Some (dir ++ String "/" (name ++ String "." ext))) =
  let t := JS.substring0 50
             (capitalizeFirst
                (JS.trim (JS.collapseSpaces false
                   (spaceCamel (JS.map separatorToSpace (dropLeadingDigits name)))))) in
  if (t =? "")%string then "Educational Cartoon" else t.
Proof.
  intros Hn Hd He. unfold generateTitleFromUrl.
  assert (Hne : (dir ++ String "/" (name ++ String "." ext) =? "")%string = false).
  { apply String.eqb_neq. destruct dir; discriminate. }
  rewrite Hne, split_app_sep, last_app_nonempty by apply split_nonempty.
  rewrite (split_absent "/" (name ++ String "." ext)).
  - cbn [last]. rewrite split_app_sep, (split_absent "." name Hd). reflexivity.
  - rewrite existsb_app. cbn [JS.existsb]. rewrite Hn, He. reflexivity.
Qed.

(** *** The classes of characters *)

Lemma space_not_lower (c : ascii) : JS.isSpace c = true -> JS.isLower c = false.
Proof.
  destruct c as [[] [] [] [] [] [] [] []]; vm_compute; intros H;
    first [reflexivity | discriminate H].
Qed.

Lemma upper_not_lower (c : ascii) : JS.isUpper c = true -> JS.isLower c = false.
Proof.
  destruct c as [[] [] [] [] [] [] [] []]; vm_compute; intros H;
    first [reflexivity | discriminate H].
Qed.

Lemma upper_not_space (c : ascii) : JS.isUpper c = true -> JS.isSpace c = false.
Proof.
  destruct c as [[] [] [] [] [] [] [] []]; vm_compute; intros H;
    first [reflexivity | discriminate H].
Qed.

Lemma terminator_is_space (c : ascii) :
  JS.isSpace c = false ->
  Ascii.eqb c (ascii_of_nat 10) || Ascii.eqb c (ascii_of_nat 13) = false.
Proof.
  destruct c as [[] [] [] [] [] [] [] []]; vm_compute; intros H;
    first [reflexivity | discriminate H].
Qed.

Lemma separatorToSpace_space (c : ascii) : JS.isSpace (separatorToSpace c) = wordBreak c.
Proof. destruct c as [[] [] [] [] [] [] [] []]; reflexivity. Qed.

Lemma separatorToSpace_upper (c : ascii) : JS.isUpper (separatorToSpace c) = JS.isUpper c.
Proof. destruct c as [[] [] [] [] [] [] [] []]; reflexivity. Qed.

Lemma separatorToSpace_kept (c : ascii) : wordBreak c = false -> separatorToSpace c = c.
Proof.
  unfold wordBreak, separatorToSpace. intros H.
  apply orb_false_elim in H. destruct H as [H Hh].
  apply orb_false_elim in H. destruct H as [_ Hu]. now rewrite Hu, Hh.
Qed.

(** *** The words of a string *)

Lemma wordsBy_cons (break : ascii -> bool) (a : ascii) (s : string) :
  wordsBy break (String a s) =
  if break a then wordsBy break s
  else match s with
       | EmptyString => [String a EmptyString]
       | String b _ =>
           if break b || (JS.isLower a && JS.isUpper b)
           then String a EmptyString :: wordsBy break s
           else match wordsBy break s with
                | w :: ws => String a w :: ws
                | [] => [String a EmptyString]
                end
       end.
Proof. reflexivity. Qed.

Lemma wordsBy_nonempty (break : ascii -> bool) (a : ascii) (s : string) :
  break a = false -> wordsBy break (String a s) <> [].
Proof.
  intros Ha. rewrite wordsBy_cons, Ha.
  destruct s as [|b r]; [discriminate|].
  destruct (break b || (JS.isLower a && JS.isUpper b)); [discriminate|].
  destruct (wordsBy break (String b r)); discriminate.
Qed.

(** A word is not empty and holds no separator. *)
Lemma wordsBy_wellformed (break : ascii -> bool) (s : string) :
  Forall (fun w => w <> "" /\ JS.existsb break w = false) (wordsBy break s).
Proof.
  induction s as [|a s IH]; [constructor|].
  rewrite wordsBy_cons. destruct (break a) eqn:Ha; [exact IH|].
  assert (Hone : String a EmptyString <> "" /\ JS.existsb break (String a EmptyString) = false).
  { split; [discriminate|]. cbn [JS.existsb]. now rewrite Ha. }
  destruct s as [|b r]; [now repeat constructor|].
  destruct (break b || (JS.isLower a && JS.isUpper b)); [now constructor|].
  destruct (wordsBy break (String b r)) as [|w ws]; [now repeat constructor|].
  inversion IH as [|w' ws' [Hw Hb] Hws]; subst.
  constructor; [|exact Hws]. split; [discriminate|].
  cbn [JS.existsb]. now rewrite Ha, Hb.
Qed.

Lemma endsWithSpace_cons (a : ascii) (s : string) :
  s <> "" -> endsWithSpace (String a s) = endsWithSpace s.
Proof. destruct s; [contradiction | reflexivity]. Qed.

Lemma endsWithSpace_app (s t : string) :
  t <> "" -> endsWithSpace (s ++ t) = endsWithSpace t.
Proof.
  intros Ht. induction s as [|a s IH]; [reflexivity|].
  cbn [append]. rewrite endsWithSpace_cons; [exact IH|].
  destruct s; [exact Ht | discriminate].
Qed.

Lemma endsWithSpace_none (w : string) :
  JS.existsb JS.isSpace w = false -> endsWithSpace w = false.
Proof.
  induction w as [|a w IH]; [reflexivity|].
  cbn [JS.existsb]. intros H. apply orb_false_elim in H. destruct H as [Ha Hw].
  destruct w as [|b w]; [exact Ha|].
  rewrite endsWithSpace_cons by discriminate. now apply IH.
Qed.

Lemma wordsBy_nil_ends (s : string) :
  wordsBy JS.isSpace s = [] -> s <> "" -> endsWithSpace s = true.
Proof.
  induction s as [|a s IH]; [contradiction|].
  intros Hw _. destruct (JS.isSpace a) eqn:Ha.
  - rewrite wordsBy_cons, Ha in Hw.
    destruct s as [|b r]; [exact Ha|].
    rewrite endsWithSpace_cons by discriminate. apply IH; [exact Hw | discriminate].
  - now apply wordsBy_nonempty in Hw.
Qed.

Lemma joinWords_cons (w w' : string) (ws : list string) :
  joinWords (w :: w' :: ws) = w ++ String " " (joinWords (w' :: ws)).
Proof. reflexivity. Qed.

Lemma joinWords_head_cons (a : ascii) (w : string) (ws : list string) :
  joinWords (String a w :: ws) = String a (joinWords (w :: ws)) \/
  (w = "" /\ ws <> [] /\ joinWords (String a w :: ws) = String a (String " " (joinWords ws))).
Proof.
  destruct ws as [|w' ws]; [left; reflexivity|].
  destruct w as [|b w].
  - right. split; [reflexivity|]. split; [discriminate | reflexivity].
  - left. reflexivity.
Qed.

Lemma joinWords_nonempty (w : string) (ws : list string) :
  w <> "" -> joinWords (w :: ws) <> "".
Proof.
  intros Hw. destruct w as [|a w]; [contradiction|].
  destruct ws; discriminate.
Qed.

Lemma joinWords_ends (ws : list string) :
  Forall (fun w => w <> "" /\ JS.existsb JS.isSpace w = false) ws ->
  endsWithSpace (joinWords ws) = false.
Proof.
  induction 1 as [|w ws [Hw Hs] Hws IH]; [reflexivity|].
  destruct ws as [|w' ws]; [now apply endsWithSpace_none|].
  rewrite joinWords_cons, endsWithSpace_app by discriminate.
  inversion Hws as [|? ? [Hw' _] _]; subst.
  rewrite endsWithSpace_cons by now apply joinWords_nonempty.
  exact IH.
Qed.

(** The joined words start with the first character of the first word. *)
Lemma joinWords_first (ws : list string) :
  Forall (fun w => w <> "" /\ JS.existsb JS.isSpace w = false) ws ->
  ws <> [] ->
  exists a r, joinWords ws = String a r /\ JS.isSpace a = false.
Proof.
  intros Hws Hne. destruct ws as [|w ws]; [contradiction|].
  inversion Hws as [|? ? [Hw Hs] _]; subst.
  destruct w as [|a w]; [contradiction|].
  cbn [JS.existsb] in Hs. apply orb_false_elim in Hs. destruct Hs as [Ha _].
  destruct ws as [|w' ws]; [now exists a, w|].
  exists a, (w ++ String " " (joinWords (w' :: ws))). now split.
Qed.

(** *** White space at the ends *)

Lemma trimEnd_cons (a : ascii) (s : string) :
  JS.trimEnd (String a s) =
  if JS.isSpace a && (JS.trimEnd s =? "")%string then EmptyString
  else String a (JS.trimEnd s).
Proof. reflexivity. Qed.

Lemma trimEnd_app_space (s : string) : JS.trimEnd (s ++ " ") = JS.trimEnd s.
Proof.
  induction s as [|a s IH]; [reflexivity|].
  cbn [append]. now rewrite !trimEnd_cons, IH.
Qed.

Lemma trimEnd_id (s : string) : endsWithSpace s = false -> JS.trimEnd s = s.
Proof.
  induction s as [|a s IH]; [reflexivity|].
  intros He. rewrite trimEnd_cons.
  destruct s as [|b r].
  - cbn [endsWithSpace] in He. now rewrite He.
  - rewrite endsWithSpace_cons in He by discriminate.
    rewrite (IH He). cbn [String.eqb]. now rewrite andb_false_r.
Qed.

Lemma append_nil_r (s : string) : s ++ "" = s.
Proof. induction s as [|a s IH]; [reflexivity|]. cbn [append]. now rewrite IH. Qed.

Lemma trimStart_joined (ws : list string) (e : bool) :
  Forall (fun w => w <> "" /\ JS.existsb JS.isSpace w = false) ws ->
  JS.trimStart (joinedWith ws e) = joinedWith ws e.
Proof.
  intros Hws. destruct ws as [|w ws]; [reflexivity|].
  destruct (joinWords_first (w :: ws) Hws ltac:(discriminate)) as (a & r & Ej & Ha).
  unfold joinedWith. rewrite Ej. cbn [append JS.trimStart]. now rewrite Ha.
Qed.

Lemma trimEnd_joined (ws : list string) (e : bool) :
  Forall (fun w => w <> "" /\ JS.existsb JS.isSpace w = false) ws ->
  JS.trimEnd (joinedWith ws e) = joinWords ws.
Proof.
  intros Hws. destruct ws as [|w ws]; [reflexivity|].
  unfold joinedWith. destruct e.
  - rewrite trimEnd_app_space. now apply trimEnd_id, joinWords_ends.
  - rewrite append_nil_r. now apply trimEnd_id, joinWords_ends.
Qed.

(** *** The chain of replacements gives the words *)

Lemma spaceCamel_two (a b : ascii) (r : string) :
  spaceCamel (String a (String b r)) =
  if JS.isLower a && JS.isUpper b
  then String a (String " " (String b (spaceCamel r)))
  else String a (spaceCamel (String b r)).
Proof. reflexivity. Qed.

Lemma spaceCamel_not_lower (a : ascii) (s : string) :
  JS.isLower a = false -> spaceCamel (String a s) = String a (spaceCamel s).
Proof.
  intros Ha. destruct s as [|b r]; [reflexivity|].
  now rewrite spaceCamel_two, Ha.
Qed.

Lemma spaceCamel_gap (a b : ascii) (r : string) :
  JS.isLower a && JS.isUpper b = true ->
  spaceCamel (String a (String b r)) = String a (String " " (spaceCamel (String b r))).
Proof.
  intros H. rewrite spaceCamel_two, H.
  apply andb_prop in H. destruct H as [_ Hb].
  now rewrite (spaceCamel_not_lower b r (upper_not_lower b Hb)).
Qed.

Lemma spaceCamel_no_gap (a b : ascii) (r : string) :
  JS.isLower a && JS.isUpper b = false ->
  spaceCamel (String a (String b r)) = String a (spaceCamel (String b r)).
Proof. intros H. now rewrite spaceCamel_two, H. Qed.

Lemma collapseSpaces_cons (inRun : bool) (a : ascii) (s : string) :
  JS.collapseSpaces inRun (String a s) =
  if JS.isSpace a
  then (if inRun then JS.collapseSpaces true s else String " " (JS.collapseSpaces true s))
  else String a (JS.collapseSpaces false s).
Proof. reflexivity. Qed.

(** White space collapsed after a word was begun, or after white space. *)
Lemma collapse_after (m : string) :
  JS.collapseSpaces false (spaceCamel m) =
  match m with
  | EmptyString => EmptyString
  | String a _ =>
      if JS.isSpace a then String " " (JS.collapseSpaces true (spaceCamel m))
      else JS.collapseSpaces true (spaceCamel m)
  end.
Proof.
  destruct m as [|a m]; [reflexivity|].
  destruct (JS.isSpace a) eqn:Ha.
  - rewrite (spaceCamel_not_lower a m (space_not_lower a Ha)).
    now rewrite !collapseSpaces_cons, Ha.
  - destruct m as [|b r]; [cbn [spaceCamel]; now rewrite !collapseSpaces_cons, Ha|].
    destruct (JS.isLower a && JS.isUpper b) eqn:Hg.
    + rewrite (spaceCamel_gap a b r Hg). now rewrite !(collapseSpaces_cons _ a), Ha.
    + rewrite (spaceCamel_no_gap a b r Hg). now rewrite !(collapseSpaces_cons _ a), Ha.
Qed.

Lemma joinedWith_push (a : ascii) (ws : list string) (e : bool) :
  joinedWith (String a EmptyString :: ws) (match ws with [] => true | _ => e end) =
  String a (String " " (joinedWith ws e)).
Proof.
  destruct ws as [|w ws]; [reflexivity|].
  unfold joinedWith. now rewrite joinWords_cons.
Qed.

Lemma joinedWith_extend (a : ascii) (w : string) (ws : list string) (e : bool) :
  w <> "" ->
  joinedWith (String a w :: ws) e = String a (joinedWith (w :: ws) e).
Proof.
  intros Hw. unfold joinedWith.
  destruct ws as [|w' ws]; [reflexivity|].
  now rewrite !joinWords_cons.
Qed.

Lemma collapse_camel_words (m : string) :
  JS.collapseSpaces true (spaceCamel m) =
  joinedWith (wordsBy JS.isSpace m) (endsWithSpace m).
Proof.
  induction m as [|a m IH]; [reflexivity|].
  rewrite wordsBy_cons. destruct (JS.isSpace a) eqn:Ha.
  - rewrite (spaceCamel_not_lower a m (space_not_lower a Ha)).
    rewrite collapseSpaces_cons, Ha, IH.
    destruct m as [|b r]; [reflexivity|].
    now rewrite (endsWithSpace_cons a (String b r)) by discriminate.
  - destruct m as [|b r].
    + cbn [spaceCamel]. rewrite collapseSpaces_cons, Ha.
      cbn [JS.collapseSpaces endsWithSpace joinedWith joinWords]. now rewrite Ha.
    + rewrite (endsWithSpace_cons a (String b r)) by discriminate.
      pose proof (wordsBy_wellformed JS.isSpace (String b r)) as Hwf.
      destruct (JS.isLower a && JS.isUpper b) eqn:Hg.
      * rewrite orb_true_r, (spaceCamel_gap a b r Hg).
        rewrite collapseSpaces_cons, Ha, collapseSpaces_cons.
        change (JS.isSpace " ") with true. cbv iota. rewrite IH.
        apply andb_prop in Hg. destruct Hg as [_ Hb].
        pose proof (wordsBy_nonempty JS.isSpace b r (upper_not_space b Hb)) as Hne.
        destruct (wordsBy JS.isSpace (String b r)) as [|w ws]; [contradiction|].
        unfold joinedWith. now rewrite joinWords_cons.
      * rewrite orb_false_r, (spaceCamel_no_gap a b r Hg).
        rewrite collapseSpaces_cons, Ha, collapse_after, IH.
        destruct (JS.isSpace b) eqn:Hb.
        -- destruct (wordsBy JS.isSpace (String b r)) as [|w ws] eqn:Ew.
           ++ rewrite (wordsBy_nil_ends (String b r) Ew) by discriminate. reflexivity.
           ++ unfold joinedWith. now rewrite joinWords_cons.
        -- pose proof (wordsBy_nonempty JS.isSpace b r Hb) as Hne.
           destruct (wordsBy JS.isSpace (String b r)) as [|w ws]; [contradiction|].
           inversion Hwf as [|? ? [Hw _] _]; subst.
           now rewrite joinedWith_extend.
Qed.

(** After the replacements, the collapsing and the trimming, what is
    left is the words with one space between them. *)
Lemma normalize_words (m : string) :
  JS.trim (JS.collapseSpaces false (spaceCamel m)) = joinWords (wordsBy JS.isSpace m).
Proof.
  pose proof (wordsBy_wellformed JS.isSpace m) as Hwf.
  unfold JS.trim. rewrite collapse_after.
  assert (Hstart : JS.trimStart
                     match m with
                     | EmptyString => EmptyString
                     | String a _ =>
                         if JS.isSpace a then String " " (JS.collapseSpaces true (spaceCamel m))
                         else JS.collapseSpaces true (spaceCamel m)
                     end = JS.collapseSpaces true (spaceCamel m)).
  { destruct m as [|a m']; [reflexivity|].
    rewrite collapse_camel_words.
    destruct (JS.isSpace a); [|now apply trimStart_joined].
    cbn [JS.trimStart]. change (JS.isSpace " ") with true. cbv iota.
    now apply trimStart_joined. }
  rewrite Hstart, collapse_camel_words. now apply trimEnd_joined.
Qed.

Lemma wordsBy_separators (s : string) :
  wordsBy JS.isSpace (JS.map separatorToSpace s) = words s.
Proof.
  unfold words. induction s as [|a s IH]; [reflexivity|].
  cbn [JS.map]. rewrite !wordsBy_cons, separatorToSpace_space, IH.
  destruct (wordBreak a) eqn:Ha; [reflexivity|].
  rewrite (separatorToSpace_kept a Ha).
  destruct s as [|b r]; [reflexivity|].
  cbn [JS.map] in *. rewrite separatorToSpace_space, separatorToSpace_upper.
  reflexivity.
Qed.

Lemma capitalizeFirst_word {Eng : Engine} (a : ascii) (r : string) :
  JS.isSpace a = false ->
  capitalizeFirst (String a r) = toUpperCase (String a EmptyString) ++ r.
Proof.
  intros Ha. cbn [capitalizeFirst]. now rewrite (terminator_is_space a Ha).
Qed.

(** The title made by the chain of [generateTitleFromUrl] is the title
    the spec derives from the name. *)
Lemma generateTitleFromUrl_name {Eng : Engine} (dir name ext : string) :
  JS.existsb (Ascii.eqb "/") name = false ->
  JS.existsb (Ascii.eqb ".") name = false ->
  JS.existsb (Ascii.eqb "/") ext = false ->
  generateTitleFromUrl (Some (dir ++ String "/" (name ++ String "." ext))) = titleOfName name.
Proof.
  intros Hn Hd He. rewrite (generateTitleFromUrl_filename dir name ext Hn Hd He).
  rewrite normalize_words, wordsBy_separators. unfold titleOfName.
  pose proof (wordsBy_wellformed wordBreak (dropLeadingDigits name)) as Hwf.
  fold (words (dropLeadingDigits name)) in Hwf.
  destruct (words (dropLeadingDigits name)) as [|w ws] eqn:Ew; [reflexivity|].
  assert (Hsp : Forall (fun w => w <> "" /\ JS.existsb JS.isSpace w = false) (w :: ws)).
  { eapply Forall_impl; [|exact Hwf]. intros x [Hx Hb]. split; [exact Hx|].
    apply (forallb_not_exists (fun c => negb (wordBreak c))); [|clear - Hb].
    - intros c Hc. unfold wordBreak in Hc.
      destruct (JS.isSpace c); [discriminate | reflexivity].
    - induction x as [|c x IH]; [reflexivity|].
      cbn [JS.existsb] in Hb. apply orb_false_elim in Hb. destruct Hb as [Hc Hx'].
      cbn [JS.forallb]. now rewrite Hc, IH. }
  destruct (joinWords_first (w :: ws) Hsp ltac:(discriminate)) as (a & r & Ej & Ha).
  rewrite Ej. cbv zeta. now rewrite (capitalizeFirst_word a r Ha).
Qed.

Lemma titleOfName_quantum {Eng : Engine} :
  asciiCase Eng -> titleOfName "quantum-mechanics" = "Quantum mechanics".
Proof.
  intros Hcase. unfold titleOfName.
  change (joinWords (words (dropLeadingDigits "quantum-mechanics")))
    with "quantum mechanics".
  cbv iota beta. destruct (Hcase "q" eq_refl) as [_ ->]. reflexivity.
Qed.

(** C7 (amended). An element whose [alt], [title], captions and heading
    are missing or empty has no accepted candidate, and the title of an
    element without accepted candidate is made from the address.  It is
    the title the spec derives from the file name: the words of the name
    after its leading digits (a word ends at an underscore, a hyphen,
    white space, and before an upper-case letter that follows a
    lower-case one), joined by single spaces, the first character put in
    upper case by the engine, cut to 50 characters.  Only that first
    character changes case: quantum-mechanics.jpg gives Quantum
    mechanics. *)
Theorem extractTitle_from_filename {Eng : Engine} (el : element) :
  (noTitleMetadata el -> find titleAccepted (titleCandidates el) = None) /\
  (find titleAccepted (titleCandidates el) = None ->
     extractTitle el = generateTitleFromUrl (attr_src el) /\
     (forall dir name ext,
        attr_src el = Some (dir ++ String "/" (name ++ String "." ext)) ->
        JS.existsb (Ascii.eqb "/") name = false ->
        JS.existsb (Ascii.eqb ".") name = false ->
        JS.existsb (Ascii.eqb "/") ext = false ->
        extractTitle el = titleOfName name) /\
     (asciiCase Eng ->
      forall dir,
        attr_src el = Some (dir ++ "/quantum-mechanics.jpg") ->
        words "quantum-mechanics" = ["quantum"; "mechanics"] /\
        extractTitle el = "Quantum mechanics")).
Proof.
  split.
  - intros Hno. now rewrite (noTitleMetadata_candidates el Hno).
  - intros Hnone.
    assert (Hgen : extractTitle el = generateTitleFromUrl (attr_src el)).
    { unfold extractTitle. now rewrite Hnone. }
    split; [exact Hgen|]. split.
    + intros dir name ext Hsrc Hn Hd He.
      rewrite Hgen, Hsrc. now apply generateTitleFromUrl_name.
    + intros Hcase dir Hsrc. split; [reflexivity|].
      rewrite Hgen, Hsrc.
      rewrite (generateTitleFromUrl_name dir "quantum-mechanics" "jpg" eq_refl eq_refl eq_refl).
      now apply titleOfName_quantum.
Qed.

(** The hypotheses of C7 at an element that has only its address and an
    empty [alt] text. *)
Lemma extractTitle_from_filename_witness :
  find titleAccepted
    (titleCandidates
       (withAlt "" (bare "https://www.evertkwok.nl/wp-content/uploads/2019/07/quantum-mechanics.jpg")))
    = None /\
  extractTitle
    (withAlt "" (bare "https://www.evertkwok.nl/wp-content/uploads/2019/07/quantum-mechanics.jpg"))
    = "Quantum mechanics".
Proof.
  pose proof (extractTitle_from_filename (Eng := asciiEngine)
                (withAlt "" (bare "https://www.evertkwok.nl/wp-content/uploads/2019/07/quantum-mechanics.jpg")))
    as [Hnone Hname].
  assert (Hno : find titleAccepted
                  (titleCandidates
                     (withAlt "" (bare "https://www.evertkwok.nl/wp-content/uploads/2019/07/quantum-mechanics.jpg")))
                = None).
  { apply Hnone. unfold noTitleMetadata, blank. cbn. tauto. }
  split; [exact Hno|].
  apply (proj2 (proj2 (proj2 (Hname Hno)) asciiEngine_case
                  "https://www.evertkwok.nl/wp-content/uploads/2019/07" eq_refl)).
Defined.

(** C7 as stated fails at its own example: the title of an element
    without any text whose file is quantum-mechanics.jpg is not
    Quantum Mechanics. *)
Lemma quantum_mechanics_title :
  noTitleMetadata (bare "https://www.evertkwok.nl/wp-content/uploads/2019/07/quantum-mechanics.jpg") /\
  extractTitle (bare "https://www.evertkwok.nl/wp-content/uploads/2019/07/quantum-mechanics.jpg")
    <> "Quantum Mechanics".
Proof.
  split; [unfold noTitleMetadata, blank; cbn; tauto|]. vm_compute. discriminate.
Qed.

(** ** The calendar *)

Lemma DayFromYear_step (y : Z) :
  Cal.DayFromYear (y + 1) = Cal.DayFromYear y + Cal.DaysInYear y.
Proof.
  unfold Cal.DayFromYear, Cal.DaysInYear, Cal.isLeap.
  destruct (Z.eqb_spec (y mod 4) 0), (Z.eqb_spec (y mod 100) 0),
    (Z.eqb_spec (y mod 400) 0); cbn [andb orb negb];
    Z.div_mod_to_equations; lia.
Qed.

Lemma DayFromYear_lt (y1 y2 : Z) : y1 < y2 -> Cal.DayFromYear y1 < Cal.DayFromYear y2.
Proof.
  unfold Cal.DayFromYear. intros. Z.div_mod_to_equations. lia.
Qed.

(** [YearFromDay] is the year of ECMAScript: the largest one that starts
    on the day or before it. *)
Lemma YearFromDay_spec (d : Z) :
  Cal.DayFromYear (Cal.YearFromDay d) <= d < Cal.DayFromYear (Cal.YearFromDay d + 1).
Proof.
  unfold Cal.YearFromDay.
  set (y0 := 1970 + 400 * d / 146097).
  assert (H0 : Cal.DayFromYear (y0 - 1) <= d < Cal.DayFromYear (y0 + 2)).
  { unfold Cal.DayFromYear, y0. Z.div_mod_to_equations. lia. }
  destruct (Z.ltb_spec d (Cal.DayFromYear y0)).
  - replace (y0 - 1 + 1) with y0 by lia. lia.
  - destruct (Z.leb_spec (Cal.DayFromYear (y0 + 1)) d).
    + replace (y0 + 1 + 1) with (y0 + 2) by lia. lia.
    + lia.
Qed.

Lemma YearFromDay_unique (d y : Z) :
  Cal.DayFromYear y <= d < Cal.DayFromYear (y + 1) -> Cal.YearFromDay d = y.
Proof.
  intros H. pose proof (YearFromDay_spec d) as Hs.
  destruct (Z.lt_trichotomy (Cal.YearFromDay d) y) as [Hlt|[Heq|Hgt]]; [|exact Heq|].
  - destruct (Z.eq_dec (Cal.YearFromDay d + 1) y) as [E|E].
    + rewrite E in Hs. lia.
    + pose proof (DayFromYear_lt (Cal.YearFromDay d + 1) y). lia.
  - destruct (Z.eq_dec (y + 1) (Cal.YearFromDay d)) as [E|E].
    + rewrite E in H. lia.
    + pose proof (DayFromYear_lt (y + 1) (Cal.YearFromDay d)). lia.
Qed.

Lemma Day_MakeDate (day time : Z) :
  0 <= time < Cal.msPerDay -> Cal.Day (Cal.MakeDate day time) = day.
Proof.
  unfold Cal.Day, Cal.MakeDate, Cal.msPerDay. intros. Z.div_mod_to_equations. lia.
Qed.

Lemma TimeWithinDay_MakeDate (day time : Z) :
  0 <= time < Cal.msPerDay -> Cal.TimeWithinDay (Cal.MakeDate day time) = time.
Proof.
  unfold Cal.TimeWithinDay, Cal.MakeDate, Cal.msPerDay. intros. Z.div_mod_to_equations. lia.
Qed.

Lemma TimeWithinDay_range (t : Z) : 0 <= Cal.TimeWithinDay t < Cal.msPerDay.
Proof. unfold Cal.TimeWithinDay, Cal.msPerDay. apply Z.mod_pos_bound. lia. Qed.

Lemma InLeapYear_range (t : Z) : 0 <= Cal.InLeapYear t <= 1.
Proof. unfold Cal.InLeapYear. destruct (Cal.isLeap _); lia. Qed.

Lemma DayWithinYear_range (t : Z) : 0 <= Cal.DayWithinYear t < 365 + Cal.InLeapYear t.
Proof.
  unfold Cal.DayWithinYear, Cal.InLeapYear, Cal.YearFromTime.
  pose proof (YearFromDay_spec (Cal.Day t)) as H.
  rewrite DayFromYear_step in H. unfold Cal.DaysInYear in H.
  destruct (Cal.isLeap (Cal.YearFromDay (Cal.Day t))); lia.
Qed.

Ltac split_ltb :=
  repeat match goal with
         | |- context [?a <? ?b] => destruct (Z.ltb_spec a b)
         | |- context [?a =? ?b] => destruct (Z.eqb_spec a b)
         end.

Lemma MonthFromTime_range (t : Z) : 0 <= Cal.MonthFromTime t <= 11.
Proof. unfold Cal.MonthFromTime. split_ltb; lia. Qed.

(** The day of the month lies between 1 and 31. *)
Lemma DateFromTime_range (t : Z) : 1 <= Cal.DateFromTime t <= 31.
Proof.
  unfold Cal.DateFromTime, Cal.MonthFromTime, Cal.daysBeforeMonth.
  pose proof (DayWithinYear_range t). pose proof (InLeapYear_range t).
  split_ltb; lia.
Qed.

Lemma daysBeforeMonth_cases (l m : Z) :
  0 <= m <= 11 ->
  (m = 0 /\ Cal.daysBeforeMonth l m = 0) \/
  (m = 1 /\ Cal.daysBeforeMonth l m = 31) \/
  (m = 2 /\ Cal.daysBeforeMonth l m = 59 + l) \/
  (m = 3 /\ Cal.daysBeforeMonth l m = 90 + l) \/
  (m = 4 /\ Cal.daysBeforeMonth l m = 120 + l) \/
  (m = 5 /\ Cal.daysBeforeMonth l m = 151 + l) \/
  (m = 6 /\ Cal.daysBeforeMonth l m = 181 + l) \/
  (m = 7 /\ Cal.daysBeforeMonth l m = 212 + l) \/
  (m = 8 /\ Cal.daysBeforeMonth l m = 243 + l) \/
  (m = 9 /\ Cal.daysBeforeMonth l m = 273 + l) \/
  (m = 10 /\ Cal.daysBeforeMonth l m = 304 + l) \/
  (m = 11 /\ Cal.daysBeforeMonth l m = 334 + l).
Proof.
  intros H. unfold Cal.daysBeforeMonth. split_ltb; lia.
Qed.

(** A day of the month up to 28 exists in every month: the date made of a
    year, any month number and such a day reads back as written, the month
    number taken modulo 12 with its carry into the year. *)
Lemma MakeDate_read (year month day time : Z) :
  1 <= day <= 28 -> 0 <= time < Cal.msPerDay ->
  let t := Cal.MakeDate (Cal.MakeDay year month day) time in
  Cal.YearFromTime t = year + month / 12 /\
  Cal.MonthFromTime t = month mod 12 /\
  Cal.DateFromTime t = day /\
  Cal.TimeWithinDay t = time.
Proof.
  intros Hd Ht t.
  assert (Hm : 0 <= month mod 12 < 12) by (apply Z.mod_pos_bound; lia).
  set (ym := year + month / 12). set (mn := month mod 12) in *.
  set (l := if Cal.isLeap ym then 1 else 0).
  assert (Hl : 0 <= l <= 1) by (unfold l; destruct (Cal.isLeap ym); lia).
  assert (Hday : Cal.Day t = Cal.DayFromYear ym + Cal.daysBeforeMonth l mn + day - 1).
  { unfold t. rewrite Day_MakeDate by exact Ht. reflexivity. }
  assert (Hb : 0 <= Cal.daysBeforeMonth l mn <= 334 + l).
  { unfold Cal.daysBeforeMonth. split_ltb; lia. }
  assert (Hy : Cal.YearFromTime t = ym).
  { unfold Cal.YearFromTime. apply YearFromDay_unique.
    rewrite DayFromYear_step, Hday. unfold Cal.DaysInYear. fold l.
    replace (if Cal.isLeap ym then 366 else 365) with (365 + l)
      by (unfold l; destruct (Cal.isLeap ym); reflexivity).
    lia. }
  assert (Hw : Cal.DayWithinYear t = Cal.daysBeforeMonth l mn + day - 1).
  { unfold Cal.DayWithinYear. rewrite Hy, Hday. lia. }
  assert (Hleap : Cal.InLeapYear t = l).
  { unfold Cal.InLeapYear. now rewrite Hy. }
  assert (Hmon : Cal.MonthFromTime t = mn).
  { unfold Cal.MonthFromTime. rewrite Hw, Hleap.
    destruct (daysBeforeMonth_cases l mn) as [E|E]; [lia| |];
      repeat (destruct E as [[-> ->]|E]; [split_ltb; lia|]);
      destruct E as [-> ->]; split_ltb; lia. }
  repeat split.
  - exact Hy.
  - exact Hmon.
  - unfold Cal.DateFromTime. rewrite Hmon, Hw, Hleap. lia.
  - unfold t. now apply TimeWithinDay_MakeDate.
Qed.

Lemma daysInMonth_least (year month : Z) : 28 <= daysInMonth year month.
Proof.
  unfold daysInMonth. destruct (Cal.isLeap year); split_ltb; lia.
Qed.

(** The same for every day the month has. *)
Lemma MakeDate_read_month (year month day time : Z) :
  1 <= day <= daysInMonth (year + month / 12) (month mod 12) ->
  0 <= time < Cal.msPerDay ->
  let t := Cal.MakeDate (Cal.MakeDay year month day) time in
  Cal.YearFromTime t = year + month / 12 /\
  Cal.MonthFromTime t = month mod 12 /\
  Cal.DateFromTime t = day /\
  Cal.TimeWithinDay t = time.
Proof.
  intros Hd Ht t.
  assert (Hm : 0 <= month mod 12 < 12) by (apply Z.mod_pos_bound; lia).
  set (ym := year + month / 12) in *. set (mn := month mod 12) in *.
  set (l := if Cal.isLeap ym then 1 else 0).
  assert (Hday : Cal.Day t = Cal.DayFromYear ym + Cal.daysBeforeMonth l mn + day - 1).
  { unfold t. rewrite Day_MakeDate by exact Ht. reflexivity. }
  assert (Hfit : 0 <= Cal.daysBeforeMonth l mn /\ Cal.daysBeforeMonth l mn + day <= 365 + l).
  { revert Hd. unfold daysInMonth, Cal.daysBeforeMonth, l.
    destruct (Cal.isLeap ym); split_ltb; lia. }
  assert (Hy : Cal.YearFromTime t = ym).
  { unfold Cal.YearFromTime. apply YearFromDay_unique.
    rewrite DayFromYear_step, Hday. unfold Cal.DaysInYear. fold l.
    replace (if Cal.isLeap ym then 366 else 365) with (365 + l)
      by (unfold l; destruct (Cal.isLeap ym); reflexivity).
    lia. }
  assert (Hw : Cal.DayWithinYear t = Cal.daysBeforeMonth l mn + day - 1).
  { unfold Cal.DayWithinYear. rewrite Hy, Hday. lia. }
  assert (Hleap : Cal.InLeapYear t = l).
  { unfold Cal.InLeapYear. now rewrite Hy. }
  assert (Hmon : Cal.MonthFromTime t = mn).
  { unfold Cal.MonthFromTime. rewrite Hw, Hleap.
    revert Hd. unfold daysInMonth, l.
    destruct (daysBeforeMonth_cases (if Cal.isLeap ym then 1 else 0) mn) as [Ec|Ec]; [lia| |];
      repeat (destruct Ec as [[-> ->]|Ec]; [destruct (Cal.isLeap ym); split_ltb; lia|]);
      destruct Ec as [-> ->]; destruct (Cal.isLeap ym); split_ltb; lia. }
  repeat split.
  - exact Hy.
  - exact Hmon.
  - unfold Cal.DateFromTime. rewrite Hmon, Hw, Hleap. lia.
  - unfold t. now apply TimeWithinDay_MakeDate.
Qed.

(** The day of the month is one that the month has. *)
Lemma DateFromTime_in_month (t : Z) :
  Cal.DateFromTime t <= daysInMonth (Cal.YearFromTime t) (Cal.MonthFromTime t).
Proof.
  pose proof (DayWithinYear_range t) as Hr. revert Hr.
  unfold Cal.DateFromTime, daysInMonth, Cal.MonthFromTime, Cal.daysBeforeMonth, Cal.InLeapYear.
  destruct (Cal.isLeap (Cal.YearFromTime t)); split_ltb; lia.
Qed.

(** ** Sorting by a key, largest first *)

Section SortByKey.
Context {A : Type} (key : A -> Z).

Let compare (a b : A) : Z := key b - key a.

Lemma insert_perm (x : A) (l : list A) : Permutation (x :: l) (insert compare x l).
Proof.
  induction l as [|y l IH]; simpl; [apply Permutation_refl|].
  destruct (compare x y <=? 0); [apply Permutation_refl|].
  eapply perm_trans; [apply perm_swap | now apply perm_skip].
Qed.

Lemma sort_perm (l : list A) : Permutation l (sort compare l).
Proof.
  induction l as [|x l IH]; simpl; [constructor|].
  eapply perm_trans; [apply perm_skip, IH | apply insert_perm].
Qed.

Lemma insert_sorted (x : A) (l : list A) :
  StronglySorted (fun a b => key b <= key a) l ->
  StronglySorted (fun a b => key b <= key a) (insert compare x l).
Proof.
  induction 1 as [|y l Hs IH Hy]; simpl.
  - constructor; constructor.
  - destruct (Z.leb_spec (compare x y) 0) as [Hle|Hgt]; unfold compare in *.
    + constructor; [now constructor|].
      constructor; [lia|].
      rewrite Forall_forall in *. intros z Hz. specialize (Hy z Hz). lia.
    + constructor; [exact IH|].
      rewrite Forall_forall in *. intros z Hz.
      apply (Permutation_in z (Permutation_sym (insert_perm x l))) in Hz.
      destruct Hz as [<-|Hz]; [lia | now apply Hy].
Qed.

Lemma sort_sorted (l : list A) :
  StronglySorted (fun a b => key b <= key a) (sort compare l).
Proof.
  induction l as [|x l IH]; simpl; [constructor | now apply insert_sorted].
Qed.

Lemma insert_withKey (k : Z) (x : A) (l : list A) :
  withKey key k (insert compare x l) = withKey key k (x :: l).
Proof.
  unfold withKey.
  induction l as [|y l IH]; [reflexivity|].
  cbn [insert]. destruct (Z.leb_spec (compare x y) 0) as [Hle|Hgt]; [reflexivity|].
  unfold compare in Hgt. cbn [List.filter] in *. rewrite IH.
  destruct (Z.eqb_spec (key x) k), (Z.eqb_spec (key y) k); try reflexivity. lia.
Qed.

(** The sort is stable: the items of one key keep their order. *)
Lemma sort_withKey (k : Z) (l : list A) :
  withKey key k (sort compare l) = withKey key k l.
Proof.
  induction l as [|x l IH]; [reflexivity|].
  cbn [sort]. rewrite insert_withKey. unfold withKey in *. cbn [List.filter].
  now rewrite IH.
Qed.

Lemma sorted_adjacent (l : list A) :
  StronglySorted (fun a b => key b <= key a) l ->
  forall i a b, nth_error l i = Some a -> nth_error l (S i) = Some b -> key b <= key a.
Proof.
  induction 1 as [|x l Hs IH Hx]; intros i a b Ha Hb.
  - destruct i; discriminate.
  - destruct i as [|i].
    + injection Ha as <-. rewrite Forall_forall in Hx.
      apply Hx. apply (nth_error_In l 0). exact Hb.
    + eapply IH; eassumption.
Qed.

End SortByKey.

(** ** extractDateFromUrl *)

Lemma tryPatterns_first (now : Date) (url : string) (ps : list pattern) :
  (exists before p after date,
     ps = (before ++ p :: after)%list /\
     Forall (fun q => tryPattern now url q = None) before /\
     tryPattern now url p = Some date /\
     tryPatterns now url ps = Some date) \/
  (Forall (fun q => tryPattern now url q = None) ps /\ tryPatterns now url ps = None).
Proof.
  induction ps as [|p ps IH]; [right; split; [constructor | reflexivity]|].
  cbn [tryPatterns].
  destruct (tryPattern now url p) as [date|] eqn:Hp.
  - left. exists [], p, ps, date. repeat split; [constructor | exact Hp].
  - destruct IH as [(before & q & after & date & -> & Hb & Hq & Hr)|[Hall Hr]].
    + left. exists (p :: before), q, after, date.
      repeat split; [now constructor | exact Hq | exact Hr].
    + right. split; [now constructor | exact Hr].
Qed.

Lemma newDate_Day (year month day : Z) :
  100 <= year -> 0 <= month <= 11 ->
  Cal.Day (newDate year month day) =
  Cal.DayFromYear year + Cal.daysBeforeMonth (if Cal.isLeap year then 1 else 0) month + day - 1.
Proof.
  intros Hy Hm. unfold newDate.
  rewrite Day_MakeDate by (unfold Cal.msPerDay; lia).
  destruct (Z.leb_spec 0 year), (Z.leb_spec year 99); cbn [andb]; try lia.
  unfold Cal.MakeDay.
  replace (month / 12) with 0 by (Z.div_mod_to_equations; lia).
  replace (month mod 12) with month by (Z.div_mod_to_equations; lia).
  replace (year + 0) with year by lia. reflexivity.
Qed.

Lemma getDate_read (t : Date) (year month day : Z) :
  getFullYear t = year -> getMonth t = month ->
  Cal.Day t =
    Cal.DayFromYear year + Cal.daysBeforeMonth (if Cal.isLeap year then 1 else 0) month + day - 1 ->
  getDate t = day.
Proof.
  unfold getFullYear, getMonth, getDate. intros Hy Hm Hd.
  unfold Cal.DateFromTime, Cal.DayWithinYear, Cal.InLeapYear.
  rewrite Hm, Hy, Hd. lia.
Qed.

Lemma getMonth_range (t : Date) : 0 <= getMonth t <= 11.
Proof. apply MonthFromTime_range. Qed.

Lemma getDate_range (t : Date) : 1 <= getDate t <= 31.
Proof. apply DateFromTime_range. Qed.

Lemma getDate_in_month (t : Date) : getDate t <= daysInMonth (getFullYear t) (getMonth t).
Proof. apply DateFromTime_in_month. Qed.

(** A date of the calendar reads back as it was written. *)
Lemma newDate_read_month (year month day : Z) :
  100 <= year -> 0 <= month <= 11 -> 1 <= day <= daysInMonth year month ->
  getFullYear (newDate year month day) = year /\
  getMonth (newDate year month day) = month /\
  getDate (newDate year month day) = day.
Proof.
  intros HY Hm Hd. unfold getFullYear, getMonth, getDate, newDate.
  destruct (Z.leb_spec 0 year), (Z.leb_spec year 99); cbn [andb]; try lia.
  assert (E0 : month / 12 = 0) by (Z.div_mod_to_equations; lia).
  assert (E1 : month mod 12 = month) by (Z.div_mod_to_equations; lia).
  assert (Hd' : 1 <= day <= daysInMonth (year + month / 12) (month mod 12)).
  { rewrite E0, E1. now replace (year + 0) with year by lia. }
  pose proof (MakeDate_read_month year month day 0 Hd' ltac:(unfold Cal.msPerDay; lia)) as Hr.
  cbv zeta in Hr. destruct Hr as (Hy & Hmo & Hda & _).
  rewrite Hy, Hmo, Hda, E0, E1. repeat split; lia.
Qed.

Lemma reasonable_true (now : Date) (year month : Z) (date : Date) :
  reasonable now year month date = true ->
  getFullYear date = year /\ getMonth date = month /\
  2000 <= year <= getFullYear now + 1.
Proof.
  unfold reasonable. intros Hr.
  apply andb_prop in Hr. destruct Hr as [Hr Hmax].
  apply andb_prop in Hr. destruct Hr as [Hr Hmin].
  apply andb_prop in Hr. destruct Hr as [Hy Hm].
  apply Z.eqb_eq in Hy, Hm. apply Z.leb_le in Hmin, Hmax. lia.
Qed.

(** What a pattern returns is a date of the calendar, the one written in
    the match. *)
Lemma tryPattern_valid (now : Date) (url : string) (p : pattern) (date : Date) :
  tryPattern now url p = Some date ->
  exists gs year month day,
    Re.search (regex p) url = Some gs /\
    parseMatch (fmt p) gs = (year, month, day) /\
    date = newDate year month day /\
    getFullYear date = year /\ getMonth date = month /\ getDate date = day /\
    validDate now year month day.
Proof.
  unfold tryPattern.
  destruct (Re.search (regex p) url) as [gs|]; [|discriminate].
  destruct (parseMatch (fmt p) gs) as [[year month] day] eqn:Hparse.
  destruct (reasonable now year month (newDate year month day)) eqn:Hr; [|discriminate].
  intros [= <-]. exists gs, year, month, day.
  apply reasonable_true in Hr. destruct Hr as (Hy & Hm & Hrange).
  pose proof (getMonth_range (newDate year month day)) as Hmr.
  pose proof (getDate_range (newDate year month day)) as Hdr.
  pose proof (getDate_in_month (newDate year month day)) as Hdm.
  rewrite Hm in Hmr. rewrite Hy, Hm in Hdm.
  pose proof (getDate_read (newDate year month day) year month day Hy Hm
                (newDate_Day year month day ltac:(lia) Hmr)) as Hday.
  rewrite Hday in Hdr, Hdm.
  split; [reflexivity|]. split; [exact Hparse|]. split; [reflexivity|].
  split; [exact Hy|]. split; [exact Hm|]. split; [exact Hday|].
  unfold validDate. lia.
Qed.

(** A match that writes a date of the calendar is accepted. *)
Lemma tryPattern_accepts (now : Date) (url : string) (p : pattern) (gs : list string)
  (year month day : Z) :
  Re.search (regex p) url = Some gs ->
  parseMatch (fmt p) gs = (year, month, day) ->
  validDate now year month day ->
  tryPattern now url p = Some (newDate year month day) /\
  getFullYear (newDate year month day) = year /\
  getMonth (newDate year month day) = month /\
  getDate (newDate year month day) = day.
Proof.
  intros Hs Hp (Hy & Hm & Hd).
  destruct (newDate_read_month year month day ltac:(lia) Hm Hd) as (Ey & Em & Ed).
  split; [|now repeat split].
  unfold tryPattern. rewrite Hs, Hp. unfold reasonable. rewrite Ey, Em, !Z.eqb_refl.
  destruct (Z.leb_spec 2000 year), (Z.leb_spec year (getFullYear now + 1)); try lia.
  reflexivity.
Qed.

(** Any other match is refused. *)
Lemma tryPattern_rejects (now : Date) (url : string) (p : pattern) (gs : list string)
  (year month day : Z) :
  Re.search (regex p) url = Some gs ->
  parseMatch (fmt p) gs = (year, month, day) ->
  ~ validDate now year month day ->
  tryPattern now url p = None.
Proof.
  intros Hs Hp Hno.
  destruct (tryPattern now url p) as [date|] eqn:Ht; [|reflexivity].
  apply tryPattern_valid in Ht.
  destruct Ht as (gs' & y' & m' & d' & Hs' & Hp' & _ & _ & _ & _ & Hv).
  rewrite Hs in Hs'. injection Hs' as <-. rewrite Hp in Hp'. injection Hp' as <- <- <-.
  contradiction.
Qed.

Lemma tryPattern_none (now : Date) (url : string) (p : pattern) :
  Re.search (regex p) url = None -> tryPattern now url p = None.
Proof. unfold tryPattern. now intros ->. Qed.

Lemma sortedPatterns_eq :
  sortedPatterns =
  [ nth 0 patterns fullDatePattern; nth 2 patterns fullDatePattern;
    nth 3 patterns fullDatePattern; nth 4 patterns fullDatePattern;
    nth 5 patterns fullDatePattern; nth 1 patterns fullDatePattern;
    nth 6 patterns fullDatePattern ].
Proof. reflexivity. Qed.

(** C3 (amended). The patterns are tried by decreasing specificity, each
    on its leftmost match only, and the date of the first pattern whose
    match is accepted is returned; when no pattern gives a date the
    current date is returned.  A match is accepted exactly when it
    writes a date of the calendar whose year lies between 2000 and the
    year after the current one: the month from 01 to 12 and the day one
    that the month has.  The date returned is then the one written.  A
    pattern without a match gives nothing.  So when the leftmost full
    date in the path is such a date, it is returned whatever else the
    address holds. *)
Theorem extractDateFromUrl_first_valid (now : Date) (url : string) :
  StronglySorted (fun p q => specificity q <= specificity p) sortedPatterns /\
  Permutation patterns sortedPatterns /\
  ((exists before p after date,
      sortedPatterns = (before ++ p :: after)%list /\
      Forall (fun q => tryPattern now url q = None) before /\
      tryPattern now url p = Some date /\
      extractDateFromUrl now url = date) \/
   (Forall (fun q => tryPattern now url q = None) sortedPatterns /\
    extractDateFromUrl now url = now)) /\
  (forall p, Re.search (regex p) url = None -> tryPattern now url p = None) /\
  (forall p gs year month day,
     Re.search (regex p) url = Some gs ->
     parseMatch (fmt p) gs = (year, month, day) ->
     (validDate now year month day ->
        tryPattern now url p = Some (newDate year month day) /\
        getFullYear (newDate year month day) = year /\
        getMonth (newDate year month day) = month /\
        getDate (newDate year month day) = day) /\
     (~ validDate now year month day -> tryPattern now url p = None)) /\
  (forall p date,
     tryPattern now url p = Some date ->
     exists gs year month day,
       Re.search (regex p) url = Some gs /\
       parseMatch (fmt p) gs = (year, month, day) /\
       date = newDate year month day /\
       getFullYear date = year /\ getMonth date = month /\ getDate date = day /\
       validDate now year month day) /\
  (forall gs year month day,
     Re.search (regex fullDatePattern) url = Some gs ->
     parseMatch ymd gs = (year, month, day) ->
     validDate now year month day ->
     extractDateFromUrl now url = newDate year month day).
Proof.
  split; [apply (sort_sorted specificity)|].
  split; [apply (sort_perm specificity)|].
  split; [|split; [|split; [|split]]].
  - unfold extractDateFromUrl.
    destruct (tryPatterns_first now url sortedPatterns)
      as [(before & p & after & date & Es & Hb & Hp & Hr)|[Hall Hr]]; rewrite Hr.
    + left. now exists before, p, after, date.
    + right. now split.
  - apply tryPattern_none.
  - intros p gs year month day Hs Hp. split.
    + now apply (tryPattern_accepts now url p gs).
    + now apply (tryPattern_rejects now url p gs).
  - apply tryPattern_valid.
  - intros gs year month day Hs Hp Hv.
    destruct (tryPattern_accepts now url fullDatePattern gs year month day Hs Hp Hv)
      as [Hfull _].
    unfold extractDateFromUrl.
    rewrite sortedPatterns_eq. cbn [tryPatterns nth patterns].
    fold fullDatePattern. now rewrite Hfull.
Qed.

(** The hypotheses of C3 at an address that holds a year alone and,
    further on, a full date: the full date is returned. *)
Lemma extractDateFromUrl_first_valid_witness :
  extractDateFromUrl november2026
    "https://www.evertkwok.nl/wp-content/uploads/2019/gallery/2021/03/04/cat.jpg"
  = newDate 2021 2 4 /\
  tryPattern november2026
    "https://www.evertkwok.nl/wp-content/uploads/2019/gallery/2021/02/30/cat.jpg"
    fullDatePattern = None.
Proof.
  split.
  - apply (proj2 (proj2 (proj2 (proj2 (proj2 (proj2 (extractDateFromUrl_first_valid november2026
             "https://www.evertkwok.nl/wp-content/uploads/2019/gallery/2021/03/04/cat.jpg"))))))
             ["2021"; "03"; "04"] 2021 2 4).
    + vm_compute. reflexivity.
    + reflexivity.
    + unfold validDate. repeat split; vm_compute; discriminate.
  - apply (proj2 (proj1 (proj2 (proj2 (proj2 (proj2 (extractDateFromUrl_first_valid november2026
             "https://www.evertkwok.nl/wp-content/uploads/2019/gallery/2021/02/30/cat.jpg")))))
             fullDatePattern ["2021"; "02"; "30"] 2021 1 30
             ltac:(vm_compute; reflexivity) eq_refl)).
    unfold validDate. intros (_ & _ & _ & Hd). vm_compute in Hd. now apply Hd.
Defined.

(** C3 as stated fails: an address with a full date and a year alone
    does not give the full date when an impossible date stands before
    it.  Only the leftmost match of a pattern is looked at: the full
    date pattern and the month pattern find 2021/13, which is refused,
    and the year pattern finds 2019. *)
Lemma full_date_not_leftmost :
  JS.includes "/2021/03/04/"
    "https://www.evertkwok.nl/wp-content/uploads/2019/archive/2021/13/40/2021/03/04/cat.jpg"
    = true /\
  JS.includes "/2019/"
    "https://www.evertkwok.nl/wp-content/uploads/2019/archive/2021/13/40/2021/03/04/cat.jpg"
    = true /\
  extractDateFromUrl november2026
    "https://www.evertkwok.nl/wp-content/uploads/2019/archive/2021/13/40/2021/03/04/cat.jpg"
    = newDate 2019 0 1 /\
  newDate 2019 0 1 <> newDate 2021 2 4.
Proof.
  split; [reflexivity|]. split; [reflexivity|].
  split; [vm_compute; reflexivity | vm_compute; discriminate].
Qed.

Example extractDateFromUrl_month_13 :
  extractDateFromUrl november2026 "https://www.evertkwok.nl/wp-content/uploads/2020/13/cat.jpg"
  = newDate 2020 0 1.
Proof. vm_compute. reflexivity. Qed.

Example extractDateFromUrl_year_1990 :
  extractDateFromUrl november2026 "https://www.evertkwok.nl/wp-content/uploads/1990/05/cat.jpg"
  = november2026.
Proof. vm_compute. reflexivity. Qed.

Example extractDateFromUrl_30_february :
  extractDateFromUrl november2026 "https://www.evertkwok.nl/wp-content/uploads/cat-2021-02-30.jpg"
  = november2026.
Proof. vm_compute. reflexivity. Qed.

(** ** The fallback generator *)

(** [setDate] with a day up to 28 keeps the year and the month. *)
Lemma setDate_read (d : Date) (n : Z) :
  1 <= n <= 28 ->
  getFullYear (setDate d n) = getFullYear d /\
  getMonth (setDate d n) = getMonth d /\
  getDate (setDate d n) = n.
Proof.
  intros Hn. unfold getFullYear, getMonth, getDate, setDate.
  pose proof (MakeDate_read (Cal.YearFromTime d) (Cal.MonthFromTime d) n
                (Cal.TimeWithinDay d) Hn (TimeWithinDay_range d)) as H.
  cbv zeta in H. destruct H as (Hy & Hm & Hd & _).
  pose proof (MonthFromTime_range d) as Hr.
  rewrite Hy, Hm, Hd.
  replace (Cal.MonthFromTime d / 12) with 0 by (Z.div_mod_to_equations; lia).
  replace (Cal.MonthFromTime d mod 12) with (Cal.MonthFromTime d)
    by (Z.div_mod_to_equations; lia).
  repeat split; lia.
Qed.

(** [setMonth] on a day of the month up to 28 moves the month and keeps the day. *)
Lemma setMonth_read (d : Date) (m : Z) :
  getDate d <= 28 ->
  getFullYear (setMonth d m) = getFullYear d + m / 12 /\
  getMonth (setMonth d m) = m mod 12 /\
  getDate (setMonth d m) = getDate d.
Proof.
  unfold getFullYear, getMonth, getDate, setMonth. intros Hd.
  pose proof (DateFromTime_range d) as Hr.
  pose proof (MakeDate_read (Cal.YearFromTime d) m (Cal.DateFromTime d)
                (Cal.TimeWithinDay d) ltac:(lia) (TimeWithinDay_range d)) as H.
  cbv zeta in H. destruct H as (Hy & Hm & Hdate & _).
  now rewrite Hy, Hm, Hdate.
Qed.

(** On a day of the month up to 28 a demo entry is dated [months] months
    before the current date, on the day that was drawn. *)
Lemma demoDate_regular (now : Date) (months r : Z) :
  getDate now <= 28 -> 0 <= r < 28 ->
  getFullYear (demoDate now months r) = getFullYear now + (getMonth now - months) / 12 /\
  getMonth (demoDate now months r) = (getMonth now - months) mod 12 /\
  getDate (demoDate now months r) = r + 1.
Proof.
  intros Hd Hr. unfold demoDate.
  destruct (setMonth_read now (getMonth now - months) Hd) as (Hy & Hm & _).
  destruct (setDate_read (setMonth now (getMonth now - months)) (r + 1) ltac:(lia))
    as (Hy' & Hm' & Hd').
  rewrite Hy', Hm', Hd', Hy, Hm. repeat split.
Qed.

Lemma mapIndexed_length {A B : Type} (f : nat -> A -> B) (n : nat) (l : list A) :
  List.length (mapIndexed f n l) = List.length l.
Proof.
  revert n. induction l as [|a l IH]; intros n; simpl; [reflexivity | now rewrite IH].
Qed.

Lemma getDemoData_length (env : Env) : List.length (getDemoData env) = 8%nat.
Proof.
  pose proof (Permutation_length (sort_perm date (mapIndexed (demoItem env) 0%nat demos))) as H.
  rewrite mapIndexed_length in H. symmetry. exact H.
Qed.

Lemma getDemoData_sorted (env : Env) :
  StronglySorted (fun a b => date b <= date a) (getDemoData env).
Proof. apply (sort_sorted date). Qed.

(** C8, where the code and the claim part.  On 31 December 2026 the
    entry that is three months old is dated in October 2026, whatever day
    is drawn, and its address is in the directory 2026/10; three months
    before December is September.  [setMonth] keeps the day 31, which
    September does not have, so the date runs over into October before
    [setDate] replaces the day. *)
Theorem getDemoData_month_overflow :
  getFullYear lastOfDecember2026 = 2026 /\
  getMonth lastOfDecember2026 = 11 /\
  getDate lastOfDecember2026 = 31 /\
  (getMonth lastOfDecember2026 - 3) mod 12 = 8 /\
  (forall r, 0 <= r < 28 ->
     getFullYear (demoDate lastOfDecember2026 3 r) = 2026 /\
     getMonth (demoDate lastOfDecember2026 3 r) = 9 /\
     getDate (demoDate lastOfDecember2026 3 r) = r + 1) /\
  In {| url := "https://www.evertkwok.nl/wp-content/uploads/2026/10/statistics-probability.jpg";
        title := "Statistics and Probability Fun";
        date := newDate 2026 9 15 + 12 * 3600000;
        description := "Making statistics and probability theory engaging through humorous examples and visual representations of mathematical concepts.";
        filename := "statistics-probability.jpg" |}
     (getDemoData offlineEnv).
Proof.
  split; [vm_compute; reflexivity|].
  split; [vm_compute; reflexivity|].
  split; [vm_compute; reflexivity|].
  split; [vm_compute; reflexivity|].
  split.
  - intros r Hr. unfold demoDate.
    destruct (setDate_read (setMonth lastOfDecember2026 (getMonth lastOfDecember2026 - 3))
                (r + 1) ltac:(lia)) as (Hy & Hm & Hd).
    rewrite Hy, Hm, Hd. repeat split; vm_compute; reflexivity.
  - vm_compute. tauto.
Qed.

(** The hypothesis of the overflow at the draw 14. *)
Lemma getDemoData_month_overflow_witness :
  getFullYear (demoDate lastOfDecember2026 3 14) = 2026 /\
  getMonth (demoDate lastOfDecember2026 3 14) = 9 /\
  getDate (demoDate lastOfDecember2026 3 14) = 14 + 1.
Proof.
  apply (proj1 (proj2 (proj2 (proj2 (proj2 getDemoData_month_overflow))))). lia.
Defined.

(** ** The scraping stage: errors *)

(** An attempt returns the response of the request when it has a body. *)
Lemma attemptOnce_returned (env : Env) (attempt : nat) (r : response) :
  attemptOnce env attempt = Returned r <->
  axios_get env attempt = Returned r /\ exists s, data r = VStr s.
Proof.
  unfold attemptOnce.
  destruct (axios_get env attempt) as [r'|e]; cbn [bind].
  - destruct (data r') as [| |s] eqn:Ed; cbn [lengthOf bind].
    + split; [discriminate | intros [[= <-] [s Hs]]; congruence].
    + split; [discriminate | intros [[= <-] [s Hs]]; congruence].
    + split; [intros [= <-]; split; [reflexivity | now exists s] | now intros [[= <-] _]].
  - split; [discriminate | now intros [H _]].
Qed.

(** An attempt fails when the request fails, and when the response has
    no body: reading the length of [null] or [undefined] throws. *)
Lemma attemptOnce_thrown (env : Env) (attempt : nat) (e : exn) :
  attemptOnce env attempt = Thrown e <->
  axios_get env attempt = Thrown e \/
  exists r, axios_get env attempt = Returned r /\ lengthOf (data r) = Thrown e.
Proof.
  unfold attemptOnce.
  destruct (axios_get env attempt) as [r'|e']; cbn [bind].
  - destruct (lengthOf (data r')) as [n|e'] eqn:El; cbn [bind].
    + split; [discriminate|]. intros [H|(r & [= <-] & H)]; congruence.
    + split.
      * intros [= <-]. right. now exists r'.
      * intros [H|(r & [= <-] & H)]; congruence.
  - split; [intros [= <-]; now left|].
    intros [[= <-]|(r & H & _)]; [reflexivity | discriminate].
Qed.

Lemma fetchWithRetry_exhausted (env : Env) (e1 e2 e3 : exn) :
  attemptOnce env 1 = Thrown e1 ->
  attemptOnce env 2 = Thrown e2 ->
  attemptOnce env 3 = Thrown e3 ->
  fetchWithRetry env 1 = Thrown e3.
Proof.
  intros H1 H2 H3. unfold fetchWithRetry.
  cbn [maxRetries Nat.sub fetchWithRetryFrom].
  rewrite H1. cbn [try_catch Nat.ltb Nat.leb maxRetries].
  rewrite H2. cbn [try_catch Nat.ltb Nat.leb maxRetries].
  rewrite H3. reflexivity.
Qed.

Lemma fetchWithRetry_thrown (env : Env) (e : exn) :
  fetchWithRetry env 1 = Thrown e ->
  exists e1 e2,
    attemptOnce env 1 = Thrown e1 /\ attemptOnce env 2 = Thrown e2 /\
    attemptOnce env 3 = Thrown e.
Proof.
  unfold fetchWithRetry. cbn [maxRetries Nat.sub fetchWithRetryFrom].
  destruct (attemptOnce env 1) as [r1|e1]; [discriminate|].
  cbn [try_catch Nat.ltb Nat.leb maxRetries].
  destruct (attemptOnce env 2) as [r2|e2]; [discriminate|].
  cbn [try_catch Nat.ltb Nat.leb maxRetries].
  destruct (attemptOnce env 3) as [r3|e3]; [discriminate|].
  cbn [try_catch Nat.ltb Nat.leb maxRetries].
  intros [= <-]. now exists e1, e2.
Qed.

(** What [fetchWithRetry] returns has a body. *)
Lemma fetchWithRetry_body (env : Env) (r : response) :
  fetchWithRetry env 1 = Returned r -> exists s, data r = VStr s.
Proof.
  unfold fetchWithRetry. cbn [maxRetries Nat.sub fetchWithRetryFrom].
  destruct (attemptOnce env 1) as [r1|e1] eqn:H1; cbn [try_catch Nat.ltb Nat.leb maxRetries].
  { intros [= <-]. now apply (attemptOnce_returned env 1). }
  destruct (attemptOnce env 2) as [r2|e2] eqn:H2; cbn [try_catch Nat.ltb Nat.leb maxRetries].
  { intros [= <-]. now apply (attemptOnce_returned env 2). }
  destruct (attemptOnce env 3) as [r3|e3] eqn:H3; cbn [try_catch Nat.ltb Nat.leb maxRetries].
  { intros [= <-]. now apply (attemptOnce_returned env 3). }
  discriminate.
Qed.

Lemma scrapeCartoons_caught {Eng : Engine} (env : Env) (e : exn) :
  scrapeLive env = Thrown e -> scrapeCartoons env = Returned (getDemoData env).
Proof. unfold scrapeCartoons. now intros ->. Qed.

(** C4. [scrapeCartoons] never throws.  When the three attempts fail,
    [fetchWithRetry] throws the error of the third one, and it throws in
    no other case; an attempt fails when its request fails, and also
    when its response has no body.  When [fetchWithRetry] throws, or
    when the extraction throws after a page was fetched,
    [scrapeCartoons] returns the list of the fallback generator, which
    has eight items. *)
Theorem scrapeCartoons_never_throws {Eng : Engine} (env : Env) :
  (exists out, scrapeCartoons env = Returned out) /\
  (forall e1 e2 e3,
     attemptOnce env 1 = Thrown e1 ->
     attemptOnce env 2 = Thrown e2 ->
     attemptOnce env 3 = Thrown e3 ->
     fetchWithRetry env 1 = Thrown e3 /\
     scrapeCartoons env = Returned (getDemoData env)) /\
  (forall e,
     fetchWithRetry env 1 = Thrown e ->
     (exists e1 e2,
        attemptOnce env 1 = Thrown e1 /\ attemptOnce env 2 = Thrown e2 /\
        attemptOnce env 3 = Thrown e) /\
     scrapeCartoons env = Returned (getDemoData env)) /\
  (forall attempt e,
     attemptOnce env attempt = Thrown e <->
     axios_get env attempt = Thrown e \/
     exists r, axios_get env attempt = Returned r /\ lengthOf (data r) = Thrown e) /\
  (forall r e,
     fetchWithRetry env 1 = Returned r ->
     collect env (data r) = Thrown e ->
     scrapeCartoons env = Returned (getDemoData env)) /\
  (forall e, scrapeLive env = Thrown e -> scrapeCartoons env = Returned (getDemoData env)) /\
  List.length (getDemoData env) = 8%nat.
Proof.
  split; [|split; [|split; [|split; [|split; [|split]]]]].
  - unfold scrapeCartoons. destruct (scrapeLive env) as [out|e]; cbn [try_catch]; eauto.
  - intros e1 e2 e3 H1 H2 H3.
    pose proof (fetchWithRetry_exhausted env e1 e2 e3 H1 H2 H3) as Hf.
    split; [exact Hf|]. apply (scrapeCartoons_caught env e3).
    unfold scrapeLive. now rewrite Hf.
  - intros e Hf. split; [now apply fetchWithRetry_thrown|].
    apply (scrapeCartoons_caught env e). unfold scrapeLive. now rewrite Hf.
  - apply attemptOnce_thrown.
  - intros r e Hf Hc. apply (scrapeCartoons_caught env e).
    unfold scrapeLive. rewrite Hf. cbn [bind]. now rewrite Hc.
  - apply scrapeCartoons_caught.
  - apply getDemoData_length.
Qed.

(** The hypotheses of C4 at a run without network and at a run whose
    page holds an address that does not parse. *)
Lemma scrapeCartoons_never_throws_witness :
  (fetchWithRetry offlineEnv 1 = Thrown (NetworkError "timeout of 15000ms exceeded") /\
   scrapeCartoons offlineEnv = Returned (getDemoData offlineEnv)) /\
  scrapeCartoons brokenPageEnv = Returned (getDemoData brokenPageEnv).
Proof.
  split.
  - apply (proj1 (proj2 (scrapeCartoons_never_throws (Eng := asciiEngine) offlineEnv))
             (NetworkError "timeout of 15000ms exceeded")
             (NetworkError "timeout of 15000ms exceeded")); reflexivity.
  - apply (proj1 (proj2 (proj2 (proj2 (proj2
             (scrapeCartoons_never_throws (Eng := asciiEngine) brokenPageEnv)))))
             {| data := VStr "<html>" |} (TypeError "Invalid URL")); reflexivity.
Defined.

(** ** The scraping stage: order *)

Lemma scrapeLive_returned {Eng : Engine} (env : Env) (out : list cartoon) :
  scrapeLive env = Returned out ->
  exists r st,
    fetchWithRetry env 1 = Returned r /\ collect env (data r) = Returned st /\
    out = sort byDateDesc (removeDuplicates (cartoons st)).
Proof.
  unfold scrapeLive.
  destruct (fetchWithRetry env 1) as [r|e]; [|discriminate]. cbn [bind].
  destruct (collect env (data r)) as [st|e] eqn:Hc; [|discriminate]. cbn [bind].
  intros [= <-]. exists r, st. repeat split. exact Hc.
Qed.

Lemma scrapeCartoons_cases {Eng : Engine} (env : Env) (out : list cartoon) :
  scrapeCartoons env = Returned out ->
  (exists r st,
     fetchWithRetry env 1 = Returned r /\ collect env (data r) = Returned st /\
     out = sort byDateDesc (removeDuplicates (cartoons st))) \/
  ((exists e, scrapeLive env = Thrown e) /\ out = getDemoData env).
Proof.
  unfold scrapeCartoons.
  destruct (scrapeLive env) as [l|e] eqn:Hl; cbn [try_catch]; intros [= <-].
  - left. now apply scrapeLive_returned.
  - right. split; [now exists e | reflexivity].
Qed.

(** C2 (amended). The list [scrapeCartoons] returns is in descending
    order of date: of two neighbours the first is not older than the
    second.  A date is the time value of the [Date] object, in
    milliseconds, which is what the comparison function of the source
    subtracts.  The items of one time value stand in the order of their
    discovery: the order they have among the unique cartoons of the
    page, or among the demo entries when the fallback is used. *)
Theorem scrapeCartoons_sorted_stable {Eng : Engine} (env : Env) (out : list cartoon) :
  scrapeCartoons env = Returned out ->
  (forall i a b,
     nth_error out i = Some a -> nth_error out (S i) = Some b -> date b <= date a) /\
  (forall r st,
     fetchWithRetry env 1 = Returned r -> collect env (data r) = Returned st ->
     Permutation (removeDuplicates (cartoons st)) out /\
     forall d, withKey date d out = withKey date d (removeDuplicates (cartoons st))) /\
  (forall e,
     scrapeLive env = Thrown e ->
     Permutation (mapIndexed (demoItem env) 0%nat demos) out /\
     forall d, withKey date d out = withKey date d (mapIndexed (demoItem env) 0%nat demos)).
Proof.
  intros Hout. split; [|split].
  - apply (sorted_adjacent date).
    destruct (scrapeCartoons_cases env out Hout) as [(r & st & _ & _ & ->)|[_ ->]];
      apply (sort_sorted date).
  - intros r st Hf Hc.
    assert (Eo : out = sort byDateDesc (removeDuplicates (cartoons st))).
    { unfold scrapeCartoons, scrapeLive in Hout. rewrite Hf in Hout. cbn [bind] in Hout.
      rewrite Hc in Hout. cbn [bind try_catch] in Hout. now injection Hout as <-. }
    rewrite Eo. split; [apply (sort_perm date) | intros d; apply (sort_withKey date)].
  - intros e He.
    assert (Eo : out = getDemoData env).
    { unfold scrapeCartoons in Hout. rewrite He in Hout. cbn [try_catch] in Hout.
      now injection Hout as <-. }
    rewrite Eo. split; [apply (sort_perm date) | intros d; apply (sort_withKey date)].
Qed.

(** The hypotheses of C2 at a run that scrapes a page and at a run that
    falls back. *)
Lemma scrapeCartoons_sorted_stable_witness :
  (forall d,
     withKey date d (returnedOr [] (scrapeCartoons sampleEnv)) =
     withKey date d
       (removeDuplicates
          (cartoons (returnedOr initialState (collect sampleEnv (VStr "<html>")))))) /\
  (forall d,
     withKey date d (returnedOr [] (scrapeCartoons offlineEnv)) =
     withKey date d (mapIndexed (demoItem offlineEnv) 0%nat demos)).
Proof.
  assert (Hsample : scrapeCartoons sampleEnv = Returned (returnedOr [] (scrapeCartoons sampleEnv)))
    by (vm_compute; reflexivity).
  assert (Hoffline : scrapeCartoons offlineEnv = Returned (returnedOr [] (scrapeCartoons offlineEnv)))
    by (vm_compute; reflexivity).
  split.
  - apply (proj1 (proj2 (scrapeCartoons_sorted_stable sampleEnv
                           (returnedOr [] (scrapeCartoons sampleEnv)) Hsample))
             {| data := VStr "<html>" |}
             (returnedOr initialState (collect sampleEnv (VStr "<html>"))));
      vm_compute; reflexivity.
  - apply (proj2 (proj2 (scrapeCartoons_sorted_stable offlineEnv
                           (returnedOr [] (scrapeCartoons offlineEnv)) Hoffline))
             (NetworkError "timeout of 15000ms exceeded")).
    vm_compute. reflexivity.
Defined.

(** C2 as stated fails when a date is the day of the calendar.  Two
    pictures without a date in their address are dated by the clock, a
    millisecond apart on 2 November 2026: the one discovered first comes
    last. *)
Lemma same_day_reversed :
  map url (discovered undatedEnv (VStr "<html>")) =
    [ "https://www.evertkwok.nl/wp-content/uploads/first.jpg";
      "https://www.evertkwok.nl/wp-content/uploads/second.jpg" ] /\
  map (fun c => (url c, (getFullYear (date c), getMonth (date c), getDate (date c))))
      (returnedOr [] (scrapeCartoons undatedEnv)) =
    [ ("https://www.evertkwok.nl/wp-content/uploads/second.jpg", (2026, 10, 2));
      ("https://www.evertkwok.nl/wp-content/uploads/first.jpg", (2026, 10, 2)) ].
Proof.
  split; vm_compute; reflexivity.
Qed.

(** ** The scraping stage: duplicates *)

Lemma has_cons (seen : list string) (u v : string) :
  has (u :: seen) v = (v =? u)%string || has seen v.
Proof. reflexivity. Qed.

Lemma removeDuplicatesFrom_drop (seen : list string) (l1 : list cartoon) (c : cartoon)
  (l2 : list cartoon) :
  has seen (url c) = true \/ In (url c) (map url l1) ->
  removeDuplicatesFrom seen (l1 ++ c :: l2) = removeDuplicatesFrom seen (l1 ++ l2).
Proof.
  revert seen. induction l1 as [|a l1 IH]; intros seen H.
  - destruct H as [H|[]]. cbn [app removeDuplicatesFrom]. now rewrite H.
  - cbn [app removeDuplicatesFrom].
    destruct (has seen (url a)) eqn:Ha.
    + apply IH. destruct H as [H|[H|H]]; [now left | left; now rewrite <- H | now right].
    + f_equal. apply IH. rewrite has_cons.
      destruct H as [H|[H|H]].
      * left. rewrite H. apply orb_true_r.
      * left. rewrite H, String.eqb_refl. reflexivity.
      * now right.
Qed.

Lemma removeDuplicatesFrom_spec (seen : list string) (l : list cartoon) :
  NoDup (map url (removeDuplicatesFrom seen l)) /\
  (forall o, In o (removeDuplicatesFrom seen l) ->
     has seen (url o) = false /\
     exists l1 l2, l = (l1 ++ o :: l2)%list /\ ~ In (url o) (map url l1)) /\
  (forall c, In c l ->
     has seen (url c) = true \/ In (url c) (map url (removeDuplicatesFrom seen l))).
Proof.
  revert seen. induction l as [|c l IH]; intros seen.
  - split; [constructor|]. split; intros ? [].
  - cbn [removeDuplicatesFrom]. destruct (has seen (url c)) eqn:Hc.
    + destruct (IH seen) as (Hnd & Hfirst & Hcover).
      split; [exact Hnd|]. split.
      * intros o Ho. destruct (Hfirst o Ho) as (Hs & l1 & l2 & -> & Hn).
        split; [exact Hs|]. exists (c :: l1), l2. split; [reflexivity|].
        intros [E|Hin]; [|contradiction]. rewrite E in Hc. congruence.
      * intros c' [<-|Hin]; [now left | now apply Hcover].
    + destruct (IH (url c :: seen)) as (Hnd & Hfirst & Hcover).
      split; [|split].
      * cbn [map]. constructor; [|exact Hnd].
        intros Hin. apply in_map_iff in Hin. destruct Hin as (o & E & Ho).
        destruct (Hfirst o Ho) as (Hs & _). rewrite has_cons, E, String.eqb_refl in Hs.
        discriminate.
      * intros o [<-|Ho].
        -- split; [exact Hc|]. exists [], l. split; [reflexivity | intros []].
        -- destruct (Hfirst o Ho) as (Hs & l1 & l2 & -> & Hn).
           rewrite has_cons in Hs. apply orb_false_elim in Hs. destruct Hs as [Hne Hs].
           split; [exact Hs|]. exists (c :: l1), l2. split; [reflexivity|].
           intros [E|Hin]; [|contradiction].
           rewrite E, String.eqb_refl in Hne. discriminate.
      * intros c' [<-|Hin]; [right; now left|].
        destruct (Hcover c' Hin) as [Hs|Hr]; [|right; now right].
        rewrite has_cons in Hs. apply orb_true_iff in Hs. destruct Hs as [E|Hs]; [|now left].
        apply String.eqb_eq in E. right. left. now symmetry.
Qed.

Lemma foldM_app {S A : Type} (f : S -> A -> outcome S) (st : S) (l1 l2 : list A) :
  foldM f st (l1 ++ l2) = (st' <- foldM f st l1 ;; foldM f st' l2).
Proof.
  revert st. induction l1 as [|a l1 IH]; intros st; [reflexivity|].
  cbn [app foldM]. destruct (f st a) as [st1|e]; cbn [bind]; [apply IH | reflexivity].
Qed.

Lemma foldM_flat_map {S A B : Type} (f : S -> B -> outcome S) (g : A -> list B)
  (st : S) (l : list A) :
  foldM (fun st x => foldM f st (g x)) st l = foldM f st (flat_map g l).
Proof.
  revert st. induction l as [|a l IH]; intros st; [reflexivity|].
  cbn [foldM flat_map]. rewrite foldM_app.
  destruct (foldM f st (g a)) as [st1|e]; cbn [bind]; [apply IH | reflexivity].
Qed.

Lemma collect_pooled {Eng : Engine} (env : Env) (html : value) :
  collect env html = foldM (visit env) initialState (pooled env html).
Proof. unfold collect, pooled. apply foldM_flat_map. Qed.

Lemma fullUrlOf_stable (env : Env) (s f : string) :
  resolveIdempotent env -> fullUrlOf env s = Returned f -> fullUrlOf env f = Returned f.
Proof.
  intros Hidem. unfold fullUrlOf.
  destruct (JS.startsWith "http" s) eqn:Es.
  - intros [= <-]. now rewrite Es.
  - intros Hr. destruct (JS.startsWith "http" f); [reflexivity | now apply (Hidem s)].
Qed.

Lemma visit_step {Eng : Engine} (env : Env) (st st1 : loopState) (el : element) :
  resolveIdempotent env -> loopInvariant env st ->
  visit env st el = Returned st1 ->
  loopInvariant env st1 /\ visited st1 = S (visited st) /\
  forall rest,
    removeDuplicates (cartoons st1 ++ rest) =
    removeDuplicates (cartoons st ++
                      match candidate env (visited st) el with
                      | Some c => c :: rest
                      | None => rest
                      end).
Proof.
  intros Hidem Hinv. unfold visit, candidate.
  destruct (attr_src el) as [imgSrc|];
    [|intros [= <-]; split; [exact Hinv | split; reflexivity]].
  destruct (negb (imgSrc =? "")%string && JS.includes "wp-content/uploads" imgSrc) eqn:Hmark;
    cbn [andb]; [|intros [= <-]; split; [exact Hinv | split; reflexivity]].
  destruct (has (foundUrls st) imgSrc) eqn:Hfound; cbn [negb].
  - intros [= <-]. split; [exact Hinv|]. split; [reflexivity|]. intros rest.
    cbn [cartoons]. destruct (Hinv imgSrc Hfound) as [Hin Hself]. rewrite Hself.
    destruct (isValidCartoonUrl imgSrc); [|reflexivity].
    symmetry. apply removeDuplicatesFrom_drop. right. exact Hin.
  - destruct (fullUrlOf env imgSrc) as [fullUrl|e] eqn:Hfull; cbn [bind]; [|discriminate].
    destruct (isValidCartoonUrl fullUrl); cbn [negb]; intros [= <-];
      [|split; [exact Hinv | split; reflexivity]].
    split; [|split; [reflexivity|]].
    + intros u Hu. cbn [foundUrls cartoons] in *. rewrite has_cons in Hu.
      rewrite map_app, in_app_iff. apply orb_true_iff in Hu. destruct Hu as [E|Hu].
      * apply String.eqb_eq in E. subst u. split; [right; now left|].
        now apply (fullUrlOf_stable env imgSrc).
      * destruct (Hinv u Hu). split; [now left | assumption].
    + intros rest. cbn [cartoons]. now rewrite <- app_assoc.
Qed.

Lemma foldM_visit_discovered {Eng : Engine} (env : Env) (els : list element) :
  resolveIdempotent env ->
  forall st st',
    loopInvariant env st ->
    foldM (visit env) st els = Returned st' ->
    removeDuplicates (cartoons st') =
    removeDuplicates (cartoons st ++ discoveredFrom env (visited st) els).
Proof.
  intros Hidem. induction els as [|el els IH]; intros st st' Hinv Hfold.
  - cbn in Hfold. injection Hfold as <-. now rewrite app_nil_r.
  - cbn [foldM] in Hfold.
    destruct (visit env st el) as [st1|e] eqn:Hv; cbn [bind] in Hfold; [|discriminate].
    destruct (visit_step env st st1 el Hidem Hinv Hv) as (Hinv1 & Hn & Hstep).
    rewrite (IH st1 st' Hinv1 Hfold), Hn, Hstep. cbn [discoveredFrom].
    now destruct (candidate env (visited st) el).
Qed.

(** Skipping the addresses already met does not change the result: the
    unique cartoons are those of the whole list of candidates. *)
Lemma collect_discovered {Eng : Engine} (env : Env) (html : value) (st : loopState) :
  resolveIdempotent env ->
  collect env html = Returned st ->
  removeDuplicates (cartoons st) = removeDuplicates (discovered env html).
Proof.
  intros Hidem Hc. rewrite collect_pooled in Hc.
  apply (foldM_visit_discovered env (pooled env html) Hidem initialState st); [|exact Hc].
  intros u Hu. discriminate.
Qed.

Lemma append_assoc (a b c : string) : (a ++ b) ++ c = a ++ b ++ c.
Proof. induction a as [|x a IH]; simpl; [reflexivity | now rewrite IH]. Qed.

(** The address of a demo entry ends with its file name. *)
Lemma demoItem_url_last (env : Env) (index : nat) (d : demo) :
  JS.existsb (Ascii.eqb "/") (demo_filename d) = false ->
  last (JS.split "/" (url (demoItem env index d))) EmptyString = demo_filename d.
Proof.
  intros Hf. unfold demoItem. cbn [url].
  set (year := JS.ofNumber _). set (month := JS.padStart2 _).
  replace ("https://www.evertkwok.nl/wp-content/uploads/" ++ year ++ "/" ++ month ++ "/" ++
           demo_filename d)
    with (("https://www.evertkwok.nl/wp-content/uploads/" ++ year ++ "/" ++ month) ++
          String "/" (demo_filename d))
    by (now rewrite !append_assoc).
  rewrite split_app_sep, last_app_nonempty by apply split_nonempty.
  now rewrite (split_absent "/" _ Hf).
Qed.

Lemma mapIndexed_url_last (env : Env) (index : nat) (ds : list demo) :
  Forall (fun d => JS.existsb (Ascii.eqb "/") (demo_filename d) = false) ds ->
  map (fun c => last (JS.split "/" (url c)) EmptyString) (mapIndexed (demoItem env) index ds)
  = map demo_filename ds.
Proof.
  intros H. revert index. induction H as [|d ds Hd _ IH]; intros index; [reflexivity|].
  cbn [mapIndexed map]. now rewrite demoItem_url_last, IH.
Qed.

Lemma getDemoData_urls (env : Env) : NoDup (map url (getDemoData env)).
Proof.
  assert (Hraw : NoDup (map url (mapIndexed (demoItem env) 0%nat demos))).
  { apply (NoDup_map_inv (fun u => last (JS.split "/" u) EmptyString)).
    rewrite map_map, mapIndexed_url_last.
    - repeat (constructor; [cbn; intuition discriminate|]). constructor.
    - repeat (constructor; [reflexivity|]). constructor. }
  eapply Permutation_NoDup; [|exact Hraw].
  apply Permutation_map. apply (sort_perm date).
Qed.

Lemma fullAddress_fullUrlOf (env : Env) (src full : string) :
  fullAddress env src full <-> fullUrlOf env src = Returned full.
Proof.
  unfold fullAddress, fullUrlOf. destruct (JS.startsWith "http" src).
  - split; [intros [[_ ->]|[H _]]; [reflexivity | discriminate] | intros [= <-]; now left].
  - split; [intros [[H _]|[_ H]]; [discriminate | exact H] | intros H; now right].
Qed.

Lemma marker_nonempty (src : string) :
  JS.includes "wp-content/uploads" src = true -> (src =? "")%string = false.
Proof. destruct src; [discriminate | reflexivity]. Qed.

(** Every element with a usable address has its cartoon among the
    candidates, and every candidate comes from such an element. *)
Lemma discoveredFrom_url {Eng : Engine} (env : Env) (els : list element) (n : nat)
  (el : element) (src full : string) :
  In el els -> attr_src el = Some src ->
  JS.includes "wp-content/uploads" src = true ->
  fullUrlOf env src = Returned full -> isValidCartoonUrl full = true ->
  In full (map url (discoveredFrom env n els)).
Proof.
  intros Hin Hsrc Hmark Hfull Hvalid. revert n.
  induction els as [|el' els IH]; intros n; [destruct Hin|].
  cbn [discoveredFrom]. destruct Hin as [->|Hin].
  - unfold candidate. rewrite Hsrc, (marker_nonempty src Hmark), Hmark, Hfull, Hvalid.
    cbn [negb andb map newCartoon url]. now left.
  - destruct (candidate env n el'); [right|]; now apply IH.
Qed.

Lemma discoveredFrom_origin {Eng : Engine} (env : Env) (els : list element) (n : nat)
  (c : cartoon) :
  In c (discoveredFrom env n els) ->
  exists el src k,
    In el els /\ attr_src el = Some src /\
    JS.includes "wp-content/uploads" src = true /\
    fullUrlOf env src = Returned (url c) /\
    isValidCartoonUrl (url c) = true /\
    c = newCartoon env k el (url c).
Proof.
  revert n. induction els as [|el els IH]; intros n; [intros []|].
  cbn [discoveredFrom].
  assert (Hrest : In c (discoveredFrom env (S n) els) ->
                  exists el' src k,
                    In el' (el :: els) /\ attr_src el' = Some src /\
                    JS.includes "wp-content/uploads" src = true /\
                    fullUrlOf env src = Returned (url c) /\
                    isValidCartoonUrl (url c) = true /\
                    c = newCartoon env k el' (url c)).
  { intros Hc. destruct (IH (S n) Hc) as (el' & src & k & Hin & Hrest).
    exists el', src, k. split; [now right | exact Hrest]. }
  destruct (candidate env n el) as [c'|] eqn:Hcand; [|exact Hrest].
  intros [<-|Hc]; [|now apply Hrest].
  unfold candidate in Hcand.
  destruct (attr_src el) as [src|] eqn:Hsrc; [|discriminate].
  destruct (negb (src =? "")%string) eqn:Hne; cbn [andb] in Hcand; [|discriminate].
  destruct (JS.includes "wp-content/uploads" src) eqn:Hmark; [|discriminate].
  destruct (fullUrlOf env src) as [full|e] eqn:Hfull; [|discriminate].
  destruct (isValidCartoonUrl full) eqn:Hvalid; [|discriminate].
  injection Hcand as <-. cbn [newCartoon url].
  exists el, src, n. split; [now left|]. now repeat split.
Qed.

(** C1 (amended). In the list [scrapeCartoons] returns no address occurs
    twice.  The address of an item is the full address of an [src]: the
    [src] itself when it starts with http, what [new URL] makes of it
    against the base otherwise; an [src] that starts with http is not
    normalised.  When the page was fetched and the extraction returned,
    the result is the sorted list of the unique candidates of the page:
    the full address of every element that passes the filters occurs
    exactly once, however often and under whatever [src] with that full
    address the element is found, and every item kept is the first
    candidate, in the order of discovery, that has its address, with the
    title, date and description computed for its element. *)
Theorem scrape_deduplicates {Eng : Engine} (env : Env) :
  resolveIdempotent env ->
  (forall out, scrapeCartoons env = Returned out -> NoDup (map url out)) /\
  (forall r out,
     fetchWithRetry env 1 = Returned r ->
     scrapeLive env = Returned out ->
     scrapeCartoons env = Returned out /\
     out = sort byDateDesc (removeDuplicates (discovered env (data r))) /\
     (forall el src full,
        In el (pooled env (data r)) -> attr_src el = Some src ->
        JS.includes "wp-content/uploads" src = true ->
        fullAddress env src full -> isValidCartoonUrl full = true ->
        count_occ string_dec (map url out) full = 1%nat) /\
     (forall o, In o out ->
        (exists l1 l2,
           discovered env (data r) = (l1 ++ o :: l2)%list /\ ~ In (url o) (map url l1)) /\
        (exists el src n,
           In el (pooled env (data r)) /\ attr_src el = Some src /\
           fullAddress env src (url o) /\
           title o = extractTitle el /\
           description o = extractDescription el /\
           date o = extractDateFromUrl (clock env n) (url o) /\
           filename o = basename (url o)))).
Proof.
  intros Hidem.
  assert (Hlive : forall r out,
            fetchWithRetry env 1 = Returned r -> scrapeLive env = Returned out ->
            out = sort byDateDesc (removeDuplicates (discovered env (data r)))).
  { intros r out Hf Hl.
    destruct (scrapeLive_returned env out Hl) as (r' & st & Hf' & Hc & ->).
    rewrite Hf in Hf'. injection Hf' as <-.
    now rewrite (collect_discovered env (data r) st Hidem Hc). }
  assert (Hnd : forall r out,
            fetchWithRetry env 1 = Returned r -> scrapeLive env = Returned out ->
            NoDup (map url out)).
  { intros r out Hf Hl. rewrite (Hlive r out Hf Hl).
    eapply Permutation_NoDup;
      [apply Permutation_map, (sort_perm date) | apply removeDuplicatesFrom_spec]. }
  split.
  - intros out Hout. unfold scrapeCartoons in Hout.
    destruct (scrapeLive env) as [l|e] eqn:Hl; cbn [try_catch] in Hout;
      injection Hout as <-; [|apply getDemoData_urls].
    destruct (scrapeLive_returned env l Hl) as (r & _ & Hf & _).
    now apply (Hnd r).
  - intros r out Hf Hl.
    pose proof (Hlive r out Hf Hl) as Hout. pose proof (Hnd r out Hf Hl) as Hnd'.
    pose proof (sort_perm date (removeDuplicates (discovered env (data r)))) as Hperm.
    fold byDateDesc in Hperm. rewrite <- Hout in Hperm.
    destruct (removeDuplicatesFrom_spec [] (discovered env (data r)))
      as (_ & Hfirst & Hcover).
    fold (removeDuplicates (discovered env (data r))) in Hfirst, Hcover.
    split; [unfold scrapeCartoons; now rewrite Hl|].
    split; [exact Hout|]. split.
    + intros el src full Hel Hsrc Hmark Hfull Hvalid.
      apply fullAddress_fullUrlOf in Hfull.
      pose proof (discoveredFrom_url env (pooled env (data r)) 0%nat el src full
                    Hel Hsrc Hmark Hfull Hvalid) as Hin.
      fold (discovered env (data r)) in Hin.
      apply in_map_iff in Hin. destruct Hin as (c & <- & Hc).
      destruct (Hcover c Hc) as [Hs|Hin]; [discriminate|].
      apply (Permutation_in _ (Permutation_map url Hperm)) in Hin.
      pose proof (proj1 (NoDup_count_occ string_dec (map url out)) Hnd' (url c)) as Hle.
      pose proof (proj1 (count_occ_In string_dec (map url out) (url c)) Hin) as Hge.
      lia.
    + intros o Ho. apply (Permutation_in _ (Permutation_sym Hperm)) in Ho.
      destruct (Hfirst o Ho) as (_ & l1 & l2 & Ed & Hn).
      split; [now exists l1, l2|].
      assert (Hd : In o (discovered env (data r))).
      { rewrite Ed. apply in_or_app. right. now left. }
      destruct (discoveredFrom_origin env _ _ o Hd)
        as (el & src & k & Hel & Hsrc & _ & Hfull & _ & Eo).
      exists el, src, k. apply fullAddress_fullUrlOf in Hfull.
      split; [exact Hel|]. split; [exact Hsrc|]. split; [exact Hfull|].
      rewrite Eo. cbn [newCartoon title description date filename url]. now repeat split.
Qed.

Lemma sampleEnv_idempotent : resolveIdempotent sampleEnv.
Proof.
  intros s f. cbn [resolveUrl sampleEnv].
  destruct (prefix "https://" s) eqn:Es; intros [= <-].
  - now rewrite Es.
  - reflexivity.
Qed.

(** The hypotheses of C1 at the sample page, where one picture is found
    four times, under a relative address and under the absolute address
    that [new URL] gives for it. *)
Lemma scrape_deduplicates_witness :
  NoDup (map url (returnedOr [] (scrapeCartoons sampleEnv))) /\
  count_occ string_dec (map url (returnedOr [] (scrapeLive sampleEnv)))
    "https://www.evertkwok.nl/wp-content/uploads/2021/03/cat.jpg" = 1%nat /\
  title (hd (newCartoon sampleEnv 0 (bare "") "")
           (List.filter
              (fun c => (url c =? "https://www.evertkwok.nl/wp-content/uploads/2021/03/cat.jpg")%string)
              (returnedOr [] (scrapeLive sampleEnv)))) = "Schrodingers cat".
Proof.
  assert (Hcartoons : scrapeCartoons sampleEnv = Returned (returnedOr [] (scrapeCartoons sampleEnv)))
    by (vm_compute; reflexivity).
  assert (Hfetch : fetchWithRetry sampleEnv 1 = Returned {| data := VStr "<html>" |})
    by reflexivity.
  assert (Hlive : scrapeLive sampleEnv = Returned (returnedOr [] (scrapeLive sampleEnv)))
    by (vm_compute; reflexivity).
  pose proof (scrape_deduplicates sampleEnv sampleEnv_idempotent) as [Hnodup Hpage].
  destruct (Hpage _ _ Hfetch Hlive) as (_ & _ & Honce & _).
  split; [exact (Hnodup _ Hcartoons)|]. split.
  - apply (Honce (withAlt "The same cat"
                    (bare "https://www.evertkwok.nl/wp-content/uploads/2021/03/cat.jpg"))
                 "https://www.evertkwok.nl/wp-content/uploads/2021/03/cat.jpg").
    + vm_compute. tauto.
    + reflexivity.
    + reflexivity.
    + left. split; reflexivity.
    + reflexivity.
  - vm_compute. reflexivity.
Defined.

(** C1 as stated fails for an address written in two forms that
    [new URL] resolves to one address: the absolute form is kept as it
    is written, and the picture is listed twice. *)
Lemma absolute_src_kept_as_written :
  resolveIdempotent portEnv /\
  resolveUrl portEnv "/wp-content/uploads/2021/03/cat.jpg" =
    Returned "https://www.evertkwok.nl/wp-content/uploads/2021/03/cat.jpg" /\
  resolveUrl portEnv "https://www.evertkwok.nl:443/wp-content/uploads/2021/03/cat.jpg" =
    Returned "https://www.evertkwok.nl/wp-content/uploads/2021/03/cat.jpg" /\
  map url (returnedOr [] (scrapeCartoons portEnv)) =
    [ "https://www.evertkwok.nl/wp-content/uploads/2021/03/cat.jpg";
      "https://www.evertkwok.nl:443/wp-content/uploads/2021/03/cat.jpg" ].
Proof.
  split; [|split; [reflexivity | split; [reflexivity | vm_compute; reflexivity]]].
  intros s f. cbn [resolveUrl portEnv].
  destruct (prefix "https://www.evertkwok.nl:443/" s) eqn:Eport; [intros [= <-]; reflexivity|].
  destruct (prefix "https://" s) eqn:Ehttps; [intros [= <-]; now rewrite Eport, Ehttps|].
  destruct (prefix "/" s) eqn:Eslash; intros [= <-]; [|reflexivity].
  destruct s as [|c s]; [discriminate|]. cbn [prefix] in Eslash.
  destruct (ascii_dec "/" c) as [<-|]; [reflexivity | discriminate].
Qed.

Example sample_page_result :
  map (fun c => (url c, title c)) (returnedOr [] (scrapeCartoons sampleEnv)) =
  [ ("https://www.evertkwok.nl/wp-content/uploads/2022/05/pi.jpg", "Pi");
    ("https://www.evertkwok.nl/wp-content/uploads/2021/03/cat.jpg", "Schrodingers cat");
    ("https://www.evertkwok.nl/wp-content/uploads/2021/03/dog.jpg", "Dog") ].
Proof. vm_compute. reflexivity. Qed.

(** Two pictures dated by the clock a millisecond apart do not have the
    same date: the one found last comes first. *)
Example undated_pictures_latest_first :
  map (fun c => (url c, date c - november2026)) (returnedOr [] (scrapeCartoons undatedEnv)) =
  [ ("https://www.evertkwok.nl/wp-content/uploads/second.jpg", 1);
    ("https://www.evertkwok.nl/wp-content/uploads/first.jpg", 0) ].
Proof. vm_compute. reflexivity. Qed.

(** * Further properties *)

(** ** escapeXml: what the escaped text is like *)

Lemma entities_app (s t : string) : entities (s ++ t) = entities s ++ entities t.
Proof.
  induction s as [|a s IH]; [reflexivity|].
  cbn [append entities]. now rewrite IH, append_assoc.
Qed.

(** X1. Escaping goes through concatenation: the escaped text of two
    strings put together is the escaped texts put together, so a text may
    be escaped piece by piece. *)
Theorem escapeXml_concat (s t : string) :
  escapeXmlString (s ++ t) = escapeXmlString s ++ escapeXmlString t /\
  escapeXml (VStr (s ++ t)) =
    (a <- escapeXml (VStr s) ;; b <- escapeXml (VStr t) ;; Returned (a ++ b)).
Proof.
  split.
  - rewrite !escapeXmlString_entities. apply entities_app.
  - rewrite !escapeXml_string. cbn [bind]. now rewrite entities_app.
Qed.

Lemma entity_cases (a : ascii) :
  (a = "&"%char /\ entity a = "&amp;") \/
  (a = "<"%char /\ entity a = "&lt;") \/
  (a = ">"%char /\ entity a = "&gt;") \/
  (a = quot /\ entity a = "&quot;") \/
  (a = "'"%char /\ entity a = "&apos;") \/
  (special a = false /\ entity a = String a EmptyString).
Proof.
  unfold entity, special.
  destruct (Ascii.eqb_spec a "&") as [->|_]; [now left|].
  destruct (Ascii.eqb_spec a "<") as [->|_]; [right; now left|].
  destruct (Ascii.eqb_spec a ">") as [->|_]; [do 2 right; now left|].
  destruct (Ascii.eqb_spec a quot) as [->|_]; [do 3 right; now left|].
  destruct (Ascii.eqb_spec a "'") as [->|_]; [do 4 right; now left|].
  do 5 right. now split.
Qed.

Lemma special_amp_or (c : ascii) :
  special c = Ascii.eqb c "&" ||
              (Ascii.eqb c "<" || Ascii.eqb c ">" || Ascii.eqb c quot || Ascii.eqb c "'").
Proof. unfold special. now rewrite !orb_assoc. Qed.

Lemma entities_markup_free (s : string) :
  JS.existsb (fun c => Ascii.eqb c "<" || Ascii.eqb c ">" || Ascii.eqb c quot || Ascii.eqb c "'")
    (entities s) = false.
Proof.
  induction s as [|a s IH]; [reflexivity|].
  cbn [entities]. rewrite existsb_app, IH, orb_false_r.
  destruct (entity_cases a) as [[-> ->]|[[-> ->]|[[-> ->]|[[-> ->]|[[-> ->]|[Hs ->]]]]]];
    try reflexivity.
  cbn [JS.existsb]. rewrite special_amp_or in Hs.
  apply orb_false_elim in Hs. destruct Hs as [_ ->]. reflexivity.
Qed.

Lemma onlyEntities_entity (e t : string) :
  In e ["&amp;"; "&lt;"; "&gt;"; "&quot;"; "&apos;"] ->
  onlyEntities (e ++ t) = onlyEntities t.
Proof.
  intros [<-|[<-|[<-|[<-|[<-|[]]]]]]; destruct t; reflexivity.
Qed.

Lemma entities_onlyEntities (s : string) : onlyEntities (entities s) = true.
Proof.
  induction s as [|a s IH]; [reflexivity|].
  cbn [entities].
  destruct (entity_cases a) as [[_ ->]|[[_ ->]|[[_ ->]|[[_ ->]|[[_ ->]|[Hs ->]]]]]];
    try (rewrite onlyEntities_entity; [exact IH | cbn [In]; tauto]).
  cbn [append onlyEntities]. rewrite IH, andb_true_r.
  rewrite special_amp_or in Hs. apply orb_false_elim in Hs. destruct Hs as [-> _].
  reflexivity.
Qed.

(** X2. Escaped text is safe to put into markup: it holds no less-than
    sign, no greater-than sign, no double quote and no apostrophe, and
    every ampersand in it starts one of the five entities. *)
Theorem escapeXml_output_safe (v : value) :
  exists out,
    escapeXml v = Returned out /\
    JS.existsb (fun c => Ascii.eqb c "<" || Ascii.eqb c ">" || Ascii.eqb c quot || Ascii.eqb c "'")
      out = false /\
    onlyEntities out = true.
Proof.
  destruct v as [| |s].
  - exists "". repeat split.
  - exists "". repeat split.
  - exists (entities s). split; [apply escapeXml_string|].
    split; [apply entities_markup_free | apply entities_onlyEntities].
Qed.

Lemma entity_nonempty (a : ascii) (s : string) : entity a ++ s <> "".
Proof.
  destruct (entity_cases a) as [[_ ->]|[[_ ->]|[[_ ->]|[[_ ->]|[[_ ->]|[_ ->]]]]]];
    discriminate.
Qed.

Lemma special_false (a : ascii) :
  special a = false ->
  a <> "&"%char /\ a <> "<"%char /\ a <> ">"%char /\ a <> quot /\ a <> "'"%char.
Proof.
  unfold special. intros H.
  repeat (apply orb_false_elim in H; destruct H as [H ?]).
  repeat split; intros ->; discriminate.
Qed.

Lemma entities_injective (s t : string) : entities s = entities t -> s = t.
Proof.
  revert t. induction s as [|a s IH]; intros [|b t] H.
  - reflexivity.
  - cbn [entities] in H. symmetry in H. now apply entity_nonempty in H.
  - cbn [entities] in H. now apply entity_nonempty in H.
  - cbn [entities] in H.
    destruct (entity_cases a) as [[-> Ea]|[[-> Ea]|[[-> Ea]|[[-> Ea]|[[-> Ea]|[Ha Ea]]]]]];
      destruct (entity_cases b) as [[-> Eb]|[[-> Eb]|[[-> Eb]|[[-> Eb]|[[-> Eb]|[Hb Eb]]]]]];
      rewrite ?Ea, ?Eb in H; cbn [append] in H;
      try (injection H as H; f_equal; now apply IH);
      try discriminate;
      try (apply special_false in Hb; injection H as H1 H2; subst; tauto);
      try (apply special_false in Ha; injection H as H1 H2; subst; tauto).
    injection H as -> H. f_equal. now apply IH.
Qed.

(** X3. Escaping loses nothing: two strings with the same escaped text
    are the same string. *)
Theorem escapeXml_injective (s t : string) :
  escapeXml (VStr s) = escapeXml (VStr t) -> s = t.
Proof.
  rewrite !escapeXml_string. intros [= H]. now apply entities_injective.
Qed.

Lemma escapeXml_injective_witness : "a<b" = "a<b".
Proof. apply escapeXml_injective. reflexivity. Defined.

Lemma entities_plain (s : string) : JS.existsb special s = false -> entities s = s.
Proof.
  induction s as [|a s IH]; [reflexivity|].
  cbn [JS.existsb entities]. intros H. apply orb_false_elim in H. destruct H as [Ha Hs].
  rewrite (IH Hs).
  destruct (entity_cases a) as [[-> _]|[[-> _]|[[-> _]|[[-> _]|[[-> _]|[_ ->]]]]]];
    try discriminate.
  reflexivity.
Qed.

Lemma entities_special_longer (s : string) :
  JS.existsb special s = true -> (length s < length (entities s))%nat.
Proof.
  induction s as [|a s IH]; cbn [JS.existsb entities length]; [discriminate|].
  intros H. rewrite length_app. pose proof (entities_length s) as Hle.
  destruct (entity_cases a) as [[-> ->]|[[-> ->]|[[-> ->]|[[-> ->]|[[-> ->]|[Hs ->]]]]]];
    try (cbn [length]; lia).
  rewrite Hs in H. cbn [orb] in H. specialize (IH H). cbn [length]. lia.
Qed.

(** X4. Escaping leaves a string as it is exactly when the string holds
    none of the five special characters; any other string gets longer. *)
Theorem escapeXml_unchanged_iff (s : string) :
  (escapeXml (VStr s) = Returned s <-> JS.existsb special s = false) /\
  (JS.existsb special s = true ->
   exists out, escapeXml (VStr s) = Returned out /\ (length s < length out)%nat).
Proof.
  rewrite escapeXml_string. split; [split|].
  - intros [= H]. destruct (JS.existsb special s) eqn:E; [|reflexivity].
    apply entities_special_longer in E. rewrite H in E. lia.
  - intros H. now rewrite entities_plain.
  - intros H. exists (entities s). split; [reflexivity | now apply entities_special_longer].
Qed.

Lemma escapeXml_unchanged_iff_witness :
  escapeXml (VStr "Pi and tau") = Returned "Pi and tau" /\
  exists out, escapeXml (VStr "1 < 2") = Returned out /\ (length "1 < 2" < length out)%nat.
Proof.
  split.
  - apply (proj2 (proj1 (escapeXml_unchanged_iff "Pi and tau"))). reflexivity.
  - apply (proj2 (escapeXml_unchanged_iff "1 < 2")). reflexivity.
Defined.

(** ** cleanTitle: the characters of a cleaned title *)

(** X5. A cleaned title is made of letters, digits, underscores, plain
    spaces and the marks - . , ! ? only; it does not start with a space;
    and escaping it for the feed leaves it as it is. *)
Theorem cleanTitle_plain (t : string) :
  JS.forallb titleChar (cleanTitle t) = true /\
  (forall a r, cleanTitle t = String a r -> JS.isSpace a = false) /\
  escapeXml (VStr (cleanTitle t)) = Returned (cleanTitle t).
Proof.
  split; [apply cleanTitle_chars|]. split.
  - intros a r H. unfold cleanTitle, JS.trim in H.
    apply substring0_head in H. destruct H as [r1 H].
    apply trimEnd_head in H. destruct H as [r2 H].
    now apply trimStart_head in H.
  - rewrite escapeXml_string, entities_plain; [reflexivity|].
    apply (forallb_not_exists titleChar); [apply titleChar_not_special | apply cleanTitle_chars].
Qed.

Lemma cleanTitle_plain_witness : JS.isSpace "E" = false.
Proof.
  apply (proj1 (proj2 (cleanTitle_plain "  E = mc<sup>2</sup> ")) "E"%char "  mcsup2sup").
  reflexivity.
Defined.

(** ** removeDuplicates *)

Lemma removeDuplicatesFrom_distinct (seen : list string) (l : list cartoon) :
  NoDup (map url l) -> (forall c, In c l -> has seen (url c) = false) ->
  removeDuplicatesFrom seen l = l.
Proof.
  revert seen. induction l as [|c l IH]; intros seen Hnd Hseen; [reflexivity|].
  cbn [removeDuplicatesFrom]. rewrite (Hseen c (or_introl eq_refl)).
  cbn [map] in Hnd. inversion Hnd as [|u us Hnotin Hnd']; subst.
  f_equal. apply IH; [exact Hnd'|].
  intros c' Hc'. rewrite has_cons, (Hseen c' (or_intror Hc')), orb_false_r.
  apply String.eqb_neq. intros E. apply Hnotin. rewrite <- E. now apply in_map.
Qed.

Lemma removeDuplicatesFrom_length (seen : list string) (l : list cartoon) :
  (List.length (removeDuplicatesFrom seen l) <= List.length l)%nat.
Proof.
  revert seen. induction l as [|c l IH]; intros seen; [reflexivity|].
  cbn [removeDuplicatesFrom]. destruct (has seen (url c)); cbn [List.length].
  - specialize (IH seen). lia.
  - specialize (IH (url c :: seen)). lia.
Qed.

(** X6. [removeDuplicates] returns its argument exactly when the
    addresses in it are distinct; applied twice it gives what it gives
    applied once; and it never makes a list longer. *)
Theorem removeDuplicates_fixed (l : list cartoon) :
  (removeDuplicates l = l <-> NoDup (map url l)) /\
  removeDuplicates (removeDuplicates l) = removeDuplicates l /\
  (List.length (removeDuplicates l) <= List.length l)%nat.
Proof.
  assert (Hfix : forall l', NoDup (map url l') -> removeDuplicates l' = l').
  { intros l' H. apply removeDuplicatesFrom_distinct; [exact H | reflexivity]. }
  pose proof (proj1 (removeDuplicatesFrom_spec [] l)) as Hnd.
  fold (removeDuplicates l) in Hnd.
  split; [split|split].
  - intros E. now rewrite <- E.
  - apply Hfix.
  - now apply Hfix.
  - apply removeDuplicatesFrom_length.
Qed.

Lemma removeDuplicates_fixed_witness :
  removeDuplicates (discovered undatedEnv (VStr "<html>")) = discovered undatedEnv (VStr "<html>").
Proof.
  apply (proj2 (proj1 (removeDuplicates_fixed (discovered undatedEnv (VStr "<html>"))))).
  vm_compute. repeat constructor; cbn; intuition discriminate.
Defined.

(** ** fetchWithRetry: which attempt answers, and the waits *)

(** X7. [fetchWithRetry] returns the response of the first of the three
    attempts that succeeds, and returns in no other case.  An attempt
    succeeds when its request is answered with a body; a response
    without a body makes the attempt fail like an error of the request.
    Called with the number of the last attempt or a larger one,
    [fetchWithRetry] makes a single attempt and retries nothing. *)
Theorem fetchWithRetry_first_success (env : Env) :
  (forall r,
     fetchWithRetry env 1 = Returned r <->
     attemptOnce env 1 = Returned r \/
     (exists e1, attemptOnce env 1 = Thrown e1 /\ attemptOnce env 2 = Returned r) \/
     (exists e1 e2, attemptOnce env 1 = Thrown e1 /\ attemptOnce env 2 = Thrown e2 /\
                    attemptOnce env 3 = Returned r)) /\
  (forall attempt r,
     attemptOnce env attempt = Returned r <->
     axios_get env attempt = Returned r /\ exists s, data r = VStr s) /\
  (forall attempt r,
     axios_get env attempt = Returned r -> data r = VNull \/ data r = VUndefined ->
     exists e, attemptOnce env attempt = Thrown e) /\
  (forall attempt, (3 <= attempt)%nat -> fetchWithRetry env attempt = attemptOnce env attempt).
Proof.
  split; [|split; [|split]].
  - intros r. unfold fetchWithRetry. cbn [maxRetries Nat.sub fetchWithRetryFrom].
    destruct (attemptOnce env 1) as [r1|e1]; cbn [try_catch Nat.ltb Nat.leb maxRetries].
    { split; [intros [= ->]; now left|].
      intros [H|[(e & H & _)|(e & e' & H & _)]]; congruence. }
    destruct (attemptOnce env 2) as [r2|e2]; cbn [try_catch Nat.ltb Nat.leb maxRetries].
    { split; [intros [= ->]; right; left; now exists e1|].
      intros [H|[(e & _ & H)|(e & e' & _ & H & _)]]; congruence. }
    destruct (attemptOnce env 3) as [r3|e3]; cbn [try_catch Nat.ltb Nat.leb maxRetries].
    { split; [intros [= ->]; right; right; now exists e1, e2|].
      intros [H|[(e & _ & H)|(e & e' & _ & _ & H)]]; congruence. }
    split; [discriminate|].
    intros [H|[(e & _ & H)|(e & e' & _ & _ & H)]]; discriminate.
  - apply attemptOnce_returned.
  - intros attempt r Hr Hd. unfold attemptOnce. rewrite Hr. cbn [bind].
    destruct Hd as [-> | ->]; cbn [lengthOf bind]; eexists; reflexivity.
  - intros attempt Ha. unfold fetchWithRetry.
    replace (maxRetries - attempt)%nat with 0%nat by (unfold maxRetries; lia).
    cbn [fetchWithRetryFrom].
    destruct (attemptOnce env attempt) as [r|e]; cbn [try_catch]; [reflexivity|].
    destruct (attempt <? maxRetries)%nat; reflexivity.
Qed.

Lemma fetchWithRetry_first_success_witness :
  fetchWithRetry sampleEnv 1 = Returned {| data := VStr "<html>" |} /\
  (exists e, attemptOnce noBodyEnv 1 = Thrown e) /\
  fetchWithRetry sampleEnv 3 = attemptOnce sampleEnv 3.
Proof.
  split; [|split].
  - apply (proj1 (fetchWithRetry_first_success sampleEnv)).
    right. left. exists (NetworkError "timeout of 15000ms exceeded"). split; reflexivity.
  - apply (proj1 (proj2 (proj2 (fetchWithRetry_first_success noBodyEnv))) 1%nat
             {| data := VNull |}); [reflexivity | now left].
  - apply (proj2 (proj2 (proj2 (fetchWithRetry_first_success sampleEnv)))). lia.
Defined.

(** X8. The requests and the waits of [fetchWithRetry]: it returns what
    the function without the trace returns; it sends one, two or three
    requests, numbered in order; before the second one it waits 2000
    milliseconds and before the third one 4000; it does not wait after
    the attempt that decides.  A first response without a body is
    followed by the wait and the second request. *)
Theorem fetchWithRetry_waits (env : Env) :
  (forall attempt,
     fst (fetchWithRetryTrace (maxRetries - attempt) env attempt) = fetchWithRetry env attempt) /\
  In (snd (fetchWithRetryTrace (maxRetries - 1) env 1))
     [ [Request 1];
       [Request 1; Wait 2000; Request 2];
       [Request 1; Wait 2000; Request 2; Wait 4000; Request 3] ] /\
  (forall r, attemptOnce env 1 = Returned r ->
     snd (fetchWithRetryTrace (maxRetries - 1) env 1) = [Request 1]) /\
  (forall e1 e2, attemptOnce env 1 = Thrown e1 -> attemptOnce env 2 = Thrown e2 ->
     snd (fetchWithRetryTrace (maxRetries - 1) env 1) =
     [Request 1; Wait 2000; Request 2; Wait 4000; Request 3]) /\
  (forall r, axios_get env 1%nat = Returned r -> data r = VNull \/ data r = VUndefined ->
     exists rest,
       snd (fetchWithRetryTrace (maxRetries - 1) env 1) =
       Request 1 :: Wait 2000 :: Request 2 :: rest).
Proof.
  split; [|split; [|split; [|split]]].
  - intros attempt. unfold fetchWithRetry.
    generalize (maxRetries - attempt)%nat as left. intros left. revert attempt.
    induction left as [|left IH]; intros attempt; cbn [fetchWithRetryTrace fetchWithRetryFrom].
    + destruct (attemptOnce env attempt) as [r|e]; cbn [try_catch fst]; [reflexivity|].
      destruct (attempt <? maxRetries)%nat; reflexivity.
    + destruct (attemptOnce env attempt) as [r|e]; cbn [try_catch fst]; [reflexivity|].
      destruct (attempt <? maxRetries)%nat; [|reflexivity].
      specialize (IH (S attempt)).
      destruct (fetchWithRetryTrace left env (S attempt)) as [res evs]. exact IH.
  - cbn [maxRetries Nat.sub fetchWithRetryTrace].
    destruct (attemptOnce env 1) as [r1|e1]; [left; reflexivity|].
    cbn [Nat.ltb Nat.leb maxRetries].
    destruct (attemptOnce env 2) as [r2|e2]; [right; left; reflexivity|].
    cbn [Nat.ltb Nat.leb maxRetries].
    destruct (attemptOnce env 3) as [r3|e3]; right; right; left; reflexivity.
  - intros r H. cbn [maxRetries Nat.sub fetchWithRetryTrace]. now rewrite H.
  - intros e1 e2 H1 H2. cbn [maxRetries Nat.sub fetchWithRetryTrace].
    rewrite H1. cbn [Nat.ltb Nat.leb maxRetries]. rewrite H2.
    cbn [Nat.ltb Nat.leb maxRetries].
    destruct (attemptOnce env 3); reflexivity.
  - intros r Hr Hd.
    assert (H1 : exists e, attemptOnce env 1 = Thrown e).
    { unfold attemptOnce. rewrite Hr. cbn [bind].
      destruct Hd as [-> | ->]; cbn [lengthOf bind]; eexists; reflexivity. }
    destruct H1 as [e1 H1]. cbn [maxRetries Nat.sub fetchWithRetryTrace].
    rewrite H1. cbn [Nat.ltb Nat.leb maxRetries].
    destruct (attemptOnce env 2) as [r2|e2]; [now exists []|].
    cbn [Nat.ltb Nat.leb maxRetries].
    destruct (attemptOnce env 3); eexists; reflexivity.
Qed.

Lemma fetchWithRetry_waits_witness :
  snd (fetchWithRetryTrace (maxRetries - 1) brokenPageEnv 1) = [Request 1] /\
  snd (fetchWithRetryTrace (maxRetries - 1) offlineEnv 1) =
    [Request 1; Wait 2000; Request 2; Wait 4000; Request 3] /\
  exists rest,
    snd (fetchWithRetryTrace (maxRetries - 1) noBodyEnv 1) =
    Request 1 :: Wait 2000 :: Request 2 :: rest.
Proof.
  split; [|split].
  - apply (proj1 (proj2 (proj2 (fetchWithRetry_waits brokenPageEnv)))
             {| data := VStr "<html>" |}).
    reflexivity.
  - apply (proj1 (proj2 (proj2 (proj2 (fetchWithRetry_waits offlineEnv))))
             (NetworkError "timeout of 15000ms exceeded")
             (NetworkError "timeout of 15000ms exceeded")); reflexivity.
  - apply (proj2 (proj2 (proj2 (proj2 (fetchWithRetry_waits noBodyEnv))))
             {| data := VNull |}); [reflexivity | now left].
Defined.

(** ** isValidCartoonUrl *)

Lemma prefix_nil (s : string) : prefix "" s = true.
Proof. now destruct s. Qed.

Lemma prefix_app_r (p s t : string) : prefix p s = true -> prefix p (s ++ t) = true.
Proof.
  revert p. induction s as [|a s IH]; intros p H.
  - destruct p; [apply prefix_nil | discriminate].
  - cbn [append prefix] in *. destruct p as [|b p]; [reflexivity|].
    destruct (ascii_dec b a); [now apply IH | discriminate].
Qed.

Lemma includes_app_r (p s t : string) :
  JS.includes p s = true -> JS.includes p (s ++ t) = true.
Proof.
  induction s as [|a s IH]; intros H.
  - destruct p; [destruct t; reflexivity | discriminate].
  - rewrite includes_cons in H. cbn [append]. rewrite includes_cons.
    apply orb_true_iff in H. destruct H as [H|H].
    + change (String a (s ++ t)) with (String a s ++ t).
      now rewrite (prefix_app_r p (String a s) t H).
    + rewrite (IH H). apply orb_true_r.
Qed.

Lemma includes_app_l (p s t : string) :
  JS.includes p s = true -> JS.includes p (t ++ s) = true.
Proof.
  intros H. induction t as [|a t IH]; [exact H|].
  cbn [append]. rewrite includes_cons, IH. apply orb_true_r.
Qed.

Lemma map_app (f : ascii -> ascii) (s t : string) :
  JS.map f (s ++ t) = JS.map f s ++ JS.map f t.
Proof. induction s as [|a s IH]; [reflexivity|]. cbn [append JS.map]. now rewrite IH. Qed.

Lemma toLower_toUpper (c : ascii) : JS.toLowerChar (JS.toUpperChar c) = JS.toLowerChar c.
Proof. destruct c as [[] [] [] [] [] [] [] []]; reflexivity. Qed.

Lemma toUpperChar_ascii (c : ascii) : JS.isAscii c = true -> JS.isAscii (JS.toUpperChar c) = true.
Proof.
  destruct c as [[] [] [] [] [] [] [] []]; vm_compute; intros H;
    first [reflexivity | discriminate H].
Qed.

Lemma forallb_map (p : ascii -> bool) (f : ascii -> ascii) (s : string) :
  (forall c, p c = true -> p (f c) = true) ->
  JS.forallb p s = true -> JS.forallb p (JS.map f s) = true.
Proof.
  intros Hf. induction s as [|a s IH]; [reflexivity|].
  cbn [JS.map JS.forallb]. intros H. apply andb_prop in H. destruct H as [Ha Hs].
  now rewrite (Hf a Ha), (IH Hs).
Qed.

Lemma map_lower_upper (s : string) :
  JS.map JS.toLowerChar (JS.map JS.toUpperChar s) = JS.map JS.toLowerChar s.
Proof.
  induction s as [|a s IH]; [reflexivity|].
  cbn [JS.map]. now rewrite toLower_toUpper, IH.
Qed.

Lemma existsb_includes_app (ps : list string) (pre s post : string) :
  List.existsb (fun p => JS.includes p s) ps = true ->
  List.existsb (fun p => JS.includes p (pre ++ s ++ post)) ps = true.
Proof.
  rewrite !List.existsb_exists. intros (p & Hin & Hp). exists p. split; [exact Hin|].
  now apply includes_app_l, includes_app_r.
Qed.

(** X9. For addresses in ASCII, where the engine changes the case of
    the letters A to Z and a to z only: an address that is excluded
    stays excluded when text is put before it or after it, and the
    letter case plays no part, the address in upper case gets the same
    verdict. *)
Theorem isValidCartoonUrl_excluded {Eng : Engine} (u : string) :
  asciiCase Eng -> JS.forallb JS.isAscii u = true ->
  (forall pre post,
     JS.forallb JS.isAscii pre = true -> JS.forallb JS.isAscii post = true ->
     isValidCartoonUrl u = false -> isValidCartoonUrl (pre ++ u ++ post) = false) /\
  isValidCartoonUrl (toUpperCase u) = isValidCartoonUrl u.
Proof.
  intros Hcase Hu. split.
  - intros pre post Hpre Hpost. unfold isValidCartoonUrl.
    assert (Hall : JS.forallb JS.isAscii (pre ++ u ++ post) = true)
      by (now rewrite !forallb_app, Hpre, Hu, Hpost).
    destruct (Hcase u Hu) as [-> _]. destruct (Hcase _ Hall) as [-> _].
    rewrite !map_app. intros H. apply negb_false_iff in H. apply negb_false_iff.
    now apply existsb_includes_app.
  - unfold isValidCartoonUrl.
    destruct (Hcase u Hu) as [-> ->].
    assert (Hup : JS.forallb JS.isAscii (JS.map JS.toUpperChar u) = true)
      by (apply forallb_map; [exact toUpperChar_ascii | exact Hu]).
    destruct (Hcase _ Hup) as [-> _]. now rewrite map_lower_upper.
Qed.

Lemma isValidCartoonUrl_excluded_witness :
  isValidCartoonUrl
    ("https://www.evertkwok.nl/wp-content/uploads/" ++ "Logo" ++ "-2021.png") = false /\
  isValidCartoonUrl (toUpperCase "Logo") = isValidCartoonUrl "Logo".
Proof.
  pose proof (isValidCartoonUrl_excluded (Eng := asciiEngine) "Logo" asciiEngine_case eq_refl)
    as [Hput Hcase].
  split; [|exact Hcase].
  apply Hput; reflexivity.
Defined.

(** ** The scraping stage: what the items are like *)

Lemma extractDescription_bounds {Eng : Engine} (el : element) :
  (11 <= length (extractDescription el))%nat /\
  ((length (extractDescription el) <= 203)%nat \/
   length (extractDescription el) = (155 + length (toLowerCase (extractTitle el)))%nat).
Proof.
  destruct (find descriptionAccepted (descriptionCandidates el)) as [c|] eqn:Hf.
  - destruct (extractDescription_accepted el c Hf) as (_ & Hd & _). split; [lia | left; lia].
  - destruct (extractDescription_template el Hf) as [_ Hlen]. split; [lia | now right].
Qed.

Lemma visit_keeps {Eng : Engine} (env : Env) (P : cartoon -> Prop) (st st1 : loopState) (el : element) :
  (forall n src fullUrl,
     attr_src el = Some src -> JS.includes "wp-content/uploads" src = true ->
     fullUrlOf env src = Returned fullUrl -> isValidCartoonUrl fullUrl = true ->
     P (newCartoon env n el fullUrl)) ->
  Forall P (cartoons st) -> visit env st el = Returned st1 -> Forall P (cartoons st1).
Proof.
  intros Hnew Hst. unfold visit.
  destruct (attr_src el) as [imgSrc|]; [|now intros [= <-]].
  destruct (negb (imgSrc =? "")%string) eqn:Hne; cbn [andb]; [|now intros [= <-]].
  destruct (JS.includes "wp-content/uploads" imgSrc) eqn:Hinc; cbn [andb]; [|now intros [= <-]].
  destruct (has (foundUrls st) imgSrc); cbn [negb]; [now intros [= <-]|].
  destruct (fullUrlOf env imgSrc) as [fullUrl|e] eqn:Hfull; cbn [bind]; [|discriminate].
  destruct (isValidCartoonUrl fullUrl) eqn:Hvalid; cbn [negb]; intros [= <-]; [|exact Hst].
  cbn [cartoons]. apply Forall_app. split; [exact Hst|].
  constructor; [|constructor]. now apply (Hnew (visited st) imgSrc).
Qed.

Lemma foldM_visit_keeps {Eng : Engine} (env : Env) (P : cartoon -> Prop) (els : list element) :
  (forall el n src fullUrl,
     In el els ->
     attr_src el = Some src -> JS.includes "wp-content/uploads" src = true ->
     fullUrlOf env src = Returned fullUrl -> isValidCartoonUrl fullUrl = true ->
     P (newCartoon env n el fullUrl)) ->
  forall st st', Forall P (cartoons st) -> foldM (visit env) st els = Returned st' ->
                 Forall P (cartoons st').
Proof.
  induction els as [|el els IH]; intros Hnew st st' Hst Hfold.
  - cbn in Hfold. now injection Hfold as <-.
  - cbn [foldM] in Hfold.
    destruct (visit env st el) as [st1|e] eqn:Hv; cbn [bind] in Hfold; [|discriminate].
    apply (IH (fun el' n src f Hin => Hnew el' n src f (or_intror Hin)) st1 st'); [|exact Hfold].
    apply (visit_keeps env P st st1 el); [|exact Hst | exact Hv].
    intros n src f. apply Hnew. now left.
Qed.

Lemma removeDuplicatesFrom_incl (seen : list string) (l : list cartoon) (c : cartoon) :
  In c (removeDuplicatesFrom seen l) -> In c l.
Proof.
  revert seen. induction l as [|a l IH]; intros seen; [intros []|].
  cbn [removeDuplicatesFrom]. destruct (has seen (url a)).
  - intros H. right. now apply (IH seen).
  - intros [<-|H]; [now left | right; now apply (IH (url a :: seen))].
Qed.

(** X10. Every item of a scraped list comes from an element of the page
    whose [src] holds the uploads marker: its address is the full
    address of that [src] and passes [isValidCartoonUrl], its title and
    description are those extracted for the element, its file name is
    the last segment of its address.  Its title has at most 80
    characters; its description has at least 11, and either at most 203
    or the 155 of the fixed sentence and those of its title in lower
    case. *)
Theorem scrapeLive_items {Eng : Engine} (env : Env) (r : response) (out : list cartoon) :
  fetchWithRetry env 1 = Returned r ->
  scrapeLive env = Returned out ->
  forall c, In c out ->
    isValidCartoonUrl (url c) = true /\
    filename c = basename (url c) /\
    (length (title c) <= 80)%nat /\
    (11 <= length (description c))%nat /\
    ((length (description c) <= 203)%nat \/
     length (description c) = (155 + length (toLowerCase (title c)))%nat) /\
    exists el src,
      In el (pooled env (data r)) /\ attr_src el = Some src /\
      JS.includes "wp-content/uploads" src = true /\
      fullAddress env src (url c) /\
      title c = extractTitle el /\ description c = extractDescription el.
Proof.
  intros Hf Hlive c Hc.
  destruct (scrapeLive_returned env out Hlive) as (r' & st & Hf' & Hcol & ->).
  rewrite Hf in Hf'. injection Hf' as <-.
  apply (Permutation_in _ (Permutation_sym (sort_perm date _))) in Hc.
  apply removeDuplicatesFrom_incl in Hc.
  rewrite collect_pooled in Hcol.
  revert c Hc. apply Forall_forall.
  apply (foldM_visit_keeps env _ (pooled env (data r))) with (st := initialState) (st' := st);
    [|constructor | exact Hcol].
  intros el n src f Hin Hsrc Hinc Hfull Hvalid. cbn [newCartoon url title description filename].
  split; [exact Hvalid|]. split; [reflexivity|].
  split; [apply extractTitle_length_bound|].
  split; [apply extractDescription_bounds|]. split; [apply extractDescription_bounds|].
  exists el, src. apply fullAddress_fullUrlOf in Hfull. now repeat split.
Qed.

Lemma scrapeLive_items_witness :
  Forall (fun c =>
    isValidCartoonUrl (url c) = true /\
    filename c = basename (url c) /\
    (length (title c) <= 80)%nat /\
    (11 <= length (description c))%nat /\
    ((length (description c) <= 203)%nat \/
     length (description c) = (155 + length (toLowerCase (title c)))%nat) /\
    exists el src,
      In el (pooled sampleEnv (VStr "<html>")) /\ attr_src el = Some src /\
      JS.includes "wp-content/uploads" src = true /\
      fullAddress sampleEnv src (url c) /\
      title c = extractTitle el /\ description c = extractDescription el)
    (returnedOr [] (scrapeLive sampleEnv)).
Proof.
  apply Forall_forall.
  apply (scrapeLive_items sampleEnv {| data := VStr "<html>" |}); vm_compute; reflexivity.
Defined.

Lemma foldM_visit_nothing {Eng : Engine} (env : Env) (els : list element) :
  (forall el, In el els ->
     match attr_src el with
     | Some src => JS.includes "wp-content/uploads" src = false
     | None => True
     end) ->
  forall st, exists st',
    foldM (visit env) st els = Returned st' /\ cartoons st' = cartoons st.
Proof.
  induction els as [|el els IH]; intros Hels st; [now exists st|].
  cbn [foldM].
  assert (Hv : exists st1, visit env st el = Returned st1 /\ cartoons st1 = cartoons st).
  { unfold visit. specialize (Hels el (or_introl eq_refl)).
    destruct (attr_src el) as [src|]; [|eexists; split; reflexivity].
    rewrite Hels, andb_false_r. cbn [andb]. eexists; split; reflexivity. }
  destruct Hv as (st1 & -> & E1). cbn [bind].
  destruct (IH (fun el' H => Hels el' (or_intror H)) st1) as (st' & Hf & E').
  exists st'. split; [exact Hf | congruence].
Qed.

(** X11. When the page is fetched and none of the elements the
    selectors find has a [src] with the uploads marker, [scrapeCartoons]
    returns the empty list: the fallback generator, whose list has eight
    items, is used only when something throws. *)
Theorem scrapeCartoons_empty_page {Eng : Engine} (env : Env) (r : response) :
  fetchWithRetry env 1 = Returned r ->
  (forall el, In el (pooled env (data r)) ->
     match attr_src el with
     | Some src => JS.includes "wp-content/uploads" src = false
     | None => True
     end) ->
  scrapeCartoons env = Returned [] /\ scrapeCartoons env <> Returned (getDemoData env).
Proof.
  intros Hf Hnone.
  assert (E : scrapeCartoons env = Returned []).
  { unfold scrapeCartoons, scrapeLive. rewrite Hf. cbn [bind]. rewrite collect_pooled.
    destruct (foldM_visit_nothing env (pooled env (data r)) Hnone initialState)
      as (st & -> & Hst).
    cbn [bind try_catch]. rewrite Hst. reflexivity. }
  split; [exact E|]. rewrite E. intros [= H].
  pose proof (getDemoData_length env) as Hlen. rewrite <- H in Hlen. discriminate.
Qed.

Lemma scrapeCartoons_empty_page_witness : scrapeCartoons plainPageEnv = Returned [].
Proof.
  refine (proj1 (scrapeCartoons_empty_page plainPageEnv {| data := VStr "<html>" |} eq_refl _)).
  intros el Hin. vm_compute in Hin.
  repeat (destruct Hin as [<-|Hin]; [reflexivity|]). destruct Hin.
Defined.

(** ** extractDateFromUrl: an address without digits *)

Lemma takeDigits_none (n : nat) (s : string) :
  JS.existsb JS.isDigit s = false -> Re.takeDigits (S n) s = None.
Proof.
  destruct s as [|a s]; [reflexivity|].
  cbn [JS.existsb Re.takeDigits]. intros H. apply orb_false_elim in H.
  destruct H as [-> _]. reflexivity.
Qed.

Lemma matchHere_no_digit (ps : list Re.piece) (s : string) :
  (exists n, In (Re.Digits (S n)) ps) ->
  JS.existsb JS.isDigit s = false -> Re.matchHere ps s = None.
Proof.
  revert s. induction ps as [|p ps IH]; intros s [n Hin] Hs; [destruct Hin|].
  destruct Hin as [->|Hin].
  - cbn [Re.matchHere]. now rewrite takeDigits_none.
  - assert (Hex : exists n, In (Re.Digits (S n)) ps) by now exists n.
    destruct p as [c|m| |]; cbn [Re.matchHere].
    + destruct s as [|a s]; [reflexivity|].
      destruct (Ascii.eqb a c); [|reflexivity].
      apply IH; [exact Hex|]. cbn [JS.existsb] in Hs. now apply orb_false_elim in Hs.
    + destruct m as [|m]; [|now rewrite takeDigits_none].
      cbn [Re.takeDigits]. now rewrite (IH s Hex Hs).
    + destruct s as [|a s]; [now apply IH|].
      assert (Hs' : JS.existsb JS.isDigit s = false).
      { cbn [JS.existsb] in Hs. now apply orb_false_elim in Hs. }
      destruct (Re.isSep a); rewrite ?(IH s Hex Hs'), (IH (String a s) Hex Hs); reflexivity.
    + destruct s as [|a s]; [now apply IH|].
      destruct (JS.isDigit a); [reflexivity | now apply IH].
Qed.

Lemma search_no_digit (ps : list Re.piece) (s : string) :
  (exists n, In (Re.Digits (S n)) ps) ->
  JS.existsb JS.isDigit s = false -> Re.search ps s = None.
Proof.
  intros Hex. induction s as [|a s IH]; intros Hs.
  - cbn [Re.search]. now rewrite matchHere_no_digit.
  - cbn [Re.search]. rewrite (matchHere_no_digit _ _ Hex Hs).
    apply IH. cbn [JS.existsb] in Hs. now apply orb_false_elim in Hs.
Qed.

(** X12. An address without any digit is dated with the current date:
    none of the seven patterns can match it. *)
Theorem extractDateFromUrl_no_digit (now : Date) (url : string) :
  JS.existsb JS.isDigit url = false ->
  Forall (fun p => Re.search (regex p) url = None) patterns /\
  extractDateFromUrl now url = now.
Proof.
  intros Hs.
  assert (Hall : Forall (fun p => Re.search (regex p) url = None) patterns).
  { repeat (constructor;
            [apply search_no_digit; [eexists; cbn; eauto 10 | exact Hs]|]).
    constructor. }
  split; [exact Hall|].
  unfold extractDateFromUrl. rewrite sortedPatterns_eq.
  cbn [tryPatterns nth patterns]. unfold tryPattern.
  repeat (rewrite search_no_digit; [|eexists; cbn; eauto 10 | exact Hs]).
  reflexivity.
Qed.

Lemma extractDateFromUrl_no_digit_witness :
  extractDateFromUrl november2026 "https://www.evertkwok.nl/wp-content/uploads/cat.jpg"
  = november2026.
Proof.
  apply (proj2 (extractDateFromUrl_no_digit november2026
                  "https://www.evertkwok.nl/wp-content/uploads/cat.jpg" eq_refl)).
Defined.

(** ** generateTitleFromUrl: what a title made from a file name is like *)

Lemma forallb_spaceCamel (p : ascii -> bool) (s : string) :
  p " "%char = true -> JS.forallb p s = true -> JS.forallb p (spaceCamel s) = true.
Proof.
  intros Hsp.
  assert (H : forall n s, (length s <= n)%nat -> JS.forallb p s = true ->
                          JS.forallb p (spaceCamel s) = true).
  { induction n as [|n IH]; intros [|a [|b r]] Hlen Hs; cbn [length] in Hlen;
      try reflexivity; try exact Hs; try lia.
    rewrite spaceCamel_two. cbn [JS.forallb] in Hs.
    apply andb_prop in Hs. destruct Hs as [Ha Hs]. apply andb_prop in Hs. destruct Hs as [Hb Hr].
    destruct (JS.isLower a && JS.isUpper b).
    - cbn [JS.forallb]. rewrite Ha, Hsp, Hb. apply IH; [lia | exact Hr].
    - cbn [JS.forallb]. rewrite Ha. apply IH; [cbn [length]; lia|].
      cbn [JS.forallb]. now rewrite Hb, Hr. }
  intros Hs. now apply (H (length s)).
Qed.

Lemma forallb_collapseSpaces (p : ascii -> bool) (b : bool) (s : string) :
  p " "%char = true -> JS.forallb p s = true -> JS.forallb p (JS.collapseSpaces b s) = true.
Proof.
  intros Hsp. revert b. induction s as [|a s IH]; intros b Hs; [reflexivity|].
  cbn [JS.forallb] in Hs. apply andb_prop in Hs. destruct Hs as [Ha Hs].
  cbn [JS.collapseSpaces]. destruct (JS.isSpace a).
  - destruct b; [now apply IH|]. cbn [JS.forallb]. now rewrite Hsp, IH.
  - cbn [JS.forallb]. now rewrite Ha, IH.
Qed.

Lemma forallb_dropLeadingDigits (p : ascii -> bool) (s : string) :
  JS.forallb p s = true -> JS.forallb p (dropLeadingDigits s) = true.
Proof.
  induction s as [|a s IH]; [reflexivity|].
  intros H. cbn [dropLeadingDigits]. destruct (JS.isDigit a); [|exact H].
  cbn [JS.forallb] in H. apply andb_prop in H. now apply IH.
Qed.

Lemma forallb_split (p : ascii -> bool) (c : ascii) (s : string) :
  JS.forallb p s = true -> Forall (fun t => JS.forallb p t = true) (JS.split c s).
Proof.
  induction s as [|a s IH]; [now repeat constructor|].
  cbn [JS.forallb JS.split]. intros H. apply andb_prop in H. destruct H as [Ha Hs].
  specialize (IH Hs). destruct (Ascii.eqb a c); [now constructor|].
  destruct (JS.split c s) as [|h t]; [now repeat constructor; cbn [JS.forallb]; rewrite Ha|].
  inversion IH as [|? ? Hh Ht]; subst.
  constructor; [|exact Ht]. cbn [JS.forallb]. now rewrite Ha, Hh.
Qed.

Lemma Forall_last {A : Type} (P : A -> Prop) (l : list A) (d : A) :
  P d -> Forall P l -> P (last l d).
Proof.
  intros Hd. induction 1 as [|a l Ha Hl IH]; [exact Hd|].
  cbn [last]. destruct l; [exact Ha | exact IH].
Qed.

Lemma Forall_hd {A : Type} (P : A -> Prop) (l : list A) (d : A) :
  P d -> Forall P l -> P (hd d l).
Proof. intros Hd [|a l' Ha _]; assumption. Qed.

(** The text of a title before its first character is put in upper
    case: it is taken from the address, and it holds no underscore and
    no hyphen. *)
Lemma normalized_chars (p : ascii -> bool) (url : string) :
  p " "%char = true -> JS.forallb p url = true ->
  JS.forallb (fun c => p c && notSeparator c)
    (JS.trim (JS.collapseSpaces false
       (spaceCamel (JS.map separatorToSpace
          (dropLeadingDigits
             (hd EmptyString (JS.split "." (last (JS.split "/" url) EmptyString)))))))) = true.
Proof.
  intros Hsp Hurl. unfold JS.trim.
  apply forallb_trimEnd, forallb_trimStart.
  apply forallb_collapseSpaces; [now rewrite Hsp|].
  apply forallb_spaceCamel; [now rewrite Hsp|].
  assert (Hname : JS.forallb p
                    (dropLeadingDigits
                       (hd EmptyString (JS.split "." (last (JS.split "/" url) EmptyString))))
                  = true).
  { apply forallb_dropLeadingDigits.
    apply (Forall_hd (fun t => JS.forallb p t = true)); [reflexivity|].
    apply forallb_split.
    apply (Forall_last (fun t => JS.forallb p t = true)); [reflexivity|].
    now apply forallb_split. }
  revert Hname. generalize (dropLeadingDigits
                              (hd EmptyString (JS.split "." (last (JS.split "/" url) EmptyString)))).
  intros s. induction s as [|a s IH]; [reflexivity|].
  cbn [JS.forallb JS.map]. intros H. apply andb_prop in H. destruct H as [Ha Hs].
  rewrite (IH Hs), andb_true_r. unfold separatorToSpace, notSeparator.
  destruct (Ascii.eqb a "_" || Ascii.eqb a "-") eqn:Esep.
  - now rewrite Hsp.
  - now rewrite Ha, Esep.
Qed.

Lemma toUpperChar_notSeparator (c : ascii) :
  notSeparator c = true -> notSeparator (JS.toUpperChar c) = true.
Proof. destruct c as [[] [] [] [] [] [] [] []]; vm_compute; trivial. Qed.

Lemma toUpperChar_not_lower (c : ascii) : JS.isLower (JS.toUpperChar c) = false.
Proof. destruct c as [[] [] [] [] [] [] [] []]; reflexivity. Qed.

Lemma terminator_not_lower (c : ascii) :
  Ascii.eqb c (ascii_of_nat 10) || Ascii.eqb c (ascii_of_nat 13) = true -> JS.isLower c = false.
Proof.
  destruct c as [[] [] [] [] [] [] [] []]; vm_compute; intros H;
    first [reflexivity | discriminate H].
Qed.

Lemma forallb_always (s : string) : JS.forallb (fun _ => true) s = true.
Proof. induction s as [|a s IH]; [reflexivity | exact IH]. Qed.

(** What [trim] returns does not start with white space. *)
Lemma trim_head (s : string) (a : ascii) (r : string) :
  JS.trim s = String a r -> JS.isSpace a = false.
Proof.
  unfold JS.trim. intros H. apply trimEnd_head in H. destruct H as [r' H].
  now apply trimStart_head in H.
Qed.

(** On ASCII text, where the engine changes the case of the letters A
    to Z and a to z only, the first character is put in upper case and
    nothing else changes. *)
Lemma capitalizeFirst_ascii {Eng : Engine} (a : ascii) (s : string) :
  asciiCase Eng -> JS.isAscii a = true ->
  exists h,
    capitalizeFirst (String a s) = String h s /\ JS.isLower h = false /\
    (notSeparator a = true -> notSeparator h = true).
Proof.
  intros Hcase Ha. cbn [capitalizeFirst].
  destruct (Ascii.eqb a (ascii_of_nat 10) || Ascii.eqb a (ascii_of_nat 13)) eqn:Et.
  - exists a. split; [reflexivity|]. split; [now apply terminator_not_lower | trivial].
  - exists (JS.toUpperChar a).
    assert (Hone : JS.forallb JS.isAscii (String a EmptyString) = true)
      by (cbn [JS.forallb]; now rewrite Ha).
    destruct (Hcase _ Hone) as [_ ->].
    split; [reflexivity|]. split; [apply toUpperChar_not_lower | apply toUpperChar_notSeparator].
Qed.

(** X13. A title made from the address is never empty and has at most
    50 characters.  It is one of the two generic labels, or the first 50
    characters of a text without underscore and without hyphen whose
    first character, which is not white space, the engine has put in
    upper case.  When the address is ASCII text, where the engine
    changes the case of the letters A to Z and a to z only, the title
    holds no underscore and no hyphen, and does not start with a
    lower-case letter. *)
Theorem generateTitleFromUrl_shape {Eng : Engine} (u : option string) :
  generateTitleFromUrl u <> "" /\
  (length (generateTitleFromUrl u) <= 50)%nat /\
  (generateTitleFromUrl u = "Cartoon" \/
   generateTitleFromUrl u = "Educational Cartoon" \/
   exists a r,
     JS.isSpace a = false /\ notSeparator a = true /\ JS.forallb notSeparator r = true /\
     generateTitleFromUrl u = JS.substring0 50 (toUpperCase (String a EmptyString) ++ r)) /\
  (asciiCase Eng ->
   match u with Some url => JS.forallb JS.isAscii url = true | None => True end ->
   JS.forallb notSeparator (generateTitleFromUrl u) = true /\
   (forall a r, generateTitleFromUrl u = String a r -> JS.isLower a = false)).
Proof.
  pose proof (generateTitleFromUrl_length u) as Hlen.
  split; [|split; [lia|split]].
  - intros Eq. rewrite Eq in Hlen. cbn in Hlen. lia.
  - unfold generateTitleFromUrl.
    destruct u as [url|]; [|now left].
    destruct (url =? "")%string; [now left|].
    pose proof (normalized_chars (fun _ => true) url eq_refl (forallb_always url)) as Hn.
    pose proof (trim_head
                  (JS.collapseSpaces false
                     (spaceCamel (JS.map separatorToSpace
                        (dropLeadingDigits
                           (hd EmptyString (JS.split "." (last (JS.split "/" url) EmptyString)))))))) as Hh.
    revert Hn Hh.
    generalize (JS.trim (JS.collapseSpaces false
                  (spaceCamel (JS.map separatorToSpace
                     (dropLeadingDigits
                        (hd EmptyString (JS.split "." (last (JS.split "/" url) EmptyString)))))))).
    intros n Hn Hh. cbv zeta.
    destruct (JS.substring0 50 (capitalizeFirst n) =? "")%string eqn:Et; [right; now left|].
    destruct n as [|b n]; [discriminate Et|].
    right. right. exists b, n.
    pose proof (Hh b n eq_refl) as Hb.
    cbn [JS.forallb andb] in Hn. apply andb_prop in Hn. destruct Hn as [Hsep Hn].
    split; [exact Hb|]. split; [exact Hsep|]. split; [exact Hn|].
    cbn [capitalizeFirst]. now rewrite (terminator_is_space b Hb).
  - intros Hcase Hascii. unfold generateTitleFromUrl.
    destruct u as [url|]; [|split; [reflexivity | now intros a r [= <- _]]].
    destruct (url =? "")%string; [split; [reflexivity | now intros a r [= <- _]]|].
    pose proof (normalized_chars JS.isAscii url eq_refl Hascii) as Hn.
    revert Hn.
    generalize (JS.trim (JS.collapseSpaces false
                  (spaceCamel (JS.map separatorToSpace
                     (dropLeadingDigits
                        (hd EmptyString (JS.split "." (last (JS.split "/" url) EmptyString)))))))).
    intros n Hn. cbv zeta.
    destruct (JS.substring0 50 (capitalizeFirst n) =? "")%string eqn:Et;
      [split; [reflexivity | now intros a r [= <- _]]|].
    destruct n as [|b n]; [discriminate Et|].
    cbn [JS.forallb] in Hn. apply andb_prop in Hn. destruct Hn as [Hb Hn].
    apply andb_prop in Hb. destruct Hb as [Hb Hsep].
    assert (Hrest : JS.forallb notSeparator n = true).
    { apply (forallb_impl (fun c => JS.isAscii c && notSeparator c)); [|exact Hn].
      intros c Hc. now apply andb_prop in Hc. }
    destruct (capitalizeFirst_ascii b n Hcase Hb) as (h & -> & Hlow & Hkeep).
    split.
    + apply forallb_substring0. cbn [JS.forallb]. now rewrite (Hkeep Hsep), Hrest.
    + intros a r H. apply substring0_head in H. now destruct H as [r' [= <- _]].
Qed.

(** The hypotheses of X13 at the address of a demo picture. *)
Lemma generateTitleFromUrl_shape_witness :
  JS.forallb notSeparator
    (generateTitleFromUrl (Some "/wp-content/uploads/2020/01/538piethagoras_theorem-proof.jpg"))
    = true /\
  JS.isLower "P" = false.
Proof.
  pose proof (proj2 (proj2 (proj2 (generateTitleFromUrl_shape (Eng := asciiEngine)
                (Some "/wp-content/uploads/2020/01/538piethagoras_theorem-proof.jpg"))))
                asciiEngine_case eq_refl) as [Hsep Hfirst].
  split; [exact Hsep|].
  apply (Hfirst "P"%char "iethagoras theorem proof"). reflexivity.
Defined.

(** ** The fallback generator: the items *)

Lemma mapIndexed_Forall {A B : Type} (P : B -> Prop) (f : nat -> A -> B) (n : nat)
  (l : list A) :
  (forall i a, In a l -> P (f i a)) -> Forall P (mapIndexed f n l).
Proof.
  revert n. induction l as [|a l IH]; intros n H; [constructor|].
  cbn [mapIndexed]. constructor; [apply H; now left|].
  apply IH. intros i a' Hin. apply H. now right.
Qed.

Lemma sort_Forall (P : cartoon -> Prop) (l : list cartoon) :
  Forall P l -> Forall P (sort byDateDesc l).
Proof.
  intros H. rewrite Forall_forall in *. intros c Hc. apply H.
  exact (Permutation_in c (Permutation_sym (sort_perm date l)) Hc).
Qed.

Lemma mapIndexed_map {A B C : Type} (f : nat -> A -> B) (g : B -> C) (h : A -> C)
  (n : nat) (l : list A) :
  (forall i a, g (f i a) = h a) -> map g (mapIndexed f n l) = map h l.
Proof.
  intros H. revert n. induction l as [|a l IH]; intros n; [reflexivity|].
  cbn [mapIndexed map]. now rewrite H, IH.
Qed.

Lemma demoItem_day (env : Env) (index : nat) (d : demo) :
  0 <= roll env index < 28 -> 1 <= getDate (date (demoItem env index d)) <= 28.
Proof.
  intros Hroll.
  pose proof (setDate_read
                (setMonth (demoClock env index) (getMonth (demoClock env index) - monthsAgo d))
                (roll env index + 1) ltac:(lia)) as (_ & _ & Hd).
  change (date (demoItem env index d))
    with (setDate (setMonth (demoClock env index) (getMonth (demoClock env index) - monthsAgo d))
            (roll env index + 1)).
  rewrite Hd. lia.
Qed.

Lemma demoItem_marker (env : Env) (index : nat) (d : demo) :
  JS.includes "wp-content/uploads" (url (demoItem env index d)) = true.
Proof.
  unfold demoItem. cbn [url].
  apply (includes_app_r "wp-content/uploads" "https://www.evertkwok.nl/wp-content/uploads/").
  reflexivity.
Qed.

Lemma demoItem_url (env : Env) (index : nat) (d : demo) :
  url (demoItem env index d) =
  "https://www.evertkwok.nl/wp-content/uploads/" ++
  JS.ofNumber (getFullYear (date (demoItem env index d))) ++ "/" ++
  JS.padStart2 (JS.ofNumber (getMonth (date (demoItem env index d)) + 1)) ++ "/" ++
  filename (demoItem env index d).
Proof.
  unfold demoItem. cbn [url date filename]. reflexivity.
Qed.

(** X14. The fallback list holds the eight demo entries, each once, with
    their titles, descriptions and file names.  With draws from 0 to 27
    every item is dated on a day from 1 to 28, and its address is the
    uploads folder of the year and the month of its date followed by its
    file name, so it holds the marker the extractor asks for. *)
Theorem getDemoData_items (env : Env) :
  (forall n, 0 <= roll env n < 28) ->
  Permutation (map (fun d => (demo_title d, demo_description d, demo_filename d)) demos)
              (map (fun c => (title c, description c, filename c)) (getDemoData env)) /\
  forall c, In c (getDemoData env) ->
    1 <= getDate (date c) <= 28 /\
    url c = "https://www.evertkwok.nl/wp-content/uploads/" ++ JS.ofNumber (getFullYear (date c))
            ++ "/" ++ JS.padStart2 (JS.ofNumber (getMonth (date c) + 1)) ++ "/" ++ filename c /\
    JS.includes "wp-content/uploads" (url c) = true.
Proof.
  intros Hroll. split.
  - rewrite <- (mapIndexed_map (demoItem env)
                  (fun c => (title c, description c, filename c))
                  (fun d => (demo_title d, demo_description d, demo_filename d)) 0 demos)
      by reflexivity.
    apply Permutation_map. apply (sort_perm date).
  - apply Forall_forall. unfold getDemoData. apply sort_Forall, mapIndexed_Forall.
    intros i d _. split; [|split].
    + apply demoItem_day, Hroll.
    + apply demoItem_url.
    + apply demoItem_marker.
Qed.

Lemma getDemoData_items_witness :
  Forall (fun c =>
    1 <= getDate (date c) <= 28 /\
    url c = "https://www.evertkwok.nl/wp-content/uploads/" ++ JS.ofNumber (getFullYear (date c))
            ++ "/" ++ JS.padStart2 (JS.ofNumber (getMonth (date c) + 1)) ++ "/" ++ filename c /\
    JS.includes "wp-content/uploads" (url c) = true)
    (getDemoData offlineEnv).
Proof.
  apply Forall_forall.
  apply (proj2 (getDemoData_items offlineEnv ltac:(intros n; cbn; lia))).
Defined.

(** ** The channel of the feed *)

(** X15. The date written as the [pubDate] of the channel is the date
    of the newest item: no item of the list [scrapeCartoons] returns is
    dated after it, and it is the date of an item unless the list is
    empty, in which case it is the current date. *)
Theorem lastBuildDate_newest {Eng : Engine} (env : Env) (now : Date) (out : list cartoon) :
  scrapeCartoons env = Returned out ->
  (forall c, In c out -> date c <= lastBuildDate now out) /\
  (out <> [] -> exists c, In c out /\ lastBuildDate now out = date c) /\
  (out = [] -> lastBuildDate now out = now).
Proof.
  intros Hout.
  assert (Hs : StronglySorted (fun a b => date b <= date a) out).
  { destruct (scrapeCartoons_cases env out Hout) as [(r & st & _ & _ & ->)|[_ ->]];
      apply (sort_sorted date). }
  split; [|split].
  - intros c Hc. destruct Hs as [|x l _ Hx]; [destruct Hc|].
    cbn [lastBuildDate]. destruct Hc as [<-|Hc]; [lia|].
    rewrite Forall_forall in Hx. now apply Hx.
  - destruct out as [|x l]; [congruence|]. intros _. exists x. split; [now left | reflexivity].
  - now intros ->.
Qed.

Lemma lastBuildDate_newest_witness :
  Forall (fun c => date c <= lastBuildDate november2026 (returnedOr [] (scrapeCartoons sampleEnv)))
    (returnedOr [] (scrapeCartoons sampleEnv)).
Proof.
  assert (Hout : scrapeCartoons sampleEnv = Returned (returnedOr [] (scrapeCartoons sampleEnv)))
    by (vm_compute; reflexivity).
  apply Forall_forall.
  apply (proj1 (lastBuildDate_newest sampleEnv november2026
                  (returnedOr [] (scrapeCartoons sampleEnv)) Hout)).
Defined.

Lemma replaceLastSegment_id (s : string) : replaceLastSegment s = s.
Proof.
  induction s as [|a s IH]; [reflexivity|].
  cbn [replaceLastSegment].
  destruct (Ascii.eqb a "/") eqn:Ea; cbn [andb]; [|now rewrite IH].
  destruct (negb (s =? "")%string && negb (JS.existsb (Ascii.eqb "/") s)); [|now rewrite IH].
  apply Ascii.eqb_eq in Ea. now subst a.
Qed.

(** X16. The address the feed gives for itself.  The second [replace]
    of [generateRSS] never changes its argument.  So without
    GITHUB_PAGES_URL the address is that of the repository with the host
    github.com replaced by github.io, and with GITHUB_PAGES_URL it is
    that value. *)
Theorem pagesUrl_value :
  (forall s, replaceLastSegment s = s) /\
  (forall repository,
     repository <> "" ->
     pagesUrl None (Some repository) = "https://github.io/" ++ repository /\
     pagesUrl (Some "") (Some repository) = "https://github.io/" ++ repository) /\
  pagesUrl None None = "https://github.io/yourusername/evert-kwok-rss" /\
  (forall u repository, u <> "" -> pagesUrl (Some u) repository = u).
Proof.
  split; [exact replaceLastSegment_id|]. split; [|split].
  - intros repository Hne.
    assert (E : pagesUrl None (Some repository) = "https://github.io/" ++ repository).
    { unfold pagesUrl, repoUrl, truthy.
      apply String.eqb_neq in Hne. rewrite Hne, replaceLastSegment_id. reflexivity. }
    split; [exact E|]. exact E.
  - reflexivity.
  - intros u repository Hne. unfold pagesUrl, truthy.
    apply String.eqb_neq in Hne. now rewrite Hne.
Qed.

Lemma pagesUrl_value_witness :
  pagesUrl None (Some "StevenLooman/evert-kwok-rss") = "https://github.io/StevenLooman/evert-kwok-rss" /\
  pagesUrl (Some "https://stevenlooman.github.io/evert-kwok-rss") None
    = "https://stevenlooman.github.io/evert-kwok-rss".
Proof.
  split.
  - apply (proj1 (proj2 pagesUrl_value) "StevenLooman/evert-kwok-rss"). discriminate.
  - apply (proj2 (proj2 (proj2 pagesUrl_value))). discriminate.
Defined.

(** ** The command line *)

Lemma parseArgs_app (o : options) (l1 l2 : list string) :
  parseArgs o (l1 ++ l2) =
  match parseArgs o l1 with
  | Runs o' => parseArgs o' l2
  | Exits code => Exits code
  end.
Proof.
  revert o. induction l1 as [|arg l1 IH]; intros o; [reflexivity|].
  cbn [app parseArgs].
  destruct ((arg =? "--verbose")%string || (arg =? "-v")%string); [apply IH|].
  destruct (JS.startsWith "--output=" arg); [apply IH|].
  destruct ((arg =? "--help")%string || (arg =? "-h")%string); [reflexivity | apply IH].
Qed.

Lemma help_not_other (arg : string) :
  arg = "--help" \/ arg = "-h" ->
  ((arg =? "--verbose")%string || (arg =? "-v")%string) = false /\
  JS.startsWith "--output=" arg = false /\
  ((arg =? "--help")%string || (arg =? "-h")%string) = true.
Proof. intros [->| ->]; repeat split. Qed.

(** X17. The help flag wins wherever it stands: the process exits with
    status 0, before the scraper is made, exactly when one of the
    arguments is --help or -h; the loop over the arguments exits with no
    other status; and arguments that are not recognized are ignored. *)
Theorem parseArgs_help (o : options) (args : list string) :
  (parseArgs o args = Exits 0 <-> In "--help" args \/ In "-h" args) /\
  (forall code, parseArgs o args = Exits code -> code = 0) /\
  (~ In "--help" args -> ~ In "-h" args -> exists o', parseArgs o args = Runs o') /\
  (forall other,
     other <> "--verbose" -> other <> "-v" -> other <> "--help" -> other <> "-h" ->
     JS.startsWith "--output=" other = false ->
     parseArgs o (other :: args) = parseArgs o args).
Proof.
  assert (Hcases : forall args o,
            (exists o', parseArgs o args = Runs o' /\ ~ In "--help" args /\ ~ In "-h" args) \/
            (parseArgs o args = Exits 0 /\ (In "--help" args \/ In "-h" args))).
  { clear. induction args as [|arg args IH]; intros o.
    - left. exists o. repeat split; intros [].
    - cbn [parseArgs].
      destruct (string_dec arg "--help") as [E|Nh].
      { right. destruct (help_not_other arg (or_introl E)) as (-> & -> & ->).
        split; [reflexivity | left; now left]. }
      destruct (string_dec arg "-h") as [E|Nh'].
      { right. destruct (help_not_other arg (or_intror E)) as (-> & -> & ->).
        split; [reflexivity | right; now left]. }
      assert (Hrest : forall o1,
                (exists o', parseArgs o1 args = Runs o' /\
                            ~ In "--help" (arg :: args) /\ ~ In "-h" (arg :: args)) \/
                (parseArgs o1 args = Exits 0 /\
                 (In "--help" (arg :: args) \/ In "-h" (arg :: args)))).
      { intros o1. destruct (IH o1) as [(o' & E & N1 & N2)|[E [H|H]]].
        - left. exists o'. split; [exact E|].
          split; intros [H|H]; congruence || contradiction.
        - right. split; [exact E | left; now right].
        - right. split; [exact E | right; now right]. }
      destruct ((arg =? "--verbose")%string || (arg =? "-v")%string); [apply Hrest|].
      destruct (JS.startsWith "--output=" arg); [apply Hrest|].
      apply String.eqb_neq in Nh, Nh'. rewrite Nh, Nh'. cbn [orb]. apply Hrest. }
  split; [|split; [|split]].
  - destruct (Hcases args o) as [(o' & E & N1 & N2)|[E H]]; rewrite E.
    + split; [discriminate | tauto].
    + tauto.
  - intros code. destruct (Hcases args o) as [(o' & E & _)|[E _]]; rewrite E; congruence.
  - intros N1 N2. destruct (Hcases args o) as [(o' & E & _)|[_ [H|H]]]; [eauto | tauto | tauto].
  - intros other N1 N2 N3 N4 Hout. cbn [parseArgs].
    apply String.eqb_neq in N1, N2, N3, N4. now rewrite N1, N2, N3, N4, Hout.
Qed.

Lemma parseArgs_help_witness :
  parseArgs noOptions ["--verbose"; "--output=feed.xml"; "-h"] = Exits 0 /\
  (exists o', parseArgs noOptions ["--verbose"] = Runs o') /\
  parseArgs noOptions ["--quiet"; "-v"] = parseArgs noOptions ["-v"].
Proof.
  split; [|split].
  - apply (proj2 (proj1 (parseArgs_help noOptions ["--verbose"; "--output=feed.xml"; "-h"]))).
    right. cbn. tauto.
  - apply (proj1 (proj2 (proj2 (parseArgs_help noOptions ["--verbose"]))));
      cbn; intuition discriminate.
  - apply (proj2 (proj2 (proj2 (parseArgs_help noOptions ["-v"])))); try discriminate.
    reflexivity.
Defined.

Lemma output_split (p : string) :
  nth_error (JS.split "=" ("--output=" ++ p)) 1 = Some (hd EmptyString (JS.split "=" p)).
Proof.
  change ("--output=" ++ p) with ("--output" ++ String "=" p).
  rewrite split_app_sep. cbn [JS.split Ascii.eqb Bool.eqb app nth_error].
  pose proof (split_nonempty "=" p).
  destruct (JS.split "=" p); [contradiction | reflexivity].
Qed.

Lemma parseArgs_output_one (o : options) (p : string) :
  parseArgs o ["--output=" ++ p] =
  Runs {| opt_verbose := opt_verbose o;
          opt_outputFile := Some (hd EmptyString (JS.split "=" p)) |}.
Proof.
  cbn [parseArgs].
  change ((("--output=" ++ p) =? "--verbose")%string || (("--output=" ++ p) =? "-v")%string)
    with false.
  unfold JS.startsWith.
  rewrite (prefix_app_r "--output=" "--output=" p eq_refl), output_split. reflexivity.
Qed.

(** X18. The output file is the text between --output= and the next
    equals sign: a path without an equals sign is taken whole, what
    follows a second equals sign is dropped.  Of several --output=
    arguments the last one counts, and an empty path gives
    docs/feed.xml, like no argument at all. *)
Theorem parseArgs_output (args : list string) (o1 : options) (p q : string) :
  parseArgs noOptions args = Runs o1 ->
  JS.existsb (Ascii.eqb "=") p = false ->
  parseArgs noOptions (args ++ ["--output=" ++ p]) =
    Runs {| opt_verbose := opt_verbose o1; opt_outputFile := Some p |} /\
  parseArgs noOptions (args ++ ["--output=" ++ p ++ String "=" q]) =
    Runs {| opt_verbose := opt_verbose o1; opt_outputFile := Some p |} /\
  outputFile (constructor {| opt_verbose := opt_verbose o1; opt_outputFile := Some p |}) =
    (if (p =? "")%string then "docs/feed.xml" else p) /\
  outputFile (constructor noOptions) = "docs/feed.xml".
Proof.
  intros Hargs Hp. split; [|split; [|split]]; try reflexivity.
  - rewrite parseArgs_app, Hargs, parseArgs_output_one.
    now rewrite (split_absent "=" p Hp).
  - rewrite parseArgs_app, Hargs, parseArgs_output_one.
    now rewrite split_app_sep, (split_absent "=" p Hp).
Qed.

Lemma parseArgs_output_witness :
  parseArgs noOptions (["--output=a.xml"; "-v"] ++ ["--output=" ++ "docs/feed.xml"]) =
    Runs {| opt_verbose := true; opt_outputFile := Some "docs/feed.xml" |} /\
  parseArgs noOptions (["--output=a.xml"; "-v"] ++ ["--output=" ++ "docs/feed.xml" ++ String "=" "x"]) =
    Runs {| opt_verbose := true; opt_outputFile := Some "docs/feed.xml" |}.
Proof.
  pose proof (parseArgs_output ["--output=a.xml"; "-v"]
                {| opt_verbose := true; opt_outputFile := Some "a.xml" |}
                "docs/feed.xml" "x" eq_refl eq_refl) as (H1 & H2 & _).
  split; [exact H1 | exact H2].
Defined.

(** ** The address of a fallback item, read back by extractDateFromUrl *)

Lemma zeroDigits_isDigit (c : ascii) : JS.isDigit (zeroDigits c) = JS.isDigit c.
Proof. destruct c as [[] [] [] [] [] [] [] []]; reflexivity. Qed.

Lemma zeroDigits_isSep (c : ascii) : Re.isSep (zeroDigits c) = Re.isSep c.
Proof. destruct c as [[] [] [] [] [] [] [] []]; reflexivity. Qed.

Lemma zeroDigits_eqb (a c : ascii) :
  JS.isDigit c = false -> Ascii.eqb (zeroDigits a) c = Ascii.eqb a c.
Proof.
  intros Hc. unfold zeroDigits. destruct (JS.isDigit a) eqn:Ha; [|reflexivity].
  destruct (Ascii.eqb_spec a c) as [->|_]; [congruence|].
  destruct (Ascii.eqb_spec "0" c) as [<-|_]; [discriminate | reflexivity].
Qed.

Lemma takeDigits_zero (n : nat) (s : string) :
  Re.takeDigits n (JS.map zeroDigits s) =
  match Re.takeDigits n s with
  | Some (ds, rest) => Some (JS.map zeroDigits ds, JS.map zeroDigits rest)
  | None => None
  end.
Proof.
  revert s. induction n as [|n IH]; intros s; [reflexivity|].
  destruct s as [|a s]; [reflexivity|].
  cbn [JS.map Re.takeDigits]. rewrite zeroDigits_isDigit, IH.
  destruct (JS.isDigit a); [|reflexivity].
  now destruct (Re.takeDigits n s) as [[ds rest]|].
Qed.

Lemma matchHere_zero (ps : list Re.piece) (s : string) :
  literalsNotDigits ps ->
  Re.matchHere ps (JS.map zeroDigits s) =
  option_map (List.map (JS.map zeroDigits)) (Re.matchHere ps s).
Proof.
  intros Hps. revert s. induction Hps as [|p ps Hp _ IH]; intros s; [reflexivity|].
  destruct p as [c|n| |]; cbn [Re.matchHere].
  - destruct s as [|a s]; [reflexivity|].
    cbn [JS.map]. rewrite (zeroDigits_eqb a c Hp).
    destruct (Ascii.eqb a c); [apply IH | reflexivity].
  - rewrite takeDigits_zero. destruct (Re.takeDigits n s) as [[ds rest]|]; [|reflexivity].
    rewrite IH. now destruct (Re.matchHere ps rest).
  - destruct s as [|a s]; [apply (IH EmptyString)|].
    cbn [JS.map]. rewrite zeroDigits_isSep.
    change (String (zeroDigits a) (JS.map zeroDigits s)) with (JS.map zeroDigits (String a s)).
    rewrite !IH. destruct (Re.isSep a); [|reflexivity].
    now destruct (Re.matchHere ps s).
  - destruct s as [|a s]; [apply (IH EmptyString)|].
    cbn [JS.map]. rewrite zeroDigits_isDigit.
    destruct (JS.isDigit a); [reflexivity|].
    change (String (zeroDigits a) (JS.map zeroDigits s)) with (JS.map zeroDigits (String a s)).
    apply IH.
Qed.

(** Whether a pattern of this kind matches depends on where the digits
    are, not on which digits they are. *)
Lemma search_zero (ps : list Re.piece) (s : string) :
  literalsNotDigits ps ->
  Re.search ps (JS.map zeroDigits s) = option_map (List.map (JS.map zeroDigits)) (Re.search ps s).
Proof.
  intros Hps. induction s as [|a s IH].
  - pose proof (matchHere_zero ps EmptyString Hps) as H0.
    cbn [JS.map] in H0. cbn [JS.map Re.search].
    destruct (Re.matchHere ps EmptyString); [exact H0 | reflexivity].
  - pose proof (matchHere_zero ps (String a s) Hps) as Ha.
    cbn [JS.map] in Ha. cbn [JS.map Re.search]. rewrite Ha.
    destruct (Re.matchHere ps (String a s)); [reflexivity|].
    cbn [option_map]. exact IH.
Qed.

Lemma search_zero_none (ps : list Re.piece) (s : string) :
  literalsNotDigits ps -> Re.search ps (JS.map zeroDigits s) = None -> Re.search ps s = None.
Proof.
  intros Hps H. rewrite (search_zero ps s Hps) in H.
  now destruct (Re.search ps s).
Qed.

Lemma map_zero_digits (s : string) :
  JS.forallb JS.isDigit s = true -> JS.map zeroDigits s = replicate (length s) "0".
Proof.
  induction s as [|a s IH]; [reflexivity|].
  cbn [JS.forallb JS.map length replicate]. intros H. apply andb_prop in H.
  destruct H as [Ha Hs]. unfold zeroDigits at 1. now rewrite Ha, (IH Hs).
Qed.

Lemma takeDigits_app (ds rest : string) :
  JS.forallb JS.isDigit ds = true -> Re.takeDigits (length ds) (ds ++ rest) = Some (ds, rest).
Proof.
  induction ds as [|a ds IH]; [reflexivity|].
  cbn [JS.forallb length append Re.takeDigits]. intros H. apply andb_prop in H.
  destruct H as [Ha Hs]. now rewrite Ha, (IH Hs).
Qed.

Lemma search_skip (ps : list Re.piece) (pre s : string) :
  noMatchWithin ps pre s -> Re.search ps (pre ++ s) = Re.search ps s.
Proof.
  induction pre as [|a pre IH]; [reflexivity|].
  intros [Hnone Hrest]. change (String a pre ++ s) with (String a (pre ++ s)) in *.
  cbn [Re.search]. rewrite Hnone. now apply IH.
Qed.

(** Years of four digits and months are written and read back. *)
Lemma year_digits (Y : Z) :
  1000 <= Y <= 9999 ->
  JS.forallb JS.isDigit (JS.ofNumber Y) = true /\ length (JS.ofNumber Y) = 4%nat /\
  JS.parseInt (JS.ofNumber Y) = Y.
Proof.
  intros HY.
  assert (Hall : List.forallb
            (fun n => let s := JS.ofNumber (1000 + Z.of_nat n) in
                      JS.forallb JS.isDigit s && (length s =? 4)%nat &&
                      (JS.parseInt s =? 1000 + Z.of_nat n))
            (seq 0 (Z.to_nat 9000)) = true) by (vm_compute; reflexivity).
  rewrite forallb_forall in Hall.
  specialize (Hall (Z.to_nat (Y - 1000))).
  replace (1000 + Z.of_nat (Z.to_nat (Y - 1000))) with Y in Hall by lia.
  assert (Hin : In (Z.to_nat (Y - 1000)) (seq 0 (Z.to_nat 9000))) by (apply in_seq; lia).
  specialize (Hall Hin). cbv zeta in Hall.
  apply andb_prop in Hall. destruct Hall as [Hall Hp].
  apply andb_prop in Hall. destruct Hall as [Hd Hl].
  apply Nat.eqb_eq in Hl. apply Z.eqb_eq in Hp. now repeat split.
Qed.

Lemma month_digits (M : Z) :
  1 <= M <= 12 ->
  JS.forallb JS.isDigit (JS.padStart2 (JS.ofNumber M)) = true /\
  length (JS.padStart2 (JS.ofNumber M)) = 2%nat /\
  JS.parseInt (JS.padStart2 (JS.ofNumber M)) = M.
Proof.
  intros HM.
  assert (Hc : M = 1 \/ M = 2 \/ M = 3 \/ M = 4 \/ M = 5 \/ M = 6 \/ M = 7 \/ M = 8 \/
               M = 9 \/ M = 10 \/ M = 11 \/ M = 12) by lia.
  repeat (destruct Hc as [->|Hc]; [repeat split|]). subst M. repeat split.
Qed.

Lemma newDate_read (Y m d : Z) :
  100 <= Y -> 0 <= m <= 11 -> 1 <= d <= 28 ->
  getFullYear (newDate Y m d) = Y /\ getMonth (newDate Y m d) = m /\
  getDate (newDate Y m d) = d.
Proof.
  intros HY Hm Hd. unfold getFullYear, getMonth, getDate, newDate.
  destruct (Z.leb_spec 0 Y), (Z.leb_spec Y 99); cbn [andb]; try lia.
  pose proof (MakeDate_read Y m d 0 Hd ltac:(unfold Cal.msPerDay; lia)) as Hr.
  cbv zeta in Hr. destruct Hr as (Hy & Hmo & Hda & _).
  rewrite Hy, Hmo, Hda.
  replace (m / 12) with 0 by (Z.div_mod_to_equations; lia).
  replace (m mod 12) with m by (Z.div_mod_to_equations; lia).
  repeat split; lia.
Qed.

Lemma uploadUrl_day_patterns (y4 m2 file : string) :
  JS.forallb JS.isDigit y4 = true -> length y4 = 4%nat ->
  JS.forallb JS.isDigit m2 = true -> length m2 = 2%nat ->
  In file (map demo_filename demos) ->
  Forall (fun p => Re.search (regex p) (uploadUrl y4 m2 file) = None) dayPatterns.
Proof.
  intros Hy Ly Hm Lm Hfile.
  assert (Hzero : JS.map zeroDigits (uploadUrl y4 m2 file) =
                  uploadUrl "0000" "00" (JS.map zeroDigits file)).
  { unfold uploadUrl. rewrite map_app. cbn [JS.map]. rewrite map_app. cbn [JS.map].
    rewrite map_app. cbn [JS.map].
    rewrite (map_zero_digits y4 Hy), (map_zero_digits m2 Hm), Ly, Lm. reflexivity. }
  apply Forall_forall. intros p Hp.
  apply search_zero_none.
  - cbn in Hp.
    repeat (destruct Hp as [<-|Hp]; [repeat constructor|]). destruct Hp.
  - rewrite Hzero. cbn [map demos demo_filename] in Hfile.
    repeat (destruct Hfile as [<-|Hfile];
            [cbn in Hp;
             repeat (destruct Hp as [<-|Hp]; [vm_compute; reflexivity|]); destruct Hp|]).
    destruct Hfile.
Qed.

Lemma uploadUrl_month_pattern (y4 m2 file : string) :
  JS.forallb JS.isDigit y4 = true -> length y4 = 4%nat ->
  JS.forallb JS.isDigit m2 = true -> length m2 = 2%nat ->
  Re.search (regex monthPattern) (uploadUrl y4 m2 file) = Some [y4; m2].
Proof.
  intros Hy Ly Hm Lm. unfold uploadUrl.
  rewrite search_skip.
  - cbn [monthPattern nth patterns regex Re.search Re.matchHere].
    rewrite Ascii.eqb_refl.
    pose proof (takeDigits_app y4 (String "/" (m2 ++ String "/" file)) Hy) as Ty.
    rewrite Ly in Ty. rewrite Ty. rewrite Ascii.eqb_refl.
    pose proof (takeDigits_app m2 (String "/" file) Hm) as Tm.
    rewrite Lm in Tm. rewrite Tm. rewrite Ascii.eqb_refl. reflexivity.
  - unfold uploadsFolder. cbn [noMatchWithin]. repeat split; reflexivity.
Qed.

Lemma tryPatterns_skip (now : Date) (url : string) (ps qs : list pattern) :
  Forall (fun p => Re.search (regex p) url = None) ps ->
  tryPatterns now url (ps ++ qs)%list = tryPatterns now url qs.
Proof.
  induction 1 as [|p ps Hp _ IH]; [reflexivity|].
  cbn [app tryPatterns]. now rewrite (tryPattern_none now url p Hp).
Qed.

Lemma sortedPatterns_split :
  sortedPatterns = (dayPatterns ++ [monthPattern; nth 6 patterns fullDatePattern])%list.
Proof. reflexivity. Qed.

Lemma uploadUrl_read (now : Date) (y4 m2 file : string) (Y M : Z) :
  JS.forallb JS.isDigit y4 = true -> length y4 = 4%nat -> JS.parseInt y4 = Y ->
  JS.forallb JS.isDigit m2 = true -> length m2 = 2%nat -> JS.parseInt m2 = M ->
  2000 <= Y <= getFullYear now + 1 -> 1 <= M <= 12 ->
  In file (map demo_filename demos) ->
  extractDateFromUrl now (uploadUrl y4 m2 file) = newDate Y (M - 1) 1.
Proof.
  intros Hy Ly Py Hm Lm Pm HY HM Hfile.
  pose proof (uploadUrl_day_patterns y4 m2 file Hy Ly Hm Lm Hfile) as Hday.
  pose proof (uploadUrl_month_pattern y4 m2 file Hy Ly Hm Lm) as Hmonth.
  destruct (newDate_read Y (M - 1) 1 ltac:(lia) ltac:(lia) ltac:(lia)) as (Ey & Em & _).
  assert (Htry : tryPattern now (uploadUrl y4 m2 file) monthPattern = Some (newDate Y (M - 1) 1)).
  { unfold tryPattern. rewrite Hmonth.
    change (fmt monthPattern) with ym. cbn [parseMatch group nth Nat.sub].
    rewrite Py, Pm. unfold reasonable. rewrite Ey, Em, !Z.eqb_refl.
    destruct (Z.leb_spec 2000 Y), (Z.leb_spec Y (getFullYear now + 1)); try lia. reflexivity. }
  unfold extractDateFromUrl.
  rewrite sortedPatterns_split, (tryPatterns_skip now _ _ _ Hday).
  cbn [tryPatterns]. rewrite Htry. reflexivity.
Qed.

Lemma uploadUrl_spelled (year month file : string) :
  "https://www.evertkwok.nl/wp-content/uploads/" ++ year ++ "/" ++ month ++ "/" ++ file =
  uploadUrl year month file.
Proof. reflexivity. Qed.

Lemma demoItem_filename (env : Env) (index : nat) (d : demo) :
  filename (demoItem env index d) = demo_filename d.
Proof. reflexivity. Qed.

Lemma uploadUrl_read_back (now dt : Date) (file : string) :
  In file (map demo_filename demos) ->
  2000 <= getFullYear dt <= getFullYear now + 1 ->
  getFullYear dt <= 9999 ->
  extractDateFromUrl now
    (uploadUrl (JS.ofNumber (getFullYear dt)) (JS.padStart2 (JS.ofNumber (getMonth dt + 1))) file)
  = newDate (getFullYear dt) (getMonth dt) 1.
Proof.
  intros Hfile HY Hmax.
  pose proof (getMonth_range dt) as Hm.
  destruct (year_digits (getFullYear dt) ltac:(lia)) as (Dy & Ly & Py).
  destruct (month_digits (getMonth dt + 1) ltac:(lia)) as (Dm & Lm & Pm).
  pose proof (uploadUrl_read now (JS.ofNumber (getFullYear dt))
                (JS.padStart2 (JS.ofNumber (getMonth dt + 1))) file
                (getFullYear dt) (getMonth dt + 1) Dy Ly Py Dm Lm Pm HY ltac:(lia) Hfile) as E.
  rewrite E. f_equal. lia.
Qed.

(** X19. The address of a fallback item is read back by
    [extractDateFromUrl] as the first day of the month the item is dated
    in, when the year of the item lies between 2000 and the year after
    the current one (and has four digits): the year and the month written
    into the address are the ones the date extraction finds there. *)
Theorem demoItem_date_read_back (env : Env) (now : Date) (index : nat) (d : demo) :
  In d demos ->
  2000 <= getFullYear (date (demoItem env index d)) <= getFullYear now + 1 ->
  getFullYear (date (demoItem env index d)) <= 9999 ->
  extractDateFromUrl now (url (demoItem env index d)) =
    newDate (getFullYear (date (demoItem env index d))) (getMonth (date (demoItem env index d))) 1 /\
  getFullYear (extractDateFromUrl now (url (demoItem env index d))) =
    getFullYear (date (demoItem env index d)) /\
  getMonth (extractDateFromUrl now (url (demoItem env index d))) =
    getMonth (date (demoItem env index d)).
Proof.
  intros Hd HY Hmax.
  rewrite demoItem_url, uploadUrl_spelled, demoItem_filename.
  revert HY Hmax. generalize (date (demoItem env index d)). intros dt HY Hmax.
  rewrite (uploadUrl_read_back now dt (demo_filename d) (in_map demo_filename demos d Hd) HY Hmax).
  pose proof (getMonth_range dt) as Hm.
  destruct (newDate_read (getFullYear dt) (getMonth dt) 1 ltac:(lia) Hm ltac:(lia))
    as (Ey & Em & _).
  split; [reflexivity|]. split; assumption.
Qed.

Lemma demoItem_date_read_back_witness :
  extractDateFromUrl lastOfDecember2026
    (url (demoItem offlineEnv 7 (nth 7 demos noDemo))) =
  newDate 2026 9 1.
Proof.
  refine (proj1 (demoItem_date_read_back offlineEnv lastOfDecember2026 7 _ _ _ _)).
  - cbn. tauto.
  - vm_compute. split; discriminate.
  - vm_compute. discriminate.
Defined.

(** ** extractDateFromUrl: the folder of a year and a month *)

Lemma digitCount_app (s t : string) : digitCount (s ++ t) = (digitCount s + digitCount t)%nat.
Proof.
  induction s as [|a s IH]; [reflexivity|]. cbn [append digitCount]. rewrite IH. lia.
Qed.

Lemma digitCount_none (s : string) : JS.existsb JS.isDigit s = false -> digitCount s = 0%nat.
Proof.
  induction s as [|a s IH]; [reflexivity|].
  cbn [JS.existsb digitCount]. intros H. apply orb_false_elim in H. destruct H as [-> Hs].
  now rewrite (IH Hs).
Qed.

Lemma digitCount_all (s : string) : JS.forallb JS.isDigit s = true -> digitCount s = length s.
Proof.
  induction s as [|a s IH]; [reflexivity|].
  cbn [JS.forallb digitCount length]. intros H. apply andb_prop in H. destruct H as [-> Hs].
  now rewrite (IH Hs).
Qed.

Lemma takeDigits_count (n : nat) (s ds rest : string) :
  Re.takeDigits n s = Some (ds, rest) -> digitCount s = (n + digitCount rest)%nat.
Proof.
  revert s ds rest. induction n as [|n IH]; intros s ds rest; cbn [Re.takeDigits].
  - now intros [= _ <-].
  - destruct s as [|a s]; [discriminate|].
    destruct (JS.isDigit a) eqn:Ha; [|discriminate].
    destruct (Re.takeDigits n s) as [[ds' rest']|] eqn:Ht; [|discriminate].
    intros [= _ <-]. cbn [digitCount]. rewrite Ha, (IH s ds' rest' Ht). lia.
Qed.

Lemma matchHere_count (ps : list Re.piece) (s : string) (gs : list string) :
  Re.matchHere ps s = Some gs -> (digitsNeeded ps <= digitCount s)%nat.
Proof.
  revert s gs. induction ps as [|p ps IH]; intros s gs; [cbn; lia|].
  destruct p as [c|n| |]; cbn [Re.matchHere digitsNeeded].
  - destruct s as [|a s]; [discriminate|].
    destruct (Ascii.eqb a c); [|discriminate].
    intros H. apply IH in H. cbn [digitCount]. lia.
  - destruct (Re.takeDigits n s) as [[ds rest]|] eqn:Ht; [|discriminate].
    destruct (Re.matchHere ps rest) as [gs'|] eqn:Hm; [|discriminate].
    intros _. apply IH in Hm. rewrite (takeDigits_count n s ds rest Ht). lia.
  - destruct s as [|a s]; [apply IH|].
    destruct (Re.isSep a); [|apply IH].
    destruct (Re.matchHere ps s) as [gs'|] eqn:Hm; [|apply IH].
    intros _. apply IH in Hm. cbn [digitCount]. lia.
  - destruct s as [|a s]; [apply IH|].
    destruct (JS.isDigit a); [discriminate | apply IH].
Qed.

Lemma search_count (ps : list Re.piece) (s : string) :
  (digitCount s < digitsNeeded ps)%nat -> Re.search ps s = None.
Proof.
  induction s as [|a s IH]; intros H; cbn [Re.search].
  - destruct (Re.matchHere ps EmptyString) eqn:Hm; [|reflexivity].
    apply matchHere_count in Hm. lia.
  - destruct (Re.matchHere ps (String a s)) eqn:Hm.
    + apply matchHere_count in Hm. lia.
    + apply IH. cbn [digitCount] in H. lia.
Qed.

Lemma month_no_match_within (pre : string) (c : ascii) (s : string) :
  JS.existsb JS.isDigit pre = false -> JS.isDigit c = false ->
  noMatchWithin (regex monthPattern) pre (String c s).
Proof.
  intros Hpre Hc. induction pre as [|a pre IH]; [exact I|].
  cbn [JS.existsb] in Hpre. apply orb_false_elim in Hpre. destruct Hpre as [Ha Hpre].
  split; [|now apply IH].
  cbn [monthPattern nth patterns regex append Re.matchHere].
  destruct (Ascii.eqb a "/"); [|reflexivity].
  destruct pre as [|b pre]; cbn [append Re.takeDigits].
  - now rewrite Hc.
  - cbn [JS.existsb] in Hpre. apply orb_false_elim in Hpre. destruct Hpre as [-> _].
    reflexivity.
Qed.

(** X20. An address made of text without digits, the folder of a year
    and a month, and a file name without digits is dated on the first day
    of that month, when the year lies between 2000 and the year after the
    current one and the month between 01 and 12. *)
Theorem extractDateFromUrl_month_folder
  (now : Date) (pre y4 m2 file : string) :
  JS.existsb JS.isDigit pre = false ->
  JS.existsb JS.isDigit file = false ->
  JS.forallb JS.isDigit y4 = true -> length y4 = 4%nat ->
  JS.forallb JS.isDigit m2 = true -> length m2 = 2%nat ->
  2000 <= JS.parseInt y4 <= getFullYear now + 1 ->
  1 <= JS.parseInt m2 <= 12 ->
  extractDateFromUrl now (pre ++ String "/" (y4 ++ String "/" (m2 ++ String "/" file))) =
    newDate (JS.parseInt y4) (JS.parseInt m2 - 1) 1 /\
  getFullYear (newDate (JS.parseInt y4) (JS.parseInt m2 - 1) 1) = JS.parseInt y4 /\
  getMonth (newDate (JS.parseInt y4) (JS.parseInt m2 - 1) 1) = JS.parseInt m2 - 1 /\
  getDate (newDate (JS.parseInt y4) (JS.parseInt m2 - 1) 1) = 1.
Proof.
  intros Hpre Hfile Hy Ly Hm Lm HY HM.
  set (url := pre ++ String "/" (y4 ++ String "/" (m2 ++ String "/" file))).
  assert (Hcount : digitCount url = 6%nat).
  { unfold url. rewrite digitCount_app. cbn [digitCount JS.isDigit].
    rewrite digitCount_app. cbn [digitCount]. rewrite digitCount_app. cbn [digitCount].
    rewrite (digitCount_none pre Hpre), (digitCount_none file Hfile),
      (digitCount_all y4 Hy), (digitCount_all m2 Hm), Ly, Lm.
    reflexivity. }
  assert (Hday : Forall (fun p => Re.search (regex p) url = None) dayPatterns).
  { apply Forall_forall. intros p Hp. apply search_count. rewrite Hcount.
    cbn in Hp. repeat (destruct Hp as [<-|Hp]; [cbn; lia|]). destruct Hp. }
  assert (Hmonth : Re.search (regex monthPattern) url = Some [y4; m2]).
  { unfold url. rewrite search_skip by (now apply month_no_match_within).
    cbn [monthPattern nth patterns regex Re.search Re.matchHere].
    rewrite Ascii.eqb_refl.
    pose proof (takeDigits_app y4 (String "/" (m2 ++ String "/" file)) Hy) as Ty.
    rewrite Ly in Ty. rewrite Ty, Ascii.eqb_refl.
    pose proof (takeDigits_app m2 (String "/" file) Hm) as Tm.
    rewrite Lm in Tm. rewrite Tm, Ascii.eqb_refl. reflexivity. }
  destruct (newDate_read (JS.parseInt y4) (JS.parseInt m2 - 1) 1
              ltac:(lia) ltac:(lia) ltac:(lia)) as (Ey & Em & Ed).
  split; [|now repeat split].
  assert (Htry : tryPattern now url monthPattern
                 = Some (newDate (JS.parseInt y4) (JS.parseInt m2 - 1) 1)).
  { unfold tryPattern. rewrite Hmonth.
    change (fmt monthPattern) with ym. cbn [parseMatch group nth Nat.sub].
    unfold reasonable. rewrite Ey, Em, !Z.eqb_refl.
    destruct (Z.leb_spec 2000 (JS.parseInt y4)),
      (Z.leb_spec (JS.parseInt y4) (getFullYear now + 1)); try lia. reflexivity. }
  unfold extractDateFromUrl.
  rewrite sortedPatterns_split, (tryPatterns_skip now _ _ _ Hday).
  cbn [tryPatterns]. rewrite Htry. reflexivity.
Qed.

Lemma extractDateFromUrl_month_folder_witness :
  extractDateFromUrl november2026
    ("https://www.evertkwok.nl/wp-content/uploads" ++
     String "/" ("2019" ++ String "/" ("07" ++ String "/" "quantum-mechanics.jpg"))) =
  newDate (JS.parseInt "2019") (JS.parseInt "07" - 1) 1.
Proof.
  apply (proj1 (extractDateFromUrl_month_folder november2026
                  "https://www.evertkwok.nl/wp-content/uploads" "2019" "07"
                  "quantum-mechanics.jpg" eq_refl eq_refl eq_refl eq_refl eq_refl eq_refl
                  ltac:(vm_compute; split; discriminate)
                  ltac:(vm_compute; split; discriminate))).
Defined.

(** ** extractTitle: the order of preference *)

Lemma filterBoolean_accepted_first {Eng : Engine} (a : string) (rest : list (option string)) :
  titleAccepted a = true ->
  find titleAccepted (filterBoolean (Some a :: rest)) = Some a.
Proof.
  intros Ha. cbn [filterBoolean].
  destruct (String.eqb_spec a "") as [->|_]; [discriminate|].
  cbn [find]. now rewrite Ha.
Qed.

Lemma filterBoolean_rejected_first {Eng : Engine} (o : option string) (rest : list (option string)) :
  match o with Some a => titleAccepted a = false | None => True end ->
  find titleAccepted (filterBoolean (o :: rest)) = find titleAccepted (filterBoolean rest).
Proof.
  destruct o as [a|]; [|reflexivity]. intros Ha. cbn [filterBoolean].
  destruct (a =? "")%string; [reflexivity|]. cbn [find]. now rewrite Ha.
Qed.

(** X21. The [alt] text has the first word: when it is acceptable the
    title is the cleaned [alt] text, whatever the [title] attribute, the
    captions and the heading hold.  When there is no [alt] text, or an
    unacceptable one, an acceptable [title] attribute is taken. *)
Theorem extractTitle_alt_first {Eng : Engine} (el : element) :
  (forall a, attr_alt el = Some a -> titleAccepted a = true ->
     extractTitle el = cleanTitle a) /\
  (forall t,
     match attr_alt el with Some a => titleAccepted a = false | None => True end ->
     attr_title el = Some t -> titleAccepted t = true ->
     extractTitle el = cleanTitle t).
Proof.
  split.
  - intros a Halt Ha. unfold extractTitle, titleCandidates. rewrite Halt.
    now rewrite filterBoolean_accepted_first.
  - intros t Halt Htitle Ht. unfold extractTitle, titleCandidates.
    rewrite filterBoolean_rejected_first by exact Halt.
    rewrite Htitle. now rewrite filterBoolean_accepted_first.
Qed.

Lemma extractTitle_alt_first_witness :
  extractTitle (withCaption "A caption that is not used"
                  (withAlt "Schrodinger's cat" (bare "/wp-content/uploads/2019/07/cat.jpg")))
  = cleanTitle "Schrodinger's cat" /\
  extractTitle
    {| attr_src := Some "/wp-content/uploads/2019/07/cat.jpg"; attr_alt := Some "cartoon";
       attr_title := Some "Wave function"; siblings_figcaption := "";
       parent_siblings_caption := ""; figure_figcaption := ""; block_figcaption := "";
       caption_text := ""; heading_text := "A heading that is not used";
       paragraph_text := "" |}
  = cleanTitle "Wave function".
Proof.
  split.
  - apply (proj1 (extractTitle_alt_first _) "Schrodinger's cat"); reflexivity.
  - apply (proj2 (extractTitle_alt_first _) "Wave function"); reflexivity.
Defined.
